(** * md-to-notion: the Markdown to Notion block converter

    A shallow embedding of [packages/md-to-notion/main/src/main.ts]: the
    inline tokenizer [parseInlineStyles], the line classifier
    [parseMarkdown] and the request adapter [main], together with the
    fragment of the JavaScript string and regular-expression library
    they call, and the [main] of the older copy of the file.  A list
    reaches the result through [blocks.push(...items)], a call with one
    argument for each item: the number of arguments the engine accepts
    is a variable of the development. *)

From Stdlib Require Import List ZArith NArith Bool Lia String Ascii.
From Equations Require Import Equations.
From Equations.Prop Require Import Logic.
Import ListNotations.

Local Open Scope Z_scope.

(** ** JavaScript strings

    A JavaScript string is a finite sequence of UTF-16 code units; a code
    unit is modelled by its number.  Indices and lengths are integers, as
    in the source, so that [indexOf] can answer [-1] and [slice] can take
    a negative bound. *)
Module JS.

Definition jsstring := list N.

(** A string literal of the source, read code unit by code unit. *)
Definition str (s : string) : jsstring :=
  map N_of_ascii (list_ascii_of_string s).

Definition length (s : jsstring) : Z := Z.of_nat (List.length s).

Definition eqb (a b : jsstring) : bool :=
  if list_eq_dec N.eq_dec a b then true else false.

(** Truthiness of a string: only the empty string is falsy. *)
Definition truthy (s : jsstring) : bool :=
  match s with [] => false | _ :: _ => true end.

(** [clamp k len] is [min(max(k, 0), len)]. *)
Definition clamp (k len : Z) : Z := Z.min (Z.max k 0) len.

(** A relative index, as [slice] resolves it: negative values count from
    the end of the string. *)
Definition relIndex (k len : Z) : Z :=
  if k <? 0 then Z.max (len + k) 0 else Z.min k len.

(** [s.slice(a, b)] *)
Definition slice (s : jsstring) (a b : Z) : jsstring :=
  let len := length s in
  let from := relIndex a len in
  let to := relIndex b len in
  firstn (Z.to_nat (to - from)) (skipn (Z.to_nat from) s).

(** [s.slice(a)] *)
Definition sliceFrom (s : jsstring) (a : Z) : jsstring :=
  slice s a (length s).

(** [s.substr(start, n)] *)
Definition substr (s : jsstring) (start n : Z) : jsstring :=
  let len := length s in
  let from := relIndex start len in
  firstn (Z.to_nat (Z.min (Z.max n 0) (len - from))) (skipn (Z.to_nat from) s).

(** [s[i]]: [None] stands for [undefined]. *)
Definition at_ (s : jsstring) (i : Z) : option N :=
  if i <? 0 then None else nth_error s (Z.to_nat i).

Definition isChar (o : option N) (c : N) : bool :=
  match o with Some d => N.eqb d c | None => false end.

(** [isPrefix p s]: [s] begins with [p]. *)
Fixpoint isPrefix (p s : jsstring) : bool :=
  match p, s with
  | [], _ => true
  | _ :: _, [] => false
  | a :: p', b :: s' => N.eqb a b && isPrefix p' s'
  end.

(** Search for [p] in the suffix [s] of a string, [pos] being the index
    of the first code unit of [s]. *)
Fixpoint indexOfFrom (p s : jsstring) (pos : Z) : Z :=
  if isPrefix p s then pos
  else match s with
       | [] => -1
       | _ :: s' => indexOfFrom p s' (pos + 1)
       end.

(** [s.indexOf(p, from)] *)
Definition indexOf (s p : jsstring) (from : Z) : Z :=
  let k := clamp from (length s) in
  indexOfFrom p (skipn (Z.to_nat k) s) k.

(** [s.includes(p)] *)
Definition includes (s p : jsstring) : bool :=
  negb (indexOf s p 0 =? -1).

(** [s.startsWith(p)] *)
Definition startsWith (s p : jsstring) : bool := isPrefix p s.

(** [s.endsWith(p)] *)
Definition endsWith (s p : jsstring) : bool :=
  let len := length s in
  let n := length p in
  (n <=? len) && eqb (slice s (len - n) len) p.

(** White space and line terminators of ECMAScript: what [trim] strips
    and what the class [\s] matches. *)
Definition isLineTerminator (c : N) : bool :=
  (N.eqb c 10 || N.eqb c 13 || N.eqb c 8232 || N.eqb c 8233)%N.

Definition isWhiteSpace (c : N) : bool :=
  (N.eqb c 9 || N.eqb c 11 || N.eqb c 12 || N.eqb c 32 || N.eqb c 160
   || N.eqb c 5760 || (N.leb 8192 c && N.leb c 8202)
   || N.eqb c 8239 || N.eqb c 8287 || N.eqb c 12288 || N.eqb c 65279
   || isLineTerminator c)%N.

Fixpoint dropWhile (f : N -> bool) (s : jsstring) : jsstring :=
  match s with
  | [] => []
  | c :: s' => if f c then dropWhile f s' else s
  end.

Definition trimStart (s : jsstring) : jsstring := dropWhile isWhiteSpace s.
Definition trimEnd (s : jsstring) : jsstring := rev (dropWhile isWhiteSpace (rev s)).

(** [s.trim()] *)
Definition trim (s : jsstring) : jsstring := trimEnd (trimStart s).

(** [s.split('\n')]: never empty, [''.split('\n')] is [['']]. *)
Fixpoint splitLines (s : jsstring) : list jsstring :=
  match s with
  | [] => [[]]
  | c :: s' =>
      if N.eqb c 10 then [] :: splitLines s'
      else match splitLines s' with
           | l :: ls => (c :: l) :: ls
           | [] => [[c]]
           end
  end.

(** [s.toLowerCase()] on the letters A to Z.  No other code unit is
    mapped to one of the letters the adapter compares with. *)
Definition lowerChar (c : N) : N :=
  if (N.leb 65 c && N.leb c 90)%N then (c + 32)%N else c.

Definition toLowerCase (s : jsstring) : jsstring := map lowerChar s.

(** *** Facts about the string operations *)

Lemma length_nonneg (s : jsstring) : 0 <= length s.
Proof. unfold length. lia. Qed.

Lemma length_app (a b : jsstring) : length (a ++ b) = length a + length b.
Proof. unfold length. rewrite List.length_app. lia. Qed.

Lemma eqb_eq (a b : jsstring) : eqb a b = true <-> a = b.
Proof.
  unfold eqb. destruct (list_eq_dec N.eq_dec a b); split; congruence.
Qed.

Lemma eqb_refl (a : jsstring) : eqb a a = true.
Proof. apply eqb_eq. reflexivity. Qed.

Lemma isPrefix_spec (p s : jsstring) :
  isPrefix p s = true <-> exists r, s = p ++ r.
Proof.
  revert s. induction p as [|a p IH]; intros s; simpl.
  - split; [intros _; exists s; reflexivity | reflexivity].
  - destruct s as [|b s].
    + split; [discriminate | intros [r Hr]; discriminate].
    + rewrite andb_true_iff, N.eqb_eq, IH. split.
      * intros [-> [r ->]]. exists r. reflexivity.
      * intros [r Hr]. injection Hr as -> ->. split; [reflexivity | exists r; reflexivity].
Qed.

Lemma isPrefix_app (p r : jsstring) : isPrefix p (p ++ r) = true.
Proof. apply isPrefix_spec. exists r. reflexivity. Qed.

Lemma isPrefix_length (p s : jsstring) :
  isPrefix p s = true -> length p <= length s.
Proof.
  intros H. apply isPrefix_spec in H as [r ->]. rewrite length_app.
  pose proof (length_nonneg r). lia.
Qed.

(** What a successful search returns: the least offset at which the
    pattern is a prefix. *)
Lemma indexOfFrom_found (p s : jsstring) (pos : Z) :
  0 <= pos -> indexOfFrom p s pos <> -1 ->
  exists n : nat,
    indexOfFrom p s pos = pos + Z.of_nat n /\
    (n <= List.length s)%nat /\
    isPrefix p (skipn n s) = true /\
    forall m : nat, (m < n)%nat -> isPrefix p (skipn m s) = false.
Proof.
  revert pos. induction s as [|c s IH]; intros pos Hpos; simpl.
  - destruct (isPrefix p []) eqn:E; [|congruence]. intros _.
    exists 0%nat. simpl. repeat split; [lia | lia | exact E | intros m Hm; lia].
  - destruct (isPrefix p (c :: s)) eqn:E.
    + intros _. exists 0%nat. simpl. repeat split; [lia | lia | exact E | intros m Hm; lia].
    + intros H. destruct (IH (pos + 1)) as [n [H1 [H2 [H3 H4]]]]; [lia | exact H |].
      exists (S n). simpl. repeat split; [lia | lia | exact H3 |].
      intros [|m] Hm; simpl; [exact E | apply H4; lia].
Qed.

(** A failed search: the pattern is a prefix at no offset. *)
Lemma indexOfFrom_none (p s : jsstring) (pos : Z) :
  0 <= pos -> indexOfFrom p s pos = -1 ->
  forall m : nat, isPrefix p (skipn m s) = false.
Proof.
  revert pos. induction s as [|c s IH]; intros pos Hpos; simpl.
  - destruct (isPrefix p []) eqn:E; [lia|]. intros _ m. rewrite skipn_nil. exact E.
  - destruct (isPrefix p (c :: s)) eqn:E; [lia|].
    intros H [|m]; simpl; [exact E | eapply IH; [|exact H]; lia].
Qed.

Lemma clamp_bounds (k len : Z) : 0 <= len -> 0 <= clamp k len <= len.
Proof. unfold clamp. lia. Qed.

(** A successful search for a non-empty pattern answers an index at or
    after the starting point, with the whole pattern inside the string. *)
Lemma indexOf_found (s p : jsstring) (from : Z) :
  p <> [] -> indexOf s p from <> -1 ->
  from <= indexOf s p from /\ 0 <= indexOf s p from /\
  indexOf s p from + length p <= length s /\
  isPrefix p (skipn (Z.to_nat (indexOf s p from)) s) = true.
Proof.
  intros Hp H. unfold indexOf in *.
  pose proof (clamp_bounds from (length s) (length_nonneg s)) as Hk.
  set (k := clamp from (length s)) in *.
  destruct (indexOfFrom_found p (skipn (Z.to_nat k) s) k) as [n [H1 [H2 [H3 _]]]];
    [lia | exact H |].
  rewrite skipn_skipn in H3. rewrite List.length_skipn in H2.
  rewrite H1.
  replace (Z.to_nat (k + Z.of_nat n)) with (n + Z.to_nat k)%nat by lia.
  pose proof (isPrefix_length _ _ H3) as HL.
  unfold length in HL. rewrite List.length_skipn in HL.
  assert (0 < length p) by (destruct p; [congruence | unfold length; simpl; lia]).
  unfold length in *. unfold clamp in *. repeat split; try lia. exact H3.
Qed.

End JS.

Import JS.

(** ** Rich text *)

Record Annotations := mkAnnotations {
  bold : bool;
  italic : bool;
  strikethrough : bool;
  underline : bool;
  code : bool;
  color : jsstring
}.

(** [Partial<RichText['annotations']>]: every field may be absent. *)
Record PartialAnnotations := mkPartial {
  p_bold : option bool;
  p_italic : option bool;
  p_strikethrough : option bool;
  p_underline : option bool;
  p_code : option bool;
  p_color : option jsstring
}.

(** The literal [{}]. *)
Definition noAnnotations : PartialAnnotations :=
  mkPartial None None None None None None.

(** A rich text entry; its [type] is always ['text']. *)
Record RichText := mkRichText {
  content : jsstring;
  annotations : Annotations
}.

Definition orElse {A} (o : option A) (d : A) : A :=
  match o with Some a => a | None => d end.

Definition createRichText (content : jsstring) (annotations : PartialAnnotations) : RichText :=
  mkRichText content
    {| bold := orElse (p_bold annotations) false;
       italic := orElse (p_italic annotations) false;
       strikethrough := orElse (p_strikethrough annotations) false;
       underline := orElse (p_underline annotations) false;
       code := orElse (p_code annotations) false;
       color := orElse (p_color annotations) (str "default") |}.

(** ** The inline tokenizer *)

(** The object [currentAnnotations]: five flags and no colour.  It is
    created once and never assigned to. *)
Record StyleFlags := mkFlags {
  f_bold : bool;
  f_italic : bool;
  f_underline : bool;
  f_strikethrough : bool;
  f_code : bool
}.

Definition currentAnnotations : StyleFlags :=
  mkFlags false false false false false.

(** The spread [{...flags}]. *)
Definition spread (a : StyleFlags) : PartialAnnotations :=
  mkPartial (Some (f_bold a)) (Some (f_italic a)) (Some (f_strikethrough a))
            (Some (f_underline a)) (Some (f_code a)) None.

Definition withBold (p : PartialAnnotations) : PartialAnnotations :=
  mkPartial (Some true) (p_italic p) (p_strikethrough p) (p_underline p) (p_code p) (p_color p).
Definition withItalic (p : PartialAnnotations) : PartialAnnotations :=
  mkPartial (p_bold p) (Some true) (p_strikethrough p) (p_underline p) (p_code p) (p_color p).
Definition withUnderline (p : PartialAnnotations) : PartialAnnotations :=
  mkPartial (p_bold p) (p_italic p) (p_strikethrough p) (Some true) (p_code p) (p_color p).
Definition withStrikethrough (p : PartialAnnotations) : PartialAnnotations :=
  mkPartial (p_bold p) (p_italic p) (Some true) (p_underline p) (p_code p) (p_color p).
Definition withCode (p : PartialAnnotations) : PartialAnnotations :=
  mkPartial (p_bold p) (p_italic p) (p_strikethrough p) (p_underline p) (Some true) (p_color p).

(** The variables of the scanning loop. *)
Record ScanState := mkScan {
  i : Z;
  currentText : jsstring;
  segments : list RichText
}.

(** [if (currentText) { segments.push(...); currentText = '' }] *)
Definition flushText (st : ScanState) : list RichText :=
  if truthy (currentText st)
  then segments st ++ [createRichText (currentText st) (spread currentAnnotations)]
  else segments st.

(** The test that opens a two-character style at the cursor. *)
Definition opens2 (text : jsstring) (i : Z) (marker : jsstring) : bool :=
  eqb (substr text i 2) marker && negb (indexOf text marker (i + 2) =? -1).

(** The test that opens a one-character style at the cursor. *)
Definition opens1 (text : jsstring) (i : Z) (marker : N) : bool :=
  isChar (at_ text i) marker && negb (indexOf text [marker] (i + 1) =? -1).

(** A delimited span: the text between the markers becomes a run of its
    own and the cursor moves behind the closing marker. *)
Definition styled (text : jsstring) (st : ScanState) (marker : jsstring)
    (style : PartialAnnotations -> PartialAnnotations) : ScanState :=
  let n := length marker in
  let close := indexOf text marker (i st + n) in
  let inner := slice text (i st + n) close in
  mkScan (close + n) []
         (flushText st ++ [createRichText inner (style (spread currentAnnotations))]).

(** One turn of the [while] loop. *)
Definition scanStep (text : jsstring) (st : ScanState) : ScanState :=
  if opens2 text (i st) (str "**") then styled text st (str "**") withBold
  else if opens1 text (i st) 95 then styled text st (str "_") withItalic
  else if opens2 text (i st) (str "__") then styled text st (str "__") withUnderline
  else if opens2 text (i st) (str "~~") then styled text st (str "~~") withStrikethrough
  else if opens1 text (i st) 96 then styled text st (str "`") withCode
  else mkScan (i st + 1)
              (currentText st ++ match at_ text (i st) with
                                | Some c => [c]
                                | None => str "undefined"
                                end)
              (segments st).

(** Every turn of the loop moves the cursor forward. *)
Lemma scanStep_advances (text : jsstring) (st : ScanState) :
  i st < i (scanStep text st).
Proof.
  assert (H2 : forall m f, opens2 text (i st) m = true -> m <> [] -> length m = 2 ->
                           i st < i (styled text st m f)).
  { intros m f H Hm Hl. unfold opens2 in H. apply andb_true_iff in H as [_ H].
    apply negb_true_iff, Z.eqb_neq in H.
    apply indexOf_found in H; [|exact Hm]. unfold styled. simpl. rewrite Hl. lia. }
  assert (H1 : forall c f, opens1 text (i st) c = true -> i st < i (styled text st [c] f)).
  { intros c f H. unfold opens1 in H. apply andb_true_iff in H as [_ H].
    apply negb_true_iff, Z.eqb_neq in H.
    apply indexOf_found in H; [|discriminate]. unfold styled. simpl.
    change (length [c]) with 1. lia. }
  unfold scanStep.
  destruct (opens2 text (i st) (str "**")) eqn:E1; [apply H2; [exact E1 | discriminate | reflexivity]|].
  destruct (opens1 text (i st) 95) eqn:E2; [apply (H1 95%N); exact E2|].
  destruct (opens2 text (i st) (str "__")) eqn:E3; [apply H2; [exact E3 | discriminate | reflexivity]|].
  destruct (opens2 text (i st) (str "~~")) eqn:E4; [apply H2; [exact E4 | discriminate | reflexivity]|].
  destruct (opens1 text (i st) 96) eqn:E5; [apply (H1 96%N); exact E5|].
  simpl. lia.
Qed.

(** The [while (i < text.length)] loop. *)
Equations? scanLoop (text : jsstring) (st : ScanState) : ScanState
  by wf (Z.to_nat (length text - i st)) lt :=
scanLoop text st with inspect (i st <? length text) := {
  | exist _ true Hlt := scanLoop text (scanStep text st)
  | exist _ false _ := st }.
Proof.
  pose proof (scanStep_advances text st). apply Z.ltb_lt in Hlt. lia.
Qed.

Definition parseInlineStyles (text : jsstring) : list RichText :=
  flushText (scanLoop text (mkScan 0 [] [])).

(** ** Regular expressions

    The fragment of ECMAScript regular expressions the source uses:
    single characters and character classes, greedy and lazy repetition
    of a class, capture groups around them, and the anchor [^].  Matching
    is by backtracking, as the ECMAScript matcher is specified. *)
Module Regex.

(** What one character of the input is tested against. *)
Inductive charset :=
| Lit (c : N)      (* a literal character *)
| Dot              (* [.]: anything but a line terminator *)
| Digit            (* [\d] *)
| Space.           (* [\s] *)

Definition accepts (x : charset) (c : N) : bool :=
  match x with
  | Lit d => N.eqb c d
  | Dot => negb (isLineTerminator c)
  | Digit => (N.leb 48 c && N.leb c 57)%N
  | Space => isWhiteSpace c
  end.

Inductive piece :=
| One (x : charset)        (* [x] *)
| Star (x : charset)       (* [x*], greedy *)
| Plus (x : charset)       (* [x+], greedy *)
| LazyStar (x : charset)   (* [x*?] *)
| Open                     (* [(] of a capture group *)
| Close                    (* [)] of a capture group *)
| Start.                   (* [^] *)

Definition regex := list piece.

(** The captures of a match in progress: the groups closed so far, and
    the text of the open group, last character first. *)
Record captures := mkCaptures {
  closed : list jsstring;
  opened : option jsstring
}.

Definition noCaptures : captures := mkCaptures [] None.

Definition consume (c : N) (cs : captures) : captures :=
  mkCaptures (closed cs)
             (match opened cs with Some acc => Some (c :: acc) | None => None end).

Definition openGroup (cs : captures) : captures :=
  mkCaptures (closed cs) (Some []).

Definition closeGroup (cs : captures) : captures :=
  mkCaptures (closed cs ++ [rev (orElse (opened cs) [])]) None.

(** [run r s pos cs]: match [r] against the input [s], which starts at
    index [pos] of the whole string.  A success gives the captures and
    the index just behind the match. *)
Fixpoint run (r : regex) : jsstring -> nat -> captures -> option (captures * nat) :=
  match r with
  | [] => fun s pos cs => Some (cs, pos)
  | One x :: r' => fun s pos cs =>
      match s with
      | c :: s' => if accepts x c then run r' s' (S pos) (consume c cs) else None
      | [] => None
      end
  | Star x :: r' =>
      fix greedy (s : jsstring) (pos : nat) (cs : captures) {struct s} :=
        match
          match s with
          | c :: s' => if accepts x c then greedy s' (S pos) (consume c cs) else None
          | [] => None
          end
        with
        | Some m => Some m
        | None => run r' s pos cs
        end
  | Plus x :: r' => fun s pos cs =>
      match s with
      | c :: s' =>
          if accepts x c then
            (fix greedy (s : jsstring) (pos : nat) (cs : captures) {struct s} :=
               match
                 match s with
                 | c :: s' => if accepts x c then greedy s' (S pos) (consume c cs) else None
                 | [] => None
                 end
               with
               | Some m => Some m
               | None => run r' s pos cs
               end) s' (S pos) (consume c cs)
          else None
      | [] => None
      end
  | LazyStar x :: r' =>
      fix lazy (s : jsstring) (pos : nat) (cs : captures) {struct s} :=
        match run r' s pos cs with
        | Some m => Some m
        | None =>
            match s with
            | c :: s' => if accepts x c then lazy s' (S pos) (consume c cs) else None
            | [] => None
            end
        end
  | Open :: r' => fun s pos cs => run r' s pos (openGroup cs)
  | Close :: r' => fun s pos cs => run r' s pos (closeGroup cs)
  | Start :: r' => fun s pos cs =>
      match pos with O => run r' s pos cs | S _ => None end
  end.

(** A match: where it starts, where it ends, and its capture groups. *)
Record found := mkFound {
  index : nat;
  lastIndex : nat;
  groups : list jsstring
}.

(** The leftmost match in the suffix [s] that starts at index [pos]. *)
Fixpoint search (r : regex) (s : jsstring) (pos : nat) : option found :=
  match run r s pos noCaptures with
  | Some (cs, e) => Some (mkFound pos e (closed cs))
  | None =>
      match s with
      | [] => None
      | _ :: s' => search r s' (S pos)
      end
  end.

(** [r.exec(s)] for a regex without the global flag. *)
Definition exec (r : regex) (s : jsstring) : option found := search r s 0.

(** [r.test(s)] *)
Definition test (r : regex) (s : jsstring) : bool :=
  match exec r s with Some _ => true | None => false end.

(** [s.match(r)] for a regex without the global flag: the matched text
    followed by the capture groups, or [None] for [null]. *)
Definition match_ (s : jsstring) (r : regex) : option (list jsstring) :=
  match exec r s with
  | Some m => Some (firstn (lastIndex m - index m) (skipn (index m) s) :: groups m)
  | None => None
  end.

(** [s.replace(r, by)] for a regex without the global flag and a
    replacement text without [$]: the leftmost match is replaced. *)
Definition replace (s : jsstring) (r : regex) (by_ : jsstring) : jsstring :=
  match exec r s with
  | Some m => firstn (index m) s ++ by_ ++ skipn (lastIndex m) s
  | None => s
  end.

(** [s.replace(r, by)] for a regex with the global flag: every match,
    from the left, is replaced; the search resumes behind each match,
    and one character further after an empty match.  [skip] counts the
    characters of the current match still to pass over. *)
Fixpoint replaceFrom (r : regex) (by_ : jsstring) (s : jsstring) (pos skip : nat) : jsstring :=
  match skip with
  | S k =>
      match s with
      | [] => []
      | _ :: s' => replaceFrom r by_ s' (S pos) k
      end
  | O =>
      match run r s pos noCaptures with
      | Some (_, e) =>
          by_ ++ match s with
                 | [] => []
                 | c :: s' =>
                     if (e =? pos)%nat then c :: replaceFrom r by_ s' (S pos) 0
                     else replaceFrom r by_ s' (S pos) (e - pos - 1)
                 end
      | None =>
          match s with
          | [] => []
          | c :: s' => c :: replaceFrom r by_ s' (S pos) 0
          end
      end
  end.

Definition replaceAll (s : jsstring) (r : regex) (by_ : jsstring) : jsstring :=
  replaceFrom r by_ s 0 0.

End Regex.

Import Regex.

(** ** Notion blocks *)

(** The content stored under the block's own type name. *)
Inductive Payload :=
| RichTextPayload (rich_text : list RichText)
| ExternalPayload (url : jsstring)
| BookmarkPayload (url : jsstring) (caption : list RichText)
| CodePayload (rich_text : list RichText) (language : jsstring)
| EmptyPayload.

(** A block; its [object] is always ['block']. *)
Record NotionBlock := mkBlock {
  type : jsstring;
  payload : Payload
}.

Definition createBlock (type : jsstring) (content : Payload) : NotionBlock :=
  mkBlock type content.

Definition createHeading1 (text : jsstring) : NotionBlock :=
  createBlock (str "heading_1") (RichTextPayload (parseInlineStyles text)).

Definition createHeading2 (text : jsstring) : NotionBlock :=
  createBlock (str "heading_2") (RichTextPayload (parseInlineStyles text)).

Definition createHeading3 (text : jsstring) : NotionBlock :=
  createBlock (str "heading_3") (RichTextPayload (parseInlineStyles text)).

Definition createParagraph (text : jsstring) : NotionBlock :=
  createBlock (str "paragraph") (RichTextPayload (parseInlineStyles text)).

Definition createBulletList (items : list jsstring) : list NotionBlock :=
  map (fun item =>
         createBlock (str "bulleted_list_item") (RichTextPayload (parseInlineStyles item)))
      items.

Definition createNumberedList (items : list jsstring) : list NotionBlock :=
  map (fun item =>
         createBlock (str "numbered_list_item") (RichTextPayload (parseInlineStyles item)))
      items.

Definition createImage (url : jsstring) : NotionBlock :=
  createBlock (str "image") (ExternalPayload url).

Definition createVideo (url : jsstring) : NotionBlock :=
  createBlock (str "video") (ExternalPayload url).

(** [caption] defaults to the empty string. *)
Definition createBookmark (url : jsstring) (caption : option jsstring) : NotionBlock :=
  let caption := orElse caption [] in
  createBlock (str "bookmark")
    (BookmarkPayload url (if truthy caption then parseInlineStyles caption else [])).

(** [language] defaults to ["javascript"]. *)
Definition createCodeBlock (code : jsstring) (language : option jsstring) : NotionBlock :=
  createBlock (str "code")
    (CodePayload [createRichText code noAnnotations] (orElse language (str "javascript"))).

Definition createQuote (text : jsstring) : NotionBlock :=
  createBlock (str "quote") (RichTextPayload (parseInlineStyles text)).

Definition createDivider : NotionBlock :=
  createBlock (str "divider") EmptyPayload.

Definition createSpace (count : nat) : list NotionBlock :=
  repeat (createBlock (str "paragraph") (RichTextPayload [createRichText [] noAnnotations])) count.

(** ** Exceptions *)

(** A thrown value: an [Error] object with its message, or anything
    else. *)
Inductive Thrown :=
| ErrorObject (message : jsstring)
| OtherValue.

(** The outcome of a computation that may throw. *)
Inductive completion (A : Type) :=
| Normal (a : A)
| Throw (e : Thrown).
Arguments Normal {A} a.
Arguments Throw {A} e.

Definition bind {A B} (c : completion A) (k : A -> completion B) : completion B :=
  match c with
  | Normal a => k a
  | Throw e => Throw e
  end.

Notation "x <- c ;; k" := (bind c (fun x => k))
  (at level 61, c at next level, right associativity).

(** A [for ... of] loop over a list, with a body that may throw. *)
Fixpoint forOf {A S} (body : S -> A -> completion S) (l : list A) (st : S) : completion S :=
  match l with
  | [] => Normal st
  | a :: l' => st' <- body st a ;; forOf body l' st'
  end.

(** ** The line classifier *)

Inductive ListType := bulletList | numberList.

Definition ListType_eqb (a b : ListType) : bool :=
  match a, b with
  | bulletList, bulletList | numberList, numberList => true
  | _, _ => false
  end.

(** The two entries of [blockConverters] that a [listType] can name. *)
Definition blockConverters (key : ListType) (items : list jsstring) : list NotionBlock :=
  match key with
  | bulletList => createBulletList items
  | numberList => createNumberedList items
  end.

(** [this.blockConverters[listType!].call(this, currentList)]: with
    [listType] still [null] there is no such converter, and the call
    throws a [TypeError]. *)
Definition convertList (listType : option ListType) (currentList : list jsstring)
    : completion (list NotionBlock) :=
  match listType with
  | Some key => Normal (blockConverters key currentList)
  | None => Throw (ErrorObject (str "Cannot read properties of undefined (reading 'call')"))
  end.

(** The variables of the loop over the lines. *)
Record ParseState := mkParse {
  blocks : list NotionBlock;
  currentList : list jsstring;
  isInList : bool;
  listType : option ListType
}.

(** *** The engine

    The items of a list reach [blocks] through
    [blocks.push(...items)]: the spread passes every item as an
    argument of one call, and an engine accepts only so many.  The
    functions run on Node.js, where a call with more arguments than the
    stack holds throws a [RangeError] with the message below.  How many
    arguments fit depends on the version and on the size of the stack:
    the number is left open, and everything from here on holds for
    every engine. *)

Section Engine.

Variable maxArguments : N.

Definition rangeError : Thrown :=
  ErrorObject (str "Maximum call stack size exceeded").

(** [blocks.push(...items)] *)
Definition pushAll (blocks items : list NotionBlock) : completion (list NotionBlock) :=
  if (N.of_nat (List.length items) <=? maxArguments)%N then Normal (blocks ++ items)
  else Throw rangeError.

(** [if (isInList) { blocks.push(...); currentList = []; isInList = false; }] *)
Definition closeList (st : ParseState) : completion ParseState :=
  if isInList st then
    items <- convertList (listType st) (currentList st) ;;
    blocks' <- pushAll (blocks st) items ;;
    Normal (mkParse blocks' [] false (listType st))
  else Normal st.

(** [blocks.push(block)] *)
Definition push (st : ParseState) (block : NotionBlock) : ParseState :=
  mkParse (blocks st ++ [block]) (currentList st) (isInList st) (listType st).

(** A list line of the given kind: a list of the other kind is flushed,
    a list is opened if none is, and the item joins the list. *)
Definition listItem (key : ListType) (item : jsstring) (st : ParseState)
    : completion ParseState :=
  st1 <- (if negb (isInList st)
             || negb (match listType st with Some k => ListType_eqb k key | None => false end)
          then
            st' <- (if isInList st then
                      items <- convertList (listType st) (currentList st) ;;
                      blocks' <- pushAll (blocks st) items ;;
                      Normal (mkParse blocks' [] (isInList st) (listType st))
                    else Normal st) ;;
            Normal (mkParse (blocks st') (currentList st') true (Some key))
          else Normal st) ;;
  Normal (mkParse (blocks st1) (currentList st1 ++ [item]) (isInList st1) (listType st1)).

(** The regular expressions of the source. *)
Definition reCRLF : regex := [One (Lit 13); One (Lit 10)].                      (* /\r\n/g *)
Definition reBlankLines : regex := [One (Lit 10); Star Space; One (Lit 10)].    (* /\n\s*\n/g *)
Definition reNumbered : regex := [Start; Plus Digit; One (Lit 46); One Space].  (* /^\d+\.\s/ *)
Definition reParens : regex :=                                                  (* /\((.*?)\)/ *)
  [One (Lit 40); Open; LazyStar Dot; Close; One (Lit 41)].
Definition reLink : regex :=                                          (* /\[(.*?)\]\((.*?)\)/ *)
  [One (Lit 91); Open; LazyStar Dot; Close; One (Lit 93);
   One (Lit 40); Open; LazyStar Dot; Close; One (Lit 41)].

(** The tests of the image and of the bookmark rule. *)
Definition isImageLine (line : jsstring) : bool :=
  startsWith line (str "![") && includes line (str "](") && endsWith line (str ")").

Definition isLinkLine (line : jsstring) : bool :=
  startsWith line (str "[") && includes line (str "](") && endsWith line (str ")").

(** The body of the loop over the lines. *)
Definition processLine (st : ParseState) (line : jsstring) : completion ParseState :=
  let line := trim line in
  if negb (truthy line) then Normal st
  else if startsWith line (str "# ") then
    st <- closeList st ;; Normal (push st (createHeading1 (sliceFrom line 2)))
  else if startsWith line (str "## ") then
    st <- closeList st ;; Normal (push st (createHeading2 (sliceFrom line 3)))
  else if startsWith line (str "### ") then
    st <- closeList st ;; Normal (push st (createHeading3 (sliceFrom line 4)))
  else if startsWith line (str "* ") || startsWith line (str "- ") then
    listItem bulletList (sliceFrom line 2) st
  else if test reNumbered line then
    listItem numberList (replace line reNumbered []) st
  else if startsWith line (str "`") then
    st <- closeList st ;; Normal (push st (createCodeBlock (slice line 1 (-1)) None))
  else if startsWith line (str "> ") then
    st <- closeList st ;; Normal (push st (createQuote (sliceFrom line 2)))
  else if isImageLine line then
    st <- closeList st ;;
    match match_ line reParens with
    | None => Normal st
    | Some m => Normal (push st (createImage (nth 1 m [])))
    end
  else if isLinkLine line then
    st <- closeList st ;;
    match match_ line reLink with
    | None => Normal st
    | Some m => Normal (push st (createBookmark (nth 2 m []) (Some (nth 1 m []))))
    end
  else
    st <- closeList st ;; Normal (push st (createParagraph line)).

(** The text the loop runs over: line ends normalised, blank lines
    removed, the whole trimmed. *)
Definition cleanMarkdown (markdown : jsstring) : jsstring :=
  trim (replaceAll (replaceAll markdown reCRLF [10%N])
                   reBlankLines [10%N]).

(** What follows the loop: the items of a list still open are flushed,
    and the blocks are returned. *)
Definition finish (st : ParseState) : completion (list NotionBlock) :=
  if isInList st && (0 <? Z.of_nat (List.length (currentList st))) then
    items <- convertList (listType st) (currentList st) ;;
    pushAll (blocks st) items
  else Normal (blocks st).

(** The loop over the lines and what follows it. *)
Definition parseLines (lines : list jsstring) : completion (list NotionBlock) :=
  st <- forOf processLine lines (mkParse [] [] false None) ;;
  finish st.

Definition parseMarkdown (markdown : jsstring) : completion (list NotionBlock) :=
  parseLines (splitLines (cleanMarkdown markdown)).

(** ** The request adapter *)

Record MainArgs := mkArgs {
  md : option jsstring;
  __ow_method : option jsstring;
  __ow_headers : option (list (jsstring * jsstring))
}.

Inductive Body :=
| ErrorBody (error : jsstring)
| ChildrenBody (children : list NotionBlock).

Record MainResponse := mkResponse {
  body : Body;
  statusCode : Z;
  headers : list (jsstring * jsstring)
}.

(** [obj[key]] on a record of strings. *)
Fixpoint getProperty (obj : list (jsstring * jsstring)) (key : jsstring) : option jsstring :=
  match obj with
  | [] => None
  | (k, v) :: obj' => if eqb k key then Some v else getProperty obj' key
  end.

(** The sentence every rejection ends with; it quotes the field name and
    the example. *)
Definition hint : jsstring :=
  str " With a body containing markdown in a " ++ [34%N] ++ str "md" ++ [34%N]
  ++ str " field. example: {" ++ [34%N] ++ str "md" ++ [34%N] ++ str ": "
  ++ [34%N] ++ str "## Hello World" ++ [34%N] ++ str "}".

Definition jsonHeaders : list (jsstring * jsstring) :=
  [(str "Content-Type", str "application/json")].

(** What [try { ... } catch (error) { ... }] makes of the conversion. *)
Definition respond (outcome : completion (list NotionBlock)) : MainResponse :=
  match outcome with
  | Normal blocks => mkResponse (ChildrenBody blocks) 200 jsonHeaders
  | Throw error =>
      mkResponse
        (ErrorBody (str "Internal Server Error: "
                    ++ match error with
                       | ErrorObject message => message
                       | OtherValue => str "Unknown error occurred"
                       end))
        500 jsonHeaders
  end.

Definition main (args : MainArgs) : MainResponse :=
  if match __ow_method args with
     | Some method => truthy method && negb (eqb (toLowerCase method) (str "post"))
     | None => false
     end
  then
    mkResponse
      (ErrorBody (str "Method not allowed. Only POST requests are supported." ++ hint))
      405
      [(str "Content-Type", str "application/json"); (str "Allow", str "POST")]
  else
    let contentType :=
      match match __ow_headers args with
            | Some h => getProperty h (str "content-type")
            | None => None
            end
      with
      | Some v => if truthy v then v else []
      | None => []
      end in
    if truthy contentType && negb (includes contentType (str "application/json")) then
      mkResponse
        (ErrorBody (str "Unsupported Media Type. Please send request with application/json content type." ++ hint))
        415 jsonHeaders
    else
      match md args with
      | Some markdown =>
          if truthy markdown then respond (parseMarkdown markdown)
          else
            mkResponse
              (ErrorBody (str "Bad Request: No markdown content provided in the request body." ++ hint))
              400 jsonHeaders
      | None =>
          mkResponse
            (ErrorBody (str "Bad Request: No markdown content provided in the request body." ++ hint))
            400 jsonHeaders
      end.

(** ** The first version of the adapter

    The older copy of the file has the same converter and a [main] with
    no gate on the method or the content type, no status code, and no
    [try]: what the conversion throws leaves [main].  Both copies call
    the function [main] and its result [MainResponse]; the older ones
    are [legacyMain] and [LegacyResponse] here. *)

Record LegacyResponse := mkLegacyResponse {
  legacyError : option jsstring;
  legacyBody : option (list NotionBlock)
}.

Definition legacyMain (md : option jsstring) : completion LegacyResponse :=
  match md with
  | Some markdown =>
      if truthy markdown then
        blocks <- parseMarkdown markdown ;;
        Normal (mkLegacyResponse None (Some blocks))
      else Normal (mkLegacyResponse (Some (str "no markdown provided!")) None)
  | None => Normal (mkLegacyResponse (Some (str "no markdown provided!")) None)
  end.

(** * Notions of the specification

    What the statements about the program are written with.  Nothing
    here is part of the program. *)

(** ** The tokenizer as the specification words it

    "Concatenating the text of all runs gives the line with the matched
    delimiter characters removed": the removal is defined directly on
    the characters of the line, with no cursor, no pending buffer and no
    runs. *)

(** The plain text of a sequence of runs, styling ignored. *)
Definition concatText (runs : list RichText) : jsstring :=
  flat_map content runs.

(** How many of the five style flags a run has set. *)
Definition styleCount (r : RichText) : nat :=
  let a := annotations r in
  (Nat.b2n (bold a) + Nat.b2n (italic a) + Nat.b2n (underline a)
   + Nat.b2n (strikethrough a) + Nat.b2n (code a))%nat.

(** The characters the style markers are made of: [*], [_], [~] and
    the backquote. *)
Definition isMarker (c : N) : bool :=
  N.eqb c 42 || N.eqb c 95 || N.eqb c 126 || N.eqb c 96.

(** [dropsMarkers s t]: [t] is [s] with some marker characters left out,
    and nothing else changed. *)
Inductive dropsMarkers : jsstring -> jsstring -> Prop :=
| dropsMarkers_nil : dropsMarkers [] []
| dropsMarkers_keep c s t : dropsMarkers s t -> dropsMarkers (c :: s) (c :: t)
| dropsMarkers_drop c s t : isMarker c = true -> dropsMarkers s t -> dropsMarkers (c :: s) t.

(** [cutAt m s]: the text before the first occurrence of the marker [m]
    in [s], and the text after that occurrence. *)
Fixpoint cutAt (m s : jsstring) : option (jsstring * jsstring) :=
  if isPrefix m s then Some ([], skipn (List.length m) s)
  else match s with
       | [] => None
       | c :: s' =>
           match cutAt m s' with
           | Some (before, after) => Some (c :: before, after)
           | None => None
           end
       end.

(** [delimited m s]: [s] opens with the marker [m] and the marker occurs
    again later; the answer is the text between the two markers and the
    text behind the closing one. *)
Definition delimited (m s : jsstring) : option (jsstring * jsstring) :=
  if isPrefix m s then cutAt m (skipn (List.length m) s) else None.

Definition orTry {A} (a b : option A) : option A :=
  match a with Some _ => a | None => b end.

(** The styles in their priority order: bold, italic, underline,
    strikethrough, inline code. *)
Definition matchedSpan (s : jsstring) : option (jsstring * jsstring) :=
  orTry (delimited (str "**") s)
  (orTry (delimited (str "_") s)
  (orTry (delimited (str "__") s)
  (orTry (delimited (str "~~") s)
         (delimited (str "`") s)))).

Lemma isPrefix_skipn (m s : jsstring) :
  isPrefix m s = true -> s = m ++ skipn (List.length m) s.
Proof.
  intros H. apply isPrefix_spec in H as [r ->].
  rewrite skipn_app, skipn_all, Nat.sub_diag. reflexivity.
Qed.

Lemma cutAt_split (m s before after : jsstring) :
  cutAt m s = Some (before, after) -> s = before ++ m ++ after.
Proof.
  revert before after. induction s as [|c s IH]; intros before after; simpl.
  - destruct (isPrefix m []) eqn:E; [|discriminate].
    intros H. injection H as <- <-. apply isPrefix_spec in E as [r Hr].
    destruct m; [|discriminate]. reflexivity.
  - destruct (isPrefix m (c :: s)) eqn:E.
    + intros H. injection H as <- <-. apply isPrefix_skipn in E. exact E.
    + destruct (cutAt m s) as [[b a]|] eqn:Ec; [|discriminate].
      intros H. injection H as <- <-. simpl. f_equal. apply IH. reflexivity.
Qed.

Lemma delimited_split (m s inner rest : jsstring) :
  delimited m s = Some (inner, rest) -> s = m ++ inner ++ m ++ rest.
Proof.
  unfold delimited. destruct (isPrefix m s) eqn:E; [|discriminate].
  intros H. apply cutAt_split in H. apply isPrefix_skipn in E.
  rewrite E, H. reflexivity.
Qed.

Lemma delimited_shorter (m s inner rest : jsstring) :
  m <> [] -> delimited m s = Some (inner, rest) ->
  (List.length rest < List.length s)%nat.
Proof.
  intros Hm H. apply delimited_split in H. rewrite H.
  rewrite !List.length_app. destruct m; [congruence | simpl; lia].
Qed.

(** Which marker a matched span was found with. *)
Lemma matchedSpan_marker (s : jsstring) (r : jsstring * jsstring) :
  matchedSpan s = Some r ->
  exists m, In m [str "**"; str "_"; str "__"; str "~~"; str "`"]
            /\ delimited m s = Some r.
Proof.
  unfold matchedSpan, orTry. intros H.
  destruct (delimited (str "**") s) eqn:E1;
    [exists (str "**"); split; [simpl; tauto | congruence]|].
  destruct (delimited (str "_") s) eqn:E2;
    [exists (str "_"); split; [simpl; tauto | congruence]|].
  destruct (delimited (str "__") s) eqn:E3;
    [exists (str "__"); split; [simpl; tauto | congruence]|].
  destruct (delimited (str "~~") s) eqn:E4;
    [exists (str "~~"); split; [simpl; tauto | congruence]|].
  exists (str "`"); split; [simpl; tauto | congruence].
Qed.

Lemma matchedSpan_shorter (s inner rest : jsstring) :
  matchedSpan s = Some (inner, rest) ->
  (List.length rest < List.length s)%nat.
Proof.
  intros H. apply matchedSpan_marker in H as [m [Hm H]].
  eapply delimited_shorter; [|eassumption].
  simpl in Hm. intuition (subst m; discriminate).
Qed.

(** The line with the matched delimiter characters removed: where a
    style opens and closes, both markers go and the text between them
    stays; any other character stays. *)
Equations? stripDelimiters (s : jsstring) : jsstring by wf (List.length s) lt :=
stripDelimiters [] := [];
stripDelimiters (c :: s') with inspect (matchedSpan (c :: s')) := {
  | exist _ (Some (inner, rest)) Hm := inner ++ stripDelimiters rest
  | exist _ None _ := c :: stripDelimiters s' }.
Proof.
  apply matchedSpan_shorter in Hm. exact Hm.
Qed.

(** An option that holds a value. *)
Definition isSome {A} (o : option A) : bool :=
  match o with Some _ => true | None => false end.

(** ** Lines of a document *)

(** The non-empty trimmed lines of a text, in order. *)
Definition sourceLines (markdown : jsstring) : list jsstring :=
  filter truthy (map trim (splitLines markdown)).

(** A text of white space only. *)
Definition blank (s : jsstring) : bool := forallb isWhiteSpace s.

(** A text of one line. *)
Definition noNewline (s : jsstring) : bool := forallb (fun c => negb (N.eqb c 10)) s.

(** A line that no rule before the paragraph rule takes. *)
Definition isPlainLine (line : jsstring) : bool :=
  negb (startsWith line (str "# "))
  && negb (startsWith line (str "## "))
  && negb (startsWith line (str "### "))
  && negb (startsWith line (str "* ") || startsWith line (str "- "))
  && negb (test reNumbered line)
  && negb (startsWith line (str "`"))
  && negb (startsWith line (str "> "))
  && negb (isImageLine line)
  && negb (isLinkLine line).

(** The line feed and the carriage return, as texts. *)
Definition nl : jsstring := [10%N].
Definition cr : jsstring := [13%N].

(** ** States of the loop over the lines *)

(** [st1] is [st2] with the blocks [B] emitted before; the kind of the
    last list counts only while a list is open. *)
Definition ahead (B : list NotionBlock) (st1 st2 : ParseState) : Prop :=
  blocks st1 = B ++ blocks st2 /\
  currentList st1 = currentList st2 /\
  isInList st1 = isInList st2 /\
  (isInList st2 = true -> listType st1 = listType st2).

Definition aheadC (B : list NotionBlock) (c1 c2 : completion ParseState) : Prop :=
  match c1, c2 with
  | Normal st1, Normal st2 => ahead B st1 st2
  | Throw e1, Throw e2 => e1 = e2
  | _, _ => False
  end.

(** ** Kinds of lines *)

(** The block of one item of a bulleted list. *)
Definition bulletItem (text : jsstring) : NotionBlock :=
  createBlock (str "bulleted_list_item") (RichTextPayload (parseInlineStyles text)).

(** A line of a list, bulleted or numbered. *)
Definition isListLine (line : jsstring) : bool :=
  startsWith line (str "* ") || startsWith line (str "- ") || test reNumbered line.

(** ** Parenthesised text, as the patterns find it *)

(** The text up to the nearest [)], provided no line terminator comes
    before it. *)
Fixpoint upToClose (s : jsstring) : option jsstring :=
  match s with
  | [] => None
  | c :: s' =>
      if N.eqb c 41 then Some []
      else if isLineTerminator c then None
      else option_map (cons c) (upToClose s')
  end.

(** The text inside the first parenthesis pair of a line: the first [(]
    that has a [)] behind it on the same stretch of text without line
    terminator, up to the nearest such [)]. *)
Fixpoint firstParenthesised (s : jsstring) : option jsstring :=
  match s with
  | [] => None
  | c :: s' =>
      if N.eqb c 40 then
        match upToClose s' with
        | Some u => Some u
        | None => firstParenthesised s'
        end
      else firstParenthesised s'
  end.

(** A text without line feed, carriage return, line separator and
    paragraph separator. *)
Definition noLineTerminator (s : jsstring) : bool :=
  forallb (fun c => negb (isLineTerminator c)) s.

(** The text between the first [(] of a line and the next [)], whatever
    stands between them. *)
Definition firstPair (s : jsstring) : option jsstring :=
  match cutAt [40%N] s with
  | Some (_, after) => option_map fst (cutAt [41%N] after)
  | None => None
  end.

(** ** Requests *)

(** The value of the header [content-type], or the empty string. *)
Definition contentTypeOf (args : MainArgs) : jsstring :=
  match __ow_headers args with
  | Some h => orElse (getProperty h (str "content-type")) []
  | None => []
  end.

(** ** The tokenizer on the text behind the cursor

    The loop of [parseInlineStyles] read without its cursor: a span at
    the head of the text becomes a run, any other character joins the
    pending plain text. *)

Definition Style := PartialAnnotations -> PartialAnnotations.

(** The run of a span, and the run of pending plain text. *)
Definition styledRun (style : Style) (inner : jsstring) : RichText :=
  createRichText inner (style (spread currentAnnotations)).

Definition plainRun (pending : jsstring) : list RichText :=
  if truthy pending then [createRichText pending (spread currentAnnotations)] else [].

Definition spanOf (style : Style) (o : option (jsstring * jsstring))
  : option (Style * jsstring * jsstring) :=
  match o with Some (inner, rest) => Some (style, inner, rest) | None => None end.

(** The span that opens a text, with its style: the five tests in the
    order of the loop. *)
Definition styledSpan (s : jsstring) : option (Style * jsstring * jsstring) :=
  orTry (spanOf withBold (delimited (str "**") s))
  (orTry (spanOf withItalic (delimited (str "_") s))
  (orTry (spanOf withUnderline (delimited (str "__") s))
  (orTry (spanOf withStrikethrough (delimited (str "~~") s))
         (spanOf withCode (delimited (str "`") s))))).

Lemma styledSpan_matchedSpan (s : jsstring) :
  matchedSpan s =
  match styledSpan s with Some (_, inner, rest) => Some (inner, rest) | None => None end.
Proof.
  unfold matchedSpan, styledSpan, orTry, spanOf.
  repeat match goal with
  | |- context [delimited ?m s] => destruct (delimited m s) as [[? ?]|]; try reflexivity
  end.
Qed.

Lemma styledSpan_shorter (s : jsstring) style inner rest :
  styledSpan s = Some (style, inner, rest) -> (List.length rest < List.length s)%nat.
Proof.
  intros H. apply (matchedSpan_shorter s inner). rewrite styledSpan_matchedSpan, H. reflexivity.
Qed.

(** The runs of a text, given the plain text pending before it. *)
Equations? tokens (pending s : jsstring) : list RichText by wf (List.length s) lt :=
tokens pending [] := plainRun pending;
tokens pending (c :: s') with inspect (styledSpan (c :: s')) := {
  | exist _ (Some (style, inner, rest)) Hm :=
      plainRun pending ++ styledRun style inner :: tokens [] rest
  | exist _ None _ := tokens (pending ++ [c]) s' }.
Proof.
  apply styledSpan_shorter in Hm. exact Hm.
Qed.

(** The markers with their styles, in the order of the loop. *)
Definition styles : list (jsstring * Style) :=
  [(str "**", withBold); (str "_", withItalic); (str "__", withUnderline);
   (str "~~", withStrikethrough); (str "`", withCode)].

(** A run with no style flag set. *)
Definition isPlain (r : RichText) : bool := (styleCount r =? 0)%nat.

(** No two runs of plain text follow each other. *)
Fixpoint plainApart (runs : list RichText) : Prop :=
  match runs with
  | r1 :: tail =>
      match tail with
      | r2 :: _ => isPlain r1 && isPlain r2 = false
      | [] => True
      end /\ plainApart tail
  | [] => True
  end.

(** The annotations of a run of plain text, and of a run of each
    style: one flag set, the colour ["default"]. *)
Definition plainAnnotations : Annotations :=
  {| bold := false; italic := false; strikethrough := false; underline := false;
     code := false; color := str "default" |}.

Definition markerAnnotations : list (jsstring * Annotations) :=
  [(str "**", {| bold := true; italic := false; strikethrough := false;
                 underline := false; code := false; color := str "default" |});
   (str "_", {| bold := false; italic := true; strikethrough := false;
                underline := false; code := false; color := str "default" |});
   (str "~~", {| bold := false; italic := false; strikethrough := true;
                 underline := false; code := false; color := str "default" |});
   (str "`", {| bold := false; italic := false; strikethrough := false;
                underline := false; code := true; color := str "default" |})].

(** ** The converter, line by line *)

(** A block of the given type whose rich text is the tokenized text. *)
Definition richBlock (type text : jsstring) : NotionBlock :=
  mkBlock type (RichTextPayload (parseInlineStyles text)).

(** The blocks a non-empty trimmed line stands for, whatever comes before
    and after it: one block, or none for an image or link line whose
    pattern does not match.  Each block is written out with its type
    and its content. *)
Definition lineBlocks (line : jsstring) : list NotionBlock :=
  if startsWith line (str "# ") then [richBlock (str "heading_1") (sliceFrom line 2)]
  else if startsWith line (str "## ") then [richBlock (str "heading_2") (sliceFrom line 3)]
  else if startsWith line (str "### ") then [richBlock (str "heading_3") (sliceFrom line 4)]
  else if startsWith line (str "* ") || startsWith line (str "- ") then
    [richBlock (str "bulleted_list_item") (sliceFrom line 2)]
  else if test reNumbered line then
    [richBlock (str "numbered_list_item") (replace line reNumbered [])]
  else if startsWith line (str "`") then
    [mkBlock (str "code")
       (CodePayload [mkRichText (slice line 1 (-1)) plainAnnotations] (str "javascript"))]
  else if startsWith line (str "> ") then [richBlock (str "quote") (sliceFrom line 2)]
  else if isImageLine line then
    match match_ line reParens with
    | Some m => [mkBlock (str "image") (ExternalPayload (nth 1 m []))]
    | None => []
    end
  else if isLinkLine line then
    match match_ line reLink with
    | Some m =>
        [mkBlock (str "bookmark")
           (BookmarkPayload (nth 2 m [])
              (if truthy (nth 1 m []) then parseInlineStyles (nth 1 m []) else []))]
    | None => []
    end
  else [richBlock (str "paragraph") line].

(** The blocks of the items still held in the open list. *)
Definition pending (st : ParseState) : list NotionBlock :=
  if isInList st then
    match listType st with
    | Some key => blockConverters key (currentList st)
    | None => []
    end
  else [].

(** All the blocks a state stands for. *)
Definition emitted (st : ParseState) : list NotionBlock := blocks st ++ pending st.

(** What the loop keeps: an open list has its kind, and items are held
    only while a list is open. *)
Definition settled (st : ParseState) : Prop :=
  (isInList st = true -> listType st <> None) /\
  (isInList st = false -> currentList st = []).

(** ** Lists and the engine *)

(** The kind of list a line is an item of. *)
Definition listKindOf (line : jsstring) : option ListType :=
  if startsWith line (str "* ") || startsWith line (str "- ") then Some bulletList
  else if test reNumbered line then Some numberList
  else None.

(** The list that is open in a state, and the number of items held. *)
Definition openList (st : ParseState) : option ListType :=
  if isInList st then listType st else None.

Definition held (st : ParseState) : nat := List.length (currentList st).

(** The engine accepts a call with [n] arguments. *)
Definition accepted (n : nat) : bool := (N.of_nat n <=? maxArguments)%N.

(** [listsFit open n lines]: with [n] items of the list [open] held
    before [lines], every list has as many items as the engine accepts
    at most.  A list is a run of consecutive lines of one kind of list;
    it ends with the document, with a line of the other kind of list,
    or with a line of no list. *)
Fixpoint listsFit (open : option ListType) (n : nat) (lines : list jsstring) : bool :=
  match lines with
  | [] => accepted n
  | line :: rest =>
      match listKindOf line with
      | Some key =>
          if match open with Some k => ListType_eqb k key | None => false end
          then listsFit (Some key) (S n) rest
          else accepted n && listsFit (Some key) 1 rest
      | None => accepted n && listsFit None 0 rest
      end
  end.

(** A document of [n] lines ["- a"]: one list of [n] items. *)
Fixpoint manyBullets (n : nat) : jsstring :=
  match n with
  | O => []
  | S k => str "- a" ++ nl ++ manyBullets k
  end.

(** The same text with Windows line ends. *)
Fixpoint withCRLF (s : jsstring) : jsstring :=
  match s with
  | [] => []
  | c :: s' => if N.eqb c 10 then 13%N :: 10%N :: withCRLF s' else c :: withCRLF s'
  end.

(** The type tags the converter writes. *)
Definition writtenTypes : list jsstring :=
  [str "heading_1"; str "heading_2"; str "heading_3"; str "bulleted_list_item";
   str "numbered_list_item"; str "code"; str "quote"; str "image"; str "bookmark";
   str "paragraph"].

(** ** Numbered lines and headings *)

Definition isDigit (c : N) : bool := (N.leb 48 c && N.leb c 57)%N.

(** The text of a numbered item: what stands behind the digits that
    open the line, a full stop and one character of white space. *)
Definition numberedText (line : jsstring) : option jsstring :=
  match line with
  | c :: _ =>
      if isDigit c then
        match dropWhile isDigit line with
        | d :: w :: rest => if N.eqb d 46 && isWhiteSpace w then Some rest else None
        | _ => None
        end
      else None
  | [] => None
  end.


(** What the blocks of a document hold: rich text is never empty, and a
    code block holds one run and the default language. *)
Definition wellFilled (b : NotionBlock) : Prop :=
  match payload b with
  | RichTextPayload rich_text => rich_text <> []
  | CodePayload rich_text language =>
      List.length rich_text = 1%nat /\ language = str "javascript"
  | _ => True
  end.

(** * Proofs *)

(** ** The inline tokenizer *)

Lemma scanLoop_eq (text : jsstring) (st : ScanState) :
  scanLoop text st =
  if i st <? length text then scanLoop text (scanStep text st) else st.
Proof.
  funelim (scanLoop text st);
    match goal with E : (_ <? _) = _ |- _ => rewrite E end; reflexivity.
Qed.

Lemma scanLoop_invariant (text : jsstring) (P : ScanState -> Prop) :
  (forall st, P st -> i st < length text -> P (scanStep text st)) ->
  forall st, P st ->
    P (scanLoop text st) /\ length text <= i (scanLoop text st).
Proof.
  intros Hstep st.
  remember (Z.to_nat (length text - i st)) as n eqn:Hn.
  revert st Hn. induction n as [n IH] using lt_wf_ind. intros st Hn HP.
  rewrite scanLoop_eq. destruct (i st <? length text) eqn:E.
  - apply Z.ltb_lt in E. pose proof (scanStep_advances text st) as Hadv.
    apply (IH (Z.to_nat (length text - i (scanStep text st)))); [lia | reflexivity |].
    apply Hstep; assumption.
  - apply Z.ltb_ge in E. split; assumption.
Qed.

Lemma firstn_isPrefix (m l : jsstring) :
  eqb (firstn (List.length m) l) m = isPrefix m l.
Proof.
  revert l. induction m as [|a m IH]; intros l; simpl.
  - apply eqb_refl.
  - destruct l as [|b l]; simpl.
    + destruct (eqb [] (a :: m)) eqn:E; [apply eqb_eq in E; discriminate | reflexivity].
    + rewrite <- IH. destruct (N.eqb a b) eqn:Eab; simpl.
      * apply N.eqb_eq in Eab. subst b.
        destruct (eqb (firstn (List.length m) l) m) eqn:E.
        -- apply eqb_eq in E. apply eqb_eq. congruence.
        -- destruct (eqb (a :: firstn (List.length m) l) (a :: m)) eqn:E'; [|reflexivity].
           apply eqb_eq in E'. injection E' as E'. apply eqb_eq in E'. congruence.
      * destruct (eqb (b :: firstn (List.length m) l) (a :: m)) eqn:E'; [|reflexivity].
        apply eqb_eq in E'. injection E' as -> _. rewrite N.eqb_refl in Eab. discriminate.
Qed.

(** [text.substr(i, n) === m] for a marker [m] of [n] code units reads the
    suffix of the text at the cursor. *)
Lemma substr_isPrefix (text m : jsstring) (k : Z) :
  0 <= k -> m <> [] ->
  eqb (substr text k (length m)) m = isPrefix m (skipn (Z.to_nat k) text).
Proof.
  intros Hk Hm. unfold substr, relIndex.
  destruct (k <? 0) eqn:E; [apply Z.ltb_lt in E; lia|].
  destruct (Z.le_gt_cases k (length text)) as [Hle|Hgt].
  - replace (Z.min k (length text)) with k by lia.
    rewrite <- firstn_isPrefix.
    destruct (Z.le_gt_cases (length m) (length text - k)) as [H1|H1].
    + f_equal. f_equal. unfold length in *. lia.
    + rewrite !firstn_all2; [reflexivity | |];
        rewrite List.length_skipn; unfold length in *; lia.
  - replace (Z.min k (length text)) with (length text) by lia.
    rewrite !skipn_all2 by (unfold length in *; lia).
    rewrite firstn_nil. destruct m; [congruence|]. simpl.
    destruct (eqb [] (n :: m)) eqn:E'; [apply eqb_eq in E'; discriminate | reflexivity].
Qed.

Lemma at_isPrefix (text : jsstring) (k : Z) (c : N) :
  0 <= k -> isChar (at_ text k) c = isPrefix [c] (skipn (Z.to_nat k) text).
Proof.
  intros Hk. unfold at_. destruct (k <? 0) eqn:E; [apply Z.ltb_lt in E; lia|].
  generalize (Z.to_nat k). intros n. revert text.
  induction n as [|n IH]; intros [|b t]; simpl; try reflexivity.
  - rewrite N.eqb_sym. rewrite andb_true_r. reflexivity.
  - apply IH.
Qed.

Lemma indexOf_suffix (text m : jsstring) (k : Z) :
  0 <= k <= length text ->
  indexOf text m k = indexOfFrom m (skipn (Z.to_nat k) text) k.
Proof.
  intros Hk. unfold indexOf, clamp. rewrite Z.max_l, Z.min_l by lia. reflexivity.
Qed.

Lemma cutAt_indexOfFrom (m s : jsstring) (pos : Z) :
  0 <= pos ->
  match cutAt m s with
  | Some (before, _) => indexOfFrom m s pos = pos + length before
  | None => indexOfFrom m s pos = -1
  end.
Proof.
  revert pos. induction s as [|c s IH]; intros pos Hpos; simpl.
  - destruct (isPrefix m []); [unfold length; simpl; lia | reflexivity].
  - destruct (isPrefix m (c :: s)); [unfold length; simpl; lia|].
    specialize (IH (pos + 1) ltac:(lia)).
    destruct (cutAt m s) as [[b a]|]; [|exact IH].
    rewrite IH. unfold length. simpl. lia.
Qed.

Lemma slice_middle (a b c : jsstring) :
  slice (a ++ b ++ c) (length a) (length a + length b) = b.
Proof.
  unfold slice, relIndex.
  pose proof (length_nonneg a). pose proof (length_nonneg b). pose proof (length_nonneg c).
  rewrite !length_app.
  destruct (length a <? 0) eqn:E1; [apply Z.ltb_lt in E1; lia|].
  destruct (length a + length b <? 0) eqn:E2; [apply Z.ltb_lt in E2; lia|].
  replace (Z.min (length a) (length a + (length b + length c))) with (length a) by lia.
  replace (Z.min (length a + length b) (length a + (length b + length c)))
    with (length a + length b) by lia.
  replace (length a + length b - length a) with (length b) by lia.
  unfold length. rewrite !Nat2Z.id.
  rewrite skipn_app, skipn_all, Nat.sub_diag. simpl.
  rewrite firstn_app, firstn_all, Nat.sub_diag. simpl. apply app_nil_r.
Qed.

Lemma skipn_cons_lt {A} (n : nat) (l : list A) (x : A) (r : list A) :
  skipn n l = x :: r -> (n < List.length l)%nat.
Proof.
  intros H. destruct (Nat.lt_ge_cases n (List.length l)) as [Hlt|Hge]; [exact Hlt|].
  rewrite skipn_all2 in H by exact Hge. discriminate.
Qed.

(** A span found on the suffix at the cursor is the span the indices of
    the source select. *)
Lemma delimited_indices (text m inner rest : jsstring) (k : Z) :
  0 <= k -> m <> [] ->
  delimited m (skipn (Z.to_nat k) text) = Some (inner, rest) ->
  let close := indexOf text m (k + length m) in
  isPrefix m (skipn (Z.to_nat k) text) = true /\
  close = k + length m + length inner /\
  slice text (k + length m) close = inner /\
  skipn (Z.to_nat (close + length m)) text = rest.
Proof.
  intros Hk Hm H close.
  pose proof H as Hsplit. apply delimited_split in Hsplit.
  unfold delimited in H.
  destruct (isPrefix m (skipn (Z.to_nat k) text)) eqn:Ep; [|discriminate].
  assert (Hlen : (Z.to_nat k < List.length text)%nat).
  { destruct m as [|c m]; [congruence|]. simpl in Hsplit.
    eapply skipn_cons_lt. exact Hsplit. }
  assert (Htext : text = firstn (Z.to_nat k) text ++ m ++ inner ++ m ++ rest).
  { rewrite <- Hsplit. symmetry. apply firstn_skipn. }
  assert (Hpre : length (firstn (Z.to_nat k) text) = k).
  { unfold length. rewrite List.length_firstn. lia. }
  set (pre := firstn (Z.to_nat k) text) in *.
  assert (Hs1 : skipn (Z.to_nat (k + length m)) text = inner ++ m ++ rest).
  { rewrite Htext. replace (Z.to_nat (k + length m)) with (List.length (pre ++ m)).
    - rewrite app_assoc, skipn_app, skipn_all, Nat.sub_diag. reflexivity.
    - rewrite List.length_app. unfold length in *. lia. }
  assert (Hclose : close = k + length m + length inner).
  { subst close. rewrite indexOf_suffix.
    - pose proof (cutAt_indexOfFrom m (skipn (Z.to_nat (k + length m)) text)
                    (k + length m)) as Hc.
      rewrite Hs1 in Hc. rewrite Hsplit in H.
      rewrite skipn_app, skipn_all, Nat.sub_diag in H. simpl in H.
      rewrite H in Hc. rewrite Hs1. apply Hc. pose proof (length_nonneg m). lia.
    - pose proof (length_nonneg m). split; [lia|].
      pose proof (f_equal length Htext) as HL. rewrite !length_app in HL.
      pose proof (length_nonneg inner). pose proof (length_nonneg rest). lia. }
  split; [reflexivity|]. split; [exact Hclose|]. split.
  - rewrite Hclose. rewrite Htext.
    replace (k + length m) with (length (pre ++ m)) by (rewrite length_app; lia).
    rewrite (app_assoc pre m). apply slice_middle.
  - rewrite Hclose. rewrite Htext.
    replace (Z.to_nat (k + length m + length inner + length m))
      with (List.length (pre ++ m ++ inner ++ m)).
    + replace (pre ++ m ++ inner ++ m ++ rest) with ((pre ++ m ++ inner ++ m) ++ rest)
        by (rewrite <- !app_assoc; reflexivity).
      rewrite skipn_app, skipn_all, Nat.sub_diag. reflexivity.
    + rewrite !List.length_app. unfold length in *. lia.
Qed.

(** No span on the suffix at the cursor: the test of the source fails. *)
Lemma not_delimited_indices (text m : jsstring) (k : Z) :
  0 <= k -> m <> [] ->
  delimited m (skipn (Z.to_nat k) text) = None ->
  isPrefix m (skipn (Z.to_nat k) text)
  && negb (indexOf text m (k + length m) =? -1) = false.
Proof.
  intros Hk Hm H. unfold delimited in H.
  destruct (isPrefix m (skipn (Z.to_nat k) text)) eqn:Ep; [|reflexivity].
  simpl. apply negb_false_iff, Z.eqb_eq.
  pose proof (isPrefix_length _ _ Ep) as HL.
  unfold length in HL. rewrite List.length_skipn in HL.
  assert (0 < List.length m)%nat by (destruct m; [congruence | simpl; lia]).
  rewrite indexOf_suffix by (unfold length in *; lia).
  pose proof (cutAt_indexOfFrom m (skipn (Z.to_nat (k + length m)) text)
                (k + length m)) as Hc.
  rewrite skipn_skipn in H.
  replace (List.length m + Z.to_nat k)%nat with (Z.to_nat (k + length m)) in H
    by (unfold length; lia).
  rewrite H in Hc. apply Hc. unfold length. lia.
Qed.

Lemma stripDelimiters_eq (s : jsstring) :
  stripDelimiters s =
  match s with
  | [] => []
  | c :: s' =>
      match matchedSpan s with
      | Some (inner, rest) => inner ++ stripDelimiters rest
      | None => c :: stripDelimiters s'
      end
  end.
Proof.
  funelim (stripDelimiters s).
  - reflexivity.
  - rewrite Hm. reflexivity.
  - match goal with E : matchedSpan _ = None |- _ => rewrite E end. reflexivity.
Qed.

Lemma dropsMarkers_refl (s : jsstring) : dropsMarkers s s.
Proof. induction s; constructor; assumption. Qed.

Lemma dropsMarkers_app (a a' b b' : jsstring) :
  dropsMarkers a a' -> dropsMarkers b b' -> dropsMarkers (a ++ b) (a' ++ b').
Proof.
  intros Ha Hb. induction Ha; simpl; [exact Hb | |]; constructor; assumption.
Qed.

Lemma dropsMarkers_all (m s t : jsstring) :
  forallb isMarker m = true -> dropsMarkers s t -> dropsMarkers (m ++ s) t.
Proof.
  induction m as [|c m IH]; simpl; intros H Hs; [exact Hs|].
  apply andb_true_iff in H as [Hc Hm]. constructor; [exact Hc | apply IH; assumption].
Qed.

(** Stripping leaves out marker characters only. *)
Lemma stripDelimiters_dropsMarkers (s : jsstring) :
  dropsMarkers s (stripDelimiters s).
Proof.
  remember (List.length s) as n eqn:Hn. revert s Hn.
  induction n as [n IH] using lt_wf_ind. intros s Hn.
  rewrite stripDelimiters_eq. destruct s as [|c s']; [constructor|].
  destruct (matchedSpan (c :: s')) as [[inner rest]|] eqn:E.
  - pose proof (matchedSpan_shorter _ _ _ E) as Hlt.
    apply matchedSpan_marker in E as [m [Hm E]]. apply delimited_split in E.
    rewrite E.
    assert (Hall : forallb isMarker m = true)
      by (simpl in Hm; intuition (subst m; reflexivity)).
    apply dropsMarkers_all; [exact Hall|].
    apply dropsMarkers_app; [apply dropsMarkers_refl|].
    apply dropsMarkers_all; [exact Hall|].
    apply (IH (List.length rest)); [lia | reflexivity].
  - constructor. apply (IH (List.length s')); [subst n; simpl; lia | reflexivity].
Qed.

(** With no span to match anywhere, stripping changes nothing. *)
Lemma stripDelimiters_unmatched (s : jsstring) :
  (forall k, matchedSpan (skipn k s) = None) -> stripDelimiters s = s.
Proof.
  induction s as [|c s IH]; intros H; rewrite stripDelimiters_eq; [reflexivity|].
  pose proof (H 0%nat) as H0. simpl in H0. rewrite H0.
  f_equal. apply IH. intros k. exact (H (S k)).
Qed.

Lemma opens2_delimited (text m : jsstring) (k : Z) :
  0 <= k -> length m = 2 ->
  opens2 text k m = isSome (delimited m (skipn (Z.to_nat k) text)).
Proof.
  intros Hk Hl. assert (Hm : m <> []) by (intros ->; discriminate).
  unfold opens2. rewrite <- Hl. rewrite substr_isPrefix by assumption.
  destruct (delimited m (skipn (Z.to_nat k) text)) as [[inner rest]|] eqn:E.
  - destruct (delimited_indices text m inner rest k Hk Hm E) as [H1 [H2 _]].
    rewrite H1, H2. simpl. apply negb_true_iff, Z.eqb_neq.
    pose proof (length_nonneg inner). lia.
  - apply not_delimited_indices; assumption.
Qed.

Lemma opens1_delimited (text : jsstring) (c : N) (k : Z) :
  0 <= k ->
  opens1 text k c = isSome (delimited [c] (skipn (Z.to_nat k) text)).
Proof.
  intros Hk. assert (Hm : [c] <> []) by discriminate.
  unfold opens1. rewrite at_isPrefix by assumption.
  destruct (delimited [c] (skipn (Z.to_nat k) text)) as [[inner rest]|] eqn:E.
  - destruct (delimited_indices text [c] inner rest k Hk Hm E) as [H1 [H2 _]].
    change (length [c]) with 1 in H2.
    rewrite H1, H2. simpl. apply negb_true_iff, Z.eqb_neq.
    pose proof (length_nonneg inner). lia.
  - apply (not_delimited_indices text [c] k); assumption.
Qed.

(** The state a delimited span leaves behind. *)
Lemma styled_delimited (text m inner rest : jsstring) (st : ScanState) f :
  0 <= i st -> m <> [] ->
  delimited m (skipn (Z.to_nat (i st)) text) = Some (inner, rest) ->
  0 <= i (styled text st m f) /\
  skipn (Z.to_nat (i (styled text st m f))) text = rest /\
  currentText (styled text st m f) = [] /\
  segments (styled text st m f) =
    flushText st ++ [createRichText inner (f (spread currentAnnotations))].
Proof.
  intros Hi Hm H.
  destruct (delimited_indices text m inner rest (i st) Hi Hm H) as [_ [H2 [H3 H4]]].
  unfold styled. simpl. rewrite H3, H4. repeat split.
  rewrite H2. pose proof (length_nonneg m). pose proof (length_nonneg inner). lia.
Qed.

(** A line that opens and closes an underline span also opens and
    closes an italic span: the second underscore closes it. *)
Lemma delimited_underline_italic (s : jsstring) :
  isSome (delimited (str "__") s) = true -> isSome (delimited (str "_") s) = true.
Proof.
  destruct (delimited (str "__") s) as [[inner rest]|] eqn:E; [|discriminate].
  intros _. apply delimited_split in E. subst s. reflexivity.
Qed.

(** The branch of a matched span, with the style it sets. *)
Ltac span_of style :=
  exists style; split;
  [ simpl; tauto
  | apply styled_delimited; [assumption | discriminate | assumption] ].

(** One turn of the loop, read on the suffix of the text at the cursor:
    either a span is matched and becomes a run, or one character joins
    the pending text. *)
Lemma scanStep_view (text : jsstring) (st : ScanState) :
  0 <= i st < length text ->
  match matchedSpan (skipn (Z.to_nat (i st)) text) with
  | Some (inner, rest) =>
      exists f,
        In f [withBold; withItalic; withStrikethrough; withCode] /\
        0 <= i (scanStep text st) /\
        skipn (Z.to_nat (i (scanStep text st))) text = rest /\
        currentText (scanStep text st) = [] /\
        segments (scanStep text st) =
          flushText st ++ [createRichText inner (f (spread currentAnnotations))]
  | None =>
      exists c s',
        skipn (Z.to_nat (i st)) text = c :: s' /\
        scanStep text st = mkScan (i st + 1) (currentText st ++ [c]) (segments st)
  end.
Proof.
  intros [Hi Hlt]. unfold scanStep, matchedSpan, orTry.
  rewrite !opens2_delimited, !opens1_delimited by (assumption || reflexivity).
  change [95%N] with (str "_"). change [96%N] with (str "`").
  destruct (delimited (str "**") _) as [[inner rest]|] eqn:E1; simpl.
  { span_of withBold. }
  destruct (delimited (str "_") _) as [[inner rest]|] eqn:E2; simpl.
  { span_of withItalic. }
  destruct (delimited (str "__") _) as [[inner rest]|] eqn:E3; simpl.
  { pose proof (delimited_underline_italic (skipn (Z.to_nat (i st)) text)) as Hu.
    rewrite E2, E3 in Hu. discriminate Hu. reflexivity. }
  destruct (delimited (str "~~") _) as [[inner rest]|] eqn:E4; simpl.
  { span_of withStrikethrough. }
  destruct (delimited (str "`") _) as [[inner rest]|] eqn:E5; simpl.
  { span_of withCode. }
  destruct (skipn (Z.to_nat (i st)) text) as [|c s'] eqn:Es.
  - exfalso. assert (List.length (skipn (Z.to_nat (i st)) text) = 0%nat) by (rewrite Es; reflexivity).
    rewrite List.length_skipn in H. unfold length in Hlt. lia.
  - exists c, s'. split; [reflexivity|]. f_equal. f_equal.
    pose proof (at_isPrefix text (i st) c Hi) as Hc. rewrite Es in Hc. simpl in Hc.
    rewrite N.eqb_refl in Hc. simpl in Hc.
    destruct (at_ text (i st)) as [d|]; simpl in Hc; [|discriminate].
    apply N.eqb_eq in Hc. subst d. reflexivity.
Qed.

Lemma concatText_app (a b : list RichText) :
  concatText (a ++ b) = concatText a ++ concatText b.
Proof. unfold concatText. apply flat_map_app. Qed.

Lemma concatText_flushText (st : ScanState) :
  concatText (flushText st) = concatText (segments st) ++ currentText st.
Proof.
  unfold flushText. destruct (currentText st) as [|c r]; simpl.
  - rewrite app_nil_r. reflexivity.
  - rewrite concatText_app. simpl. rewrite app_nil_r. reflexivity.
Qed.

Lemma parseInlineStyles_stripDelimiters (line : jsstring) :
  concatText (parseInlineStyles line) = stripDelimiters line.
Proof.
  unfold parseInlineStyles.
  set (P := fun st : ScanState =>
    0 <= i st /\
    concatText (segments st) ++ currentText st
      ++ stripDelimiters (skipn (Z.to_nat (i st)) line) = stripDelimiters line).
  destruct (scanLoop_invariant line P) with (st := mkScan 0 [] []) as [[Hi HP] Hend].
  - intros st [Hi HP] Hlt. pose proof (scanStep_view line st (conj Hi Hlt)) as Hv.
    rewrite (stripDelimiters_eq (skipn (Z.to_nat (i st)) line)) in HP.
    destruct (matchedSpan (skipn (Z.to_nat (i st)) line)) as [[inner rest]|].
    + destruct Hv as [f [_ [H0 [Hr [Hc Hs]]]]].
      destruct (skipn (Z.to_nat (i st)) line) as [|c s'] eqn:Es.
      { exfalso. apply (f_equal (@List.length N)) in Es. rewrite List.length_skipn in Es.
        unfold length in Hlt. simpl in Es. lia. }
      unfold P. split; [exact H0|]. rewrite Hr, Hc, Hs, concatText_app, concatText_flushText.
      simpl. rewrite <- HP. rewrite app_nil_r, <- !app_assoc. reflexivity.
    + destruct Hv as [c [s' [Es ->]]]. rewrite Es in HP. unfold P. simpl. split; [lia|].
      replace (Z.to_nat (i st + 1)) with (1 + Z.to_nat (i st))%nat by lia.
      rewrite <- skipn_skipn, Es. simpl. rewrite <- HP, <- !app_assoc. reflexivity.
  - unfold P. split; [simpl; lia | reflexivity].
  - rewrite concatText_flushText. rewrite <- HP.
    rewrite skipn_all2 by (unfold length in Hend; lia).
    rewrite stripDelimiters_eq, app_nil_r. reflexivity.
Qed.

(** C1. For every line, the texts of the runs of [parseInlineStyles],
    concatenated in order with the styling ignored, are the line with
    exactly the matched delimiter characters removed: the concatenation
    is [stripDelimiters line], which leaves out characters of the
    markers only; and where no marker has its closing marker, the
    concatenation is the whole line. *)
Theorem parseInlineStyles_text (line : jsstring) :
  concatText (parseInlineStyles line) = stripDelimiters line /\
  dropsMarkers line (concatText (parseInlineStyles line)) /\
  ((forall k, matchedSpan (skipn k line) = None) ->
   concatText (parseInlineStyles line) = line).
Proof.
  rewrite parseInlineStyles_stripDelimiters. split; [reflexivity|]. split.
  - apply stripDelimiters_dropsMarkers.
  - apply stripDelimiters_unmatched.
Qed.

(** Markers that are matched go, markers that are not stay. *)
Example stripDelimiters_examples :
  stripDelimiters (str "a **b** _c_ ~~d~~ `e`") = str "a b c d e" /\
  stripDelimiters (str "2 * 3 ** 4 ~ 5") = str "2 * 3 ** 4 ~ 5" /\
  stripDelimiters (str "**open") = str "**open" /\
  stripDelimiters (str "__u__") = str "u".
Proof. repeat split. Qed.

(** The two examples of the specification: a bold word, a plain word. *)
Example parseInlineStyles_examples :
  parseInlineStyles (str "**bold**")
  = [createRichText (str "bold") (withBold (spread currentAnnotations))] /\
  parseInlineStyles (str "plain")
  = [createRichText (str "plain") (spread currentAnnotations)].
Proof. split; reflexivity. Qed.

(** What every run of the tokenizer looks like: plain text, or the text
    of one span with the one flag of its style. *)
Lemma parseInlineStyles_runs (Q : RichText -> Prop) :
  (forall c, Q (createRichText c (spread currentAnnotations))) ->
  (forall c f, In f [withBold; withItalic; withStrikethrough; withCode] ->
               Q (createRichText c (f (spread currentAnnotations)))) ->
  forall text, Forall Q (parseInlineStyles text).
Proof.
  intros Hplain Hstyled text. unfold parseInlineStyles.
  assert (Hflush : forall st, Forall Q (segments st) -> Forall Q (flushText st)).
  { intros st H. unfold flushText. destruct (truthy (currentText st)); [|exact H].
    apply Forall_app. split; [exact H | constructor; [apply Hplain | constructor]]. }
  set (P := fun st : ScanState => 0 <= i st /\ Forall Q (segments st)).
  destruct (scanLoop_invariant text P) with (st := mkScan 0 [] []) as [[_ HP] _].
  - intros st [Hi HP] Hlt. pose proof (scanStep_view text st (conj Hi Hlt)) as Hv.
    destruct (matchedSpan (skipn (Z.to_nat (i st)) text)) as [[inner rest]|].
    + destruct Hv as [f [Hf [H0 [_ [_ Hs]]]]]. unfold P. split; [exact H0|].
      rewrite Hs. apply Forall_app. split; [apply Hflush; exact HP|].
      constructor; [apply Hstyled; exact Hf | constructor].
    + destruct Hv as [c [s' [_ ->]]]. unfold P. simpl. split; [lia | exact HP].
  - unfold P. simpl. split; [lia | constructor].
  - apply Hflush. exact HP.
Qed.

(** C2. Every run of [parseInlineStyles] has at most one of the five
    style flags set, and its colour is ["default"]. *)
Theorem parseInlineStyles_one_style (line : jsstring) :
  Forall (fun r => (styleCount r <= 1)%nat /\ color (annotations r) = str "default")
         (parseInlineStyles line).
Proof.
  apply parseInlineStyles_runs.
  - intros c. split; [cbv; lia | reflexivity].
  - intros c f Hf. simpl in Hf.
    destruct Hf as [<-|[<-|[<-|[<-|[]]]]]; (split; [cbv; lia | reflexivity]).
Qed.

(** C9. No run of [parseInlineStyles] is underlined: when the cursor
    stands on ["__"] with a closing ["__"] later, the italic test, made
    first, holds too. *)
Theorem underline_unreachable :
  (forall text, Forall (fun r => underline (annotations r) = false)
                       (parseInlineStyles text)) /\
  (forall text k, 0 <= k ->
     opens2 text k (str "__") = true -> opens1 text k 95 = true).
Proof.
  split.
  - apply parseInlineStyles_runs.
    + intros c. reflexivity.
    + intros c f Hf. simpl in Hf. destruct Hf as [<-|[<-|[<-|[<-|[]]]]]; reflexivity.
  - intros text k Hk. rewrite opens2_delimited, opens1_delimited by (assumption || reflexivity).
    apply delimited_underline_italic.
Qed.

(** C8, as the code has it. [parseInlineStyles] returns no run at all
    exactly for the empty string: a non-empty input gives a non-empty
    sequence, the empty input gives the empty sequence. *)
Theorem parseInlineStyles_empty_iff (text : jsstring) :
  parseInlineStyles text = [] <-> text = [].
Proof.
  split.
  - intros H. destruct text as [|c t]; [reflexivity|]. exfalso.
    unfold parseInlineStyles in H.
    assert (Hlen : 0 < length (c :: t)) by (unfold length; simpl List.length; lia).
    revert H Hlen. generalize (c :: t). clear c t. intros text H Hlen.
    set (P := fun st : ScanState =>
      0 <= i st /\ (0 < i st -> segments st <> [] \/ currentText st <> [])).
    destruct (scanLoop_invariant text P) with (st := mkScan 0 [] []) as [[_ HP] Hend].
    + intros st [Hi HP] Hlt. pose proof (scanStep_view text st (conj Hi Hlt)) as Hv.
      destruct (matchedSpan (skipn (Z.to_nat (i st)) text)) as [[inner rest]|].
      * destruct Hv as [f [_ [H0 [_ [_ Hs]]]]]. unfold P. split; [exact H0|].
        intros _. left. rewrite Hs. intros E. apply app_eq_nil in E as [_ E]. discriminate.
      * destruct Hv as [d [s' [_ ->]]]. unfold P. simpl. split; [lia|].
        intros _. right. intros E. apply app_eq_nil in E as [_ E]. discriminate.
    + unfold P. simpl. split; lia.
    + unfold flushText in H.
      assert (Hpos : 0 < i (scanLoop text (mkScan 0 [] []))).
      { lia. }
      destruct (HP Hpos) as [Hs|Hc].
      * destruct (truthy _); [apply app_eq_nil in H as [_ H]; discriminate | contradiction].
      * destruct (currentText _); [contradiction|]. simpl in H.
        apply app_eq_nil in H as [_ H]. discriminate.
  - intros ->. reflexivity.
Qed.

(** C8, as the specification has it, fails on the empty string: the
    tokenizer returns no run there, not one run with empty text. *)
Lemma parseInlineStyles_empty_no_run :
  ~ (exists r, parseInlineStyles (str "") = [r] /\ content r = []).
Proof. intros [r [H _]]. discriminate H. Qed.

(** ** White space and lines *)

Lemma dropWhile_blank (w s : jsstring) :
  blank w = true -> dropWhile isWhiteSpace (w ++ s) = dropWhile isWhiteSpace s.
Proof.
  induction w as [|c w IH]; simpl; [reflexivity|].
  intros H. apply andb_true_iff in H as [Hc Hw]. rewrite Hc. apply IH. exact Hw.
Qed.

Lemma dropWhile_all (w : jsstring) :
  blank w = true -> dropWhile isWhiteSpace w = [].
Proof.
  intros H. rewrite <- (app_nil_r w). rewrite dropWhile_blank by exact H. reflexivity.
Qed.

Lemma dropWhile_app_keep (s t : jsstring) :
  dropWhile isWhiteSpace s <> [] ->
  dropWhile isWhiteSpace (s ++ t) = dropWhile isWhiteSpace s ++ t.
Proof.
  induction s as [|c s IH]; simpl; [congruence|].
  destruct (isWhiteSpace c); [exact IH | reflexivity].
Qed.

Lemma blank_rev (w : jsstring) : blank (rev w) = blank w.
Proof.
  unfold blank. induction w as [|c w IH]; simpl; [reflexivity|].
  rewrite forallb_app, IH. simpl. rewrite andb_true_r. apply andb_comm.
Qed.

Lemma blank_app (a b : jsstring) : blank (a ++ b) = blank a && blank b.
Proof. apply forallb_app. Qed.

Lemma trim_blank_l (w s : jsstring) : blank w = true -> trim (w ++ s) = trim s.
Proof.
  intros H. unfold trim, trimStart. rewrite dropWhile_blank by exact H. reflexivity.
Qed.

Lemma trimEnd_blank_r (s w : jsstring) : blank w = true -> trimEnd (s ++ w) = trimEnd s.
Proof.
  intros H. unfold trimEnd. rewrite rev_app_distr, dropWhile_blank; [reflexivity|].
  rewrite blank_rev. exact H.
Qed.

Lemma dropWhile_blank_iff (s : jsstring) :
  dropWhile isWhiteSpace s = [] <-> blank s = true.
Proof.
  induction s as [|c s IH]; simpl; [tauto|].
  destruct (isWhiteSpace c); simpl; [exact IH | split; discriminate].
Qed.

Lemma trim_blank_r (s w : jsstring) : blank w = true -> trim (s ++ w) = trim s.
Proof.
  intros H. unfold trim, trimStart.
  destruct (dropWhile isWhiteSpace s) as [|c r] eqn:E.
  - apply dropWhile_blank_iff in E.
    rewrite dropWhile_all; [reflexivity|]. rewrite blank_app, E, H. reflexivity.
  - rewrite dropWhile_app_keep by congruence. rewrite E. apply trimEnd_blank_r. exact H.
Qed.

Lemma dropWhile_split (s : jsstring) :
  exists w, blank w = true /\ s = w ++ dropWhile isWhiteSpace s.
Proof.
  induction s as [|c s [w [Hw IH]]]; simpl.
  - exists []. split; reflexivity.
  - destruct (isWhiteSpace c) eqn:E.
    + exists (c :: w). simpl. rewrite E, Hw. split; [reflexivity | f_equal; exact IH].
    + exists []. split; reflexivity.
Qed.

Lemma trim_split (s : jsstring) :
  exists w1 w2, blank w1 = true /\ blank w2 = true /\ s = w1 ++ trim s ++ w2.
Proof.
  destruct (dropWhile_split s) as [w1 [H1 E1]].
  destruct (dropWhile_split (rev (dropWhile isWhiteSpace s))) as [w2 [H2 E2]].
  exists w1, (rev w2). rewrite blank_rev. split; [exact H1 | split; [exact H2|]].
  unfold trim, trimEnd, trimStart. rewrite <- rev_app_distr, <- E2, rev_involutive.
  exact E1.
Qed.

Lemma trim_idempotent (s : jsstring) : trim (trim s) = trim s.
Proof.
  destruct (trim_split s) as [w1 [w2 [H1 [H2 E]]]].
  rewrite E at 2. rewrite trim_blank_l by exact H1. rewrite trim_blank_r by exact H2.
  reflexivity.
Qed.

Lemma splitLines_nonempty (s : jsstring) : splitLines s <> [].
Proof.
  destruct s as [|c s]; simpl; [discriminate|].
  destruct (N.eqb c 10); [discriminate|]. destruct (splitLines s); discriminate.
Qed.

Lemma splitLines_cons (c : N) (s : jsstring) :
  N.eqb c 10 = false ->
  exists l ls, splitLines s = l :: ls /\ splitLines (c :: s) = (c :: l) :: ls.
Proof.
  intros H. simpl. rewrite H. destruct (splitLines s) as [|l ls] eqn:E.
  - exfalso. exact (splitLines_nonempty s E).
  - exists l, ls. split; reflexivity.
Qed.

Lemma splitLines_app_nl (a b : jsstring) :
  splitLines (a ++ 10%N :: b) = splitLines a ++ splitLines b.
Proof.
  induction a as [|c a IH]; simpl; [reflexivity|].
  destruct (N.eqb c 10); [rewrite IH; reflexivity|].
  rewrite IH. destruct (splitLines a) as [|l ls] eqn:E.
  - exfalso. exact (splitLines_nonempty a E).
  - reflexivity.
Qed.

Lemma splitLines_noNewline (s : jsstring) :
  noNewline s = true -> splitLines s = [s].
Proof.
  induction s as [|c s IH]; simpl; [reflexivity|].
  intros H. apply andb_true_iff in H as [Hc Hs]. apply negb_true_iff in Hc.
  rewrite Hc, (IH Hs). reflexivity.
Qed.

(** A text is one line, or ends with a line behind its last newline. *)
Lemma last_line (s : jsstring) :
  noNewline s = true \/
  exists a b, s = a ++ 10%N :: b /\ noNewline b = true.
Proof.
  induction s as [|c s [IH|[a [b [-> Hb]]]]].
  - left. reflexivity.
  - destruct (N.eqb c 10) eqn:E.
    + right. apply N.eqb_eq in E. subst c. exists [], s. split; [reflexivity | exact IH].
    + left. simpl. rewrite E, IH. reflexivity.
  - right. exists (c :: a), b. split; [reflexivity | exact Hb].
Qed.

Lemma sourceLines_nil : sourceLines [] = [].
Proof. reflexivity. Qed.

Lemma sourceLines_app_nl (a b : jsstring) :
  sourceLines (a ++ 10%N :: b) = sourceLines a ++ sourceLines b.
Proof.
  unfold sourceLines. rewrite splitLines_app_nl, map_app, filter_app. reflexivity.
Qed.

Lemma sourceLines_noNewline (s : jsstring) :
  noNewline s = true -> sourceLines s = filter truthy [trim s].
Proof. intros H. unfold sourceLines. rewrite splitLines_noNewline by exact H. reflexivity. Qed.

(** White space in front of a text, or behind it, adds no line. *)
Lemma sourceLines_cons_blank (c : N) (s : jsstring) :
  isWhiteSpace c = true -> sourceLines (c :: s) = sourceLines s.
Proof.
  intros Hc. destruct (N.eqb c 10) eqn:E.
  - apply N.eqb_eq in E. subst c. apply (sourceLines_app_nl [] s).
  - destruct (splitLines_cons c s E) as [l [ls [H1 H2]]].
    unfold sourceLines. rewrite H1, H2. simpl map.
    change (c :: l) with ([c] ++ l).
    rewrite (trim_blank_l [c] l); [reflexivity|]. simpl. rewrite Hc. reflexivity.
Qed.

Lemma sourceLines_blank_l (w s : jsstring) :
  blank w = true -> sourceLines (w ++ s) = sourceLines s.
Proof.
  induction w as [|c w IH]; simpl; [reflexivity|].
  intros H. apply andb_true_iff in H as [Hc Hw].
  rewrite sourceLines_cons_blank by exact Hc. apply IH. exact Hw.
Qed.

Lemma sourceLines_blank (w : jsstring) : blank w = true -> sourceLines w = [].
Proof.
  intros H. rewrite <- (app_nil_r w). rewrite sourceLines_blank_l by exact H. reflexivity.
Qed.

Lemma noNewline_app (a b : jsstring) :
  noNewline (a ++ b) = noNewline a && noNewline b.
Proof. apply forallb_app. Qed.

Lemma sourceLines_snoc_blank (s : jsstring) (c : N) :
  isWhiteSpace c = true -> sourceLines (s ++ [c]) = sourceLines s.
Proof.
  intros Hc. destruct (N.eqb c 10) eqn:E.
  - apply N.eqb_eq in E. subst c. rewrite sourceLines_app_nl, sourceLines_nil.
    apply app_nil_r.
  - assert (Hone : forall b, noNewline b = true -> sourceLines (b ++ [c]) = sourceLines b).
    { intros b Hb. rewrite !sourceLines_noNewline.
      - rewrite (trim_blank_r b [c]); [reflexivity|]. simpl. rewrite Hc. reflexivity.
      - exact Hb.
      - rewrite noNewline_app, Hb. simpl. rewrite E. reflexivity. }
    destruct (last_line s) as [H|[a [b [-> Hb]]]].
    + apply Hone. exact H.
    + rewrite <- app_assoc. simpl. rewrite !sourceLines_app_nl. f_equal.
      apply Hone. exact Hb.
Qed.

Lemma sourceLines_blank_r (s w : jsstring) :
  blank w = true -> sourceLines (s ++ w) = sourceLines s.
Proof.
  revert s. induction w as [|c w IH]; intros s; simpl.
  - intros _. rewrite app_nil_r. reflexivity.
  - intros H. apply andb_true_iff in H as [Hc Hw].
    change (c :: w) with ([c] ++ w). rewrite app_assoc, IH by exact Hw.
    apply sourceLines_snoc_blank. exact Hc.
Qed.

Lemma sourceLines_trim (s : jsstring) : sourceLines (trim s) = sourceLines s.
Proof.
  destruct (trim_split s) as [w1 [w2 [H1 [H2 E]]]].
  rewrite E at 2. rewrite sourceLines_blank_l by exact H1.
  rewrite sourceLines_blank_r by exact H2. reflexivity.
Qed.

(** *** Global replacement *)

Lemma replaceFrom_skip (r : regex) (by_ s : jsstring) (pos k : nat) :
  (k <= List.length s)%nat ->
  replaceFrom r by_ s pos k = replaceFrom r by_ (skipn k s) (pos + k) 0.
Proof.
  revert s pos. induction k as [|k IH]; intros s pos Hk.
  - rewrite Nat.add_0_r. reflexivity.
  - destruct s as [|c s]; simpl in *; [lia|].
    rewrite IH by lia. f_equal. lia.
Qed.

Section ReplaceByNewline.

Variable r : regex.

(** Every match of [r] is a non-empty text that, wherever it stands,
    separates lines as a single newline does. *)
Hypothesis r_sound :
  forall s pos cs e, run r s pos noCaptures = Some (cs, e) ->
    exists m rest, s = m ++ rest /\ e = (pos + List.length m)%nat /\ m <> [] /\
      forall pre rest', sourceLines (pre ++ m ++ rest') = sourceLines (pre ++ 10%N :: rest').

Lemma sourceLines_replaceFrom (n : nat) :
  forall s pos pre, (List.length s <= n)%nat ->
    sourceLines (pre ++ replaceFrom r [10%N] s pos 0) = sourceLines (pre ++ s).
Proof.
  induction n as [|n IH]; intros s pos pre Hn.
  - destruct s; [|simpl in Hn; lia]. simpl.
    destruct (run r [] pos noCaptures) as [[cs e]|] eqn:E; [|reflexivity].
    apply r_sound in E as [m [rest [Hs [_ [Hm _]]]]].
    destruct m; [congruence | discriminate].
  - destruct s as [|c s]; [apply (IH [] pos pre); simpl; lia|].
    simpl in Hn. simpl replaceFrom.
    destruct (run r (c :: s) pos noCaptures) as [[cs e]|] eqn:E.
    + apply r_sound in E as [m [rest [Hs [He [Hm Hctx]]]]].
      destruct m as [|d m]; [congruence|]. simpl in Hs. injection Hs as <- Hs.
      simpl in He. replace (e =? pos)%nat with false by (symmetry; apply Nat.eqb_neq; lia).
      replace (e - pos - 1)%nat with (List.length m) by lia.
      rewrite replaceFrom_skip by (rewrite Hs, List.length_app; lia).
      rewrite Hs, skipn_app, skipn_all, Nat.sub_diag. simpl skipn.
      simpl app.
      change (pre ++ c :: m ++ rest) with (pre ++ (c :: m) ++ rest).
      rewrite (Hctx pre rest).
      match goal with
      | |- sourceLines (pre ++ 10%N :: ?X) = _ =>
          replace (pre ++ 10%N :: X) with ((pre ++ [10%N]) ++ X)
            by (rewrite <- app_assoc; reflexivity)
      end.
      rewrite IH by (rewrite Hs, List.length_app in Hn; lia).
      rewrite <- app_assoc. reflexivity.
    + match goal with
      | |- sourceLines (pre ++ c :: ?X) = _ =>
          replace (pre ++ c :: X) with ((pre ++ [c]) ++ X)
            by (rewrite <- app_assoc; reflexivity)
      end.
      rewrite IH by lia. rewrite <- app_assoc. reflexivity.
Qed.

Lemma sourceLines_replaceAll (s : jsstring) :
  sourceLines (replaceAll s r [10%N]) = sourceLines s.
Proof.
  unfold replaceAll. apply (sourceLines_replaceFrom (List.length s) s 0%nat []).
  apply Nat.le_refl.
Qed.

End ReplaceByNewline.

Lemma reCRLF_sound (s : jsstring) (pos : nat) (cs : captures) (e : nat) :
  run reCRLF s pos noCaptures = Some (cs, e) ->
  exists m rest, s = m ++ rest /\ e = (pos + List.length m)%nat /\ m <> [] /\
    forall pre rest', sourceLines (pre ++ m ++ rest') = sourceLines (pre ++ 10%N :: rest').
Proof.
  destruct s as [|c [|d s]]; simpl.
  - discriminate.
  - destruct (N.eqb c 13); discriminate.
  - destruct (N.eqb c 13) eqn:Ec; [|discriminate].
    destruct (N.eqb d 10) eqn:Ed; [|discriminate].
    apply N.eqb_eq in Ec, Ed. subst c d. intros H. injection H as _ <-.
    exists [13%N; 10%N], s. repeat split; [simpl; lia | discriminate |].
    intros pre rest'. simpl.
    change (pre ++ 13%N :: 10%N :: rest') with (pre ++ [13%N] ++ 10%N :: rest').
    rewrite app_assoc, !sourceLines_app_nl. f_equal.
    apply sourceLines_snoc_blank. reflexivity.
Qed.

(** How the repetitions unfold on an input. *)
Lemma run_Star_cons (x : charset) (r : regex) (c : N) (s : jsstring) pos cs :
  run (Star x :: r) (c :: s) pos cs =
  match (if accepts x c then run (Star x :: r) s (S pos) (consume c cs) else None) with
  | Some m => Some m
  | None => run r (c :: s) pos cs
  end.
Proof. reflexivity. Qed.

Lemma run_Star_nil (x : charset) (r : regex) pos cs :
  run (Star x :: r) [] pos cs = run r [] pos cs.
Proof. reflexivity. Qed.

Lemma run_LazyStar_cons (x : charset) (r : regex) (c : N) (s : jsstring) pos cs :
  run (LazyStar x :: r) (c :: s) pos cs =
  match run r (c :: s) pos cs with
  | Some m => Some m
  | None => if accepts x c then run (LazyStar x :: r) s (S pos) (consume c cs) else None
  end.
Proof. reflexivity. Qed.

Lemma run_LazyStar_nil (x : charset) (r : regex) pos cs :
  run (LazyStar x :: r) [] pos cs = run r [] pos cs.
Proof. simpl. destruct (run r [] pos cs); reflexivity. Qed.

Lemma run_Plus (x : charset) (r : regex) (s : jsstring) pos cs :
  run (Plus x :: r) s pos cs = run (One x :: Star x :: r) s pos cs.
Proof. destruct s; reflexivity. Qed.

Lemma run_One_cons (x : charset) (r : regex) (c : N) (s : jsstring) pos cs :
  run (One x :: r) (c :: s) pos cs =
  if accepts x c then run r s (S pos) (consume c cs) else None.
Proof. reflexivity. Qed.

(** The greedy [\s*] followed by [\n]: what it matched is white space
    and a newline. *)
Lemma spaces_newline (s : jsstring) (pos : nat) (cs cs' : captures) (e : nat) :
  run [Star Space; One (Lit 10)] s pos cs = Some (cs', e) ->
  exists w rest, s = w ++ 10%N :: rest /\ blank w = true /\
                 e = (pos + List.length w + 1)%nat.
Proof.
  revert pos cs cs' e. induction s as [|c s IH]; intros pos cs cs' e.
  - rewrite run_Star_nil. discriminate.
  - rewrite run_Star_cons. unfold accepts at 1.
    destruct (isWhiteSpace c) eqn:Ec.
    + destruct (run [Star Space; One (Lit 10)] s (S pos) (consume c cs)) as [[cs1 e1]|] eqn:E.
      * intros H. injection H as _ <-.
        apply IH in E as [w [rest [-> [Hw ->]]]].
        exists (c :: w), rest. simpl. rewrite Ec, Hw. repeat split. lia.
      * rewrite run_One_cons. unfold accepts.
        destruct (N.eqb c 10) eqn:E10; [|discriminate].
        apply N.eqb_eq in E10. subst c. intros H. injection H as _ <-.
        exists [], s. repeat split. simpl. lia.
    + rewrite run_One_cons. unfold accepts.
      destruct (N.eqb c 10) eqn:E10; [|discriminate].
      apply N.eqb_eq in E10. subst c. discriminate Ec.
Qed.

Lemma reBlankLines_sound (s : jsstring) (pos : nat) (cs : captures) (e : nat) :
  run reBlankLines s pos noCaptures = Some (cs, e) ->
  exists m rest, s = m ++ rest /\ e = (pos + List.length m)%nat /\ m <> [] /\
    forall pre rest', sourceLines (pre ++ m ++ rest') = sourceLines (pre ++ 10%N :: rest').
Proof.
  destruct s as [|c s]; [discriminate|].
  unfold reBlankLines. rewrite run_One_cons. unfold accepts.
  destruct (N.eqb c 10) eqn:Ec; [|discriminate].
  apply N.eqb_eq in Ec. subst c. intros H.
  apply spaces_newline in H as [w [rest [-> [Hw ->]]]].
  exists (10%N :: w ++ [10%N]), rest. repeat split.
  - simpl. rewrite <- app_assoc. reflexivity.
  - simpl. rewrite List.length_app. simpl. lia.
  - discriminate.
  - intros pre rest'. simpl. rewrite <- app_assoc. simpl.
    rewrite !sourceLines_app_nl. f_equal.
    rewrite sourceLines_blank by exact Hw. reflexivity.
Qed.

(** The lines the loop of [parseMarkdown] sees are the lines of the
    document: cleaning removes white space and empty lines only. *)
Lemma sourceLines_cleanMarkdown (markdown : jsstring) :
  sourceLines (cleanMarkdown markdown) = sourceLines markdown.
Proof.
  unfold cleanMarkdown.
  rewrite sourceLines_trim.
  rewrite (sourceLines_replaceAll reBlankLines reBlankLines_sound).
  apply (sourceLines_replaceAll reCRLF reCRLF_sound).
Qed.

(** ** The loop over the lines *)

Lemma processLine_trim (st : ParseState) (line : jsstring) :
  processLine st (trim line) = processLine st line.
Proof. unfold processLine. rewrite trim_idempotent. reflexivity. Qed.

Lemma processLine_empty (st : ParseState) (line : jsstring) :
  truthy (trim line) = false -> processLine st line = Normal st.
Proof. intros H. unfold processLine. rewrite H. reflexivity. Qed.

(** The loop sees only the non-empty trimmed lines. *)
Lemma forOf_processLine_trimmed (lines : list jsstring) (st : ParseState) :
  forOf processLine lines st = forOf processLine (filter truthy (map trim lines)) st.
Proof.
  revert st. induction lines as [|l lines IH]; intros st; simpl; [reflexivity|].
  destruct (truthy (trim l)) eqn:E; simpl.
  - rewrite processLine_trim. destruct (processLine st l); simpl; [apply IH | reflexivity].
  - rewrite processLine_empty by exact E. simpl. apply IH.
Qed.

Lemma parseLines_trimmed (lines : list jsstring) :
  parseLines lines = parseLines (filter truthy (map trim lines)).
Proof. unfold parseLines. rewrite forOf_processLine_trimmed. reflexivity. Qed.

(** [parseMarkdown] is the assembly of the non-empty trimmed lines of the
    document. *)
Lemma parseMarkdown_sourceLines (markdown : jsstring) :
  parseMarkdown markdown = parseLines (sourceLines markdown).
Proof.
  unfold parseMarkdown. rewrite parseLines_trimmed.
  change (filter truthy (map trim (splitLines (cleanMarkdown markdown))))
    with (sourceLines (cleanMarkdown markdown)).
  rewrite sourceLines_cleanMarkdown. reflexivity.
Qed.

(** Every source line is trimmed and not empty. *)
Lemma sourceLines_trimmed (markdown line : jsstring) :
  In line (sourceLines markdown) -> trim line = line /\ truthy line = true.
Proof.
  unfold sourceLines. intros H. apply filter_In in H as [H Ht].
  apply in_map_iff in H as [l [<- _]]. split; [apply trim_idempotent | exact Ht].
Qed.

Lemma processLine_plain (st : ParseState) (line : jsstring) :
  truthy (trim line) = true -> isPlainLine (trim line) = true ->
  processLine st line =
  (st' <- closeList st ;; Normal (push st' (createParagraph (trim line)))).
Proof.
  intros Ht Hp. unfold isPlainLine in Hp.
  repeat (apply andb_true_iff in Hp as [Hp ?]).
  repeat match goal with H : negb _ = true |- _ => apply negb_true_iff in H end.
  unfold processLine. rewrite Ht. simpl negb. cbv iota.
  repeat match goal with H : _ = false |- _ => rewrite H; clear H end.
  reflexivity.
Qed.

Lemma forOf_plain (lines : list jsstring) (st : ParseState) :
  isInList st = false ->
  Forall (fun l => truthy (trim l) = true /\ isPlainLine (trim l) = true) lines ->
  forOf processLine lines st =
  Normal (mkParse (blocks st ++ map (fun l => createParagraph (trim l)) lines)
                  (currentList st) false (listType st)).
Proof.
  revert st. induction lines as [|l lines IH]; intros st Hst H.
  - simpl. rewrite app_nil_r. destruct st; simpl in *; subst; reflexivity.
  - inversion H as [|? ? [Ht Hp] Hrest]; subst. simpl forOf.
    rewrite processLine_plain by assumption. unfold closeList. rewrite Hst. simpl bind.
    rewrite IH by (try reflexivity; assumption). simpl. rewrite <- app_assoc. reflexivity.
Qed.

(** C3. When every non-empty trimmed line of the document fails every
    rule before the paragraph rule, [parseMarkdown] returns one block
    for each of these lines, in the order of the document: its type is
    ["paragraph"] and its rich text is the tokenized line. *)
Theorem parseMarkdown_plain_lines (markdown : jsstring) :
  forallb isPlainLine (sourceLines markdown) = true ->
  parseMarkdown markdown =
  Normal (map (fun line =>
                 mkBlock (str "paragraph") (RichTextPayload (parseInlineStyles line)))
              (sourceLines markdown)).
Proof.
  intros H. rewrite parseMarkdown_sourceLines. unfold parseLines.
  rewrite forOf_plain; [| reflexivity |].
  - unfold finish. simpl. f_equal. apply map_ext_in. intros l Hl.
    apply sourceLines_trimmed in Hl as [-> _]. reflexivity.
  - apply Forall_forall. intros l Hl. rewrite forallb_forall in H.
    pose proof (H l Hl) as Hp. apply sourceLines_trimmed in Hl as [-> Ht].
    split; assumption.
Qed.

Lemma ahead_push B st1 st2 b : ahead B st1 st2 -> ahead B (push st1 b) (push st2 b).
Proof.
  intros [H1 [H2 [H3 H4]]]. unfold ahead, push. simpl.
  rewrite H1, app_assoc. auto.
Qed.

Lemma ahead_closeList B st1 st2 :
  ahead B st1 st2 -> aheadC B (closeList st1) (closeList st2).
Proof.
  intros [H1 [H2 [H3 H4]]]. unfold closeList. rewrite H3.
  destruct (isInList st2) eqn:E; simpl.
  - rewrite (H4 eq_refl), H2. destruct (listType st2) eqn:EL; simpl; [|reflexivity].
    unfold pushAll. destruct (N.leb _ _); simpl; [|reflexivity].
    unfold ahead. simpl. rewrite H1, app_assoc. repeat split; auto; discriminate.
  - unfold ahead. rewrite E. repeat split; auto; discriminate.
Qed.

Lemma ahead_listItem B key item st1 st2 :
  ahead B st1 st2 -> aheadC B (listItem key item st1) (listItem key item st2).
Proof.
  intros [H1 [H2 [H3 H4]]]. unfold listItem. rewrite H3.
  destruct (isInList st2) eqn:E; simpl.
  - rewrite (H4 eq_refl), H2. destruct (listType st2) as [k|] eqn:EL; simpl.
    + destruct (ListType_eqb k key); simpl.
      * unfold ahead; simpl. rewrite H1, H2, H3, E, EL. auto.
      * unfold pushAll. destruct (N.leb _ _); simpl; [|reflexivity].
        unfold ahead; simpl. rewrite H1, app_assoc. auto.
    + reflexivity.
  - unfold ahead. simpl. rewrite H1, H2. auto.
Qed.

Lemma aheadC_bind B c1 c2 (k1 k2 : ParseState -> completion ParseState) :
  aheadC B c1 c2 ->
  (forall st1 st2, ahead B st1 st2 -> aheadC B (k1 st1) (k2 st2)) ->
  aheadC B (bind c1 k1) (bind c2 k2).
Proof.
  destruct c1, c2; simpl; intros H Hk; try contradiction; [apply Hk; exact H | exact H].
Qed.

Lemma ahead_processLine B st1 st2 line :
  ahead B st1 st2 -> aheadC B (processLine st1 line) (processLine st2 line).
Proof.
  intros H. unfold processLine.
  repeat match goal with
  | |- aheadC _ (if ?c then _ else _) (if ?c then _ else _) => destruct c
  end;
  try (apply ahead_listItem; exact H);
  try (apply aheadC_bind; [apply ahead_closeList; exact H |];
       intros s1 s2 Hs;
       first [ exact (ahead_push _ _ _ _ Hs)
             | destruct (match_ _ _); [exact (ahead_push _ _ _ _ Hs) | exact Hs] ]).
  exact H.
Qed.

Lemma ahead_forOf B lines st1 st2 :
  ahead B st1 st2 ->
  aheadC B (forOf processLine lines st1) (forOf processLine lines st2).
Proof.
  revert st1 st2. induction lines as [|l lines IH]; intros st1 st2 H; simpl.
  - exact H.
  - apply aheadC_bind; [apply ahead_processLine; exact H | exact IH].
Qed.

Lemma ahead_finish B c1 c2 :
  aheadC B c1 c2 ->
  bind c1 finish = (bs <- bind c2 finish ;; Normal (B ++ bs)).
Proof.
  destruct c1 as [st1|e1], c2 as [st2|e2]; simpl; try contradiction.
  - intros [H1 [H2 [H3 H4]]]. unfold finish. rewrite H3, H2.
    destruct (isInList st2) eqn:E; simpl.
    + rewrite (H4 eq_refl). destruct (0 <? _); simpl.
      * destruct (listType st2); simpl; [|reflexivity].
        unfold pushAll. destruct (N.leb _ _); simpl; [|reflexivity].
        rewrite H1, app_assoc. reflexivity.
      * rewrite H1. reflexivity.
    + rewrite H1. reflexivity.
  - intros ->. reflexivity.
Qed.

Lemma sliceFrom_app (a b : jsstring) : sliceFrom (a ++ b) (length a) = b.
Proof.
  unfold sliceFrom. rewrite <- (app_nil_r b) at 1. rewrite length_app.
  replace (length a + length (b ++ [])) with (length a + length b)
    by (rewrite app_nil_r; reflexivity).
  rewrite (slice_middle a b []). reflexivity.
Qed.

Lemma processLine_bullet (st : ParseState) (x : jsstring) :
  trim (str "- " ++ x) = str "- " ++ x ->
  processLine st (str "- " ++ x) = listItem bulletList x st.
Proof.
  intros Ht. unfold processLine. rewrite Ht.
  change (sliceFrom (str "- " ++ x) 2) with (sliceFrom (str "- " ++ x) (length (str "- "))).
  rewrite sliceFrom_app. reflexivity.
Qed.

(** A line of no list closes the open list, and then emits one block
    or none, whatever the state. *)
Lemma processLine_not_list (line : jsstring) :
  truthy (trim line) = true -> isListLine (trim line) = false ->
  exists k : ParseState -> ParseState,
    (k = (fun s => s) \/ exists b, k = (fun s => push s b)) /\
    forall st, processLine st line = (st' <- closeList st ;; Normal (k st')).
Proof.
  intros Ht Hl. unfold isListLine in Hl.
  apply orb_false_iff in Hl as [Hl H3]. apply orb_false_iff in Hl as [H1 H2].
  unfold processLine. rewrite Ht, H1, H2, H3. cbn [negb orb].
  assert (Hpush : forall b,
            exists k : ParseState -> ParseState,
              (k = (fun s => s) \/ exists b, k = (fun s => push s b)) /\
              forall st, (st' <- closeList st ;; Normal (push st' b))
                         = (st' <- closeList st ;; Normal (k st'))).
  { intros b. exists (fun s => push s b). split; [right; exists b|]; reflexivity. }
  assert (Hskip : exists k : ParseState -> ParseState,
              (k = (fun s => s) \/ exists b, k = (fun s => push s b)) /\
              forall st, (st' <- closeList st ;; Normal st')
                         = (st' <- closeList st ;; Normal (k st'))).
  { exists (fun s => s). split; [left|]; reflexivity. }
  destruct (startsWith (trim line) (str "# ")); [apply Hpush|].
  destruct (startsWith (trim line) (str "## ")); [apply Hpush|].
  destruct (startsWith (trim line) (str "### ")); [apply Hpush|].
  destruct (startsWith (trim line) (str "`")); [apply Hpush|].
  destruct (startsWith (trim line) (str "> ")); [apply Hpush|].
  destruct (isImageLine (trim line)).
  { destruct (match_ (trim line) reParens) as [m|]; [apply Hpush | apply Hskip]. }
  destruct (isLinkLine (trim line)).
  { destruct (match_ (trim line) reLink) as [m|]; [apply Hpush | apply Hskip]. }
  apply Hpush.
Qed.

(** A line of the document is trimmed. *)
Ltac source_line markdown H :=
  apply (sourceLines_trimmed markdown); rewrite H; simpl; auto.

(** The engine accepts a list of so many items. *)
Lemma accepted_le (n : nat) : (N.of_nat n <= maxArguments)%N -> accepted n = true.
Proof. intros H. unfold accepted. apply N.leb_le. exact H. Qed.

(** Flushing a list that the engine accepts. *)
Lemma closeList_list (st : ParseState) (key : ListType) :
  isInList st = true -> listType st = Some key -> accepted (held st) = true ->
  closeList st
  = Normal (mkParse (blocks st ++ blockConverters key (currentList st)) [] false (Some key)).
Proof.
  intros H1 H2 H3. unfold closeList, pushAll. rewrite H1, H2. simpl convertList. simpl bind.
  replace (List.length (blockConverters key (currentList st))) with (held st)
    by (destruct key; symmetry; apply length_map).
  unfold accepted in H3. rewrite H3. reflexivity.
Qed.

Lemma finish_list (st : ParseState) (key : ListType) :
  isInList st = true -> listType st = Some key -> accepted (held st) = true ->
  finish st = Normal (blocks st ++ blockConverters key (currentList st)).
Proof.
  intros H1 H2 H3. unfold finish, pushAll. rewrite H1, H2. simpl andb.
  destruct (0 <? Z.of_nat (List.length (currentList st))) eqn:E.
  - simpl convertList. simpl bind.
    replace (List.length (blockConverters key (currentList st))) with (held st)
      by (destruct key; symmetry; apply length_map).
    unfold accepted in H3. rewrite H3. reflexivity.
  - apply Z.ltb_ge in E. destruct (currentList st); [|simpl in E; lia].
    destruct key; simpl; rewrite app_nil_r; reflexivity.
Qed.

(** C4. On an engine that accepts three arguments, three consecutive
    lines ["- item"] give three sibling blocks of type
    ["bulleted_list_item"], one for each item and each with its own
    tokenized text as rich text; and the lines that follow a line of no
    list are assembled as if the document began there. *)
Theorem three_bullets :
  (3 <= maxArguments)%N ->
  parseMarkdown (str "- item" ++ nl ++ str "- item" ++ nl ++ str "- item")
  = Normal [mkBlock (str "bulleted_list_item")
              (RichTextPayload (parseInlineStyles (str "item")));
            mkBlock (str "bulleted_list_item")
              (RichTextPayload (parseInlineStyles (str "item")));
            mkBlock (str "bulleted_list_item")
              (RichTextPayload (parseInlineStyles (str "item")))]
  /\
  (forall (markdown x y z : jsstring),
     sourceLines markdown = [str "- " ++ x; str "- " ++ y; str "- " ++ z] ->
     parseMarkdown markdown
     = Normal [mkBlock (str "bulleted_list_item") (RichTextPayload (parseInlineStyles x));
               mkBlock (str "bulleted_list_item") (RichTextPayload (parseInlineStyles y));
               mkBlock (str "bulleted_list_item") (RichTextPayload (parseInlineStyles z))])
  /\
  (forall (markdown x y z next : jsstring) rest,
     sourceLines markdown
       = (str "- " ++ x) :: (str "- " ++ y) :: (str "- " ++ z) :: next :: rest ->
     isListLine next = false ->
     parseMarkdown markdown
     = (following <- parseLines (next :: rest) ;;
        Normal ([mkBlock (str "bulleted_list_item") (RichTextPayload (parseInlineStyles x));
                 mkBlock (str "bulleted_list_item") (RichTextPayload (parseInlineStyles y));
                 mkBlock (str "bulleted_list_item") (RichTextPayload (parseInlineStyles z))]
                ++ following))).
Proof.
  intros Hmax.
  assert (Hthree : forall x y z : jsstring,
            accepted (held (mkParse [] [x; y; z] true (Some bulletList))) = true).
  { intros x y z. apply accepted_le. exact Hmax. }
  assert (Hdoc : forall (markdown x y z : jsstring),
     sourceLines markdown = [str "- " ++ x; str "- " ++ y; str "- " ++ z] ->
     parseMarkdown markdown
     = Normal [mkBlock (str "bulleted_list_item") (RichTextPayload (parseInlineStyles x));
               mkBlock (str "bulleted_list_item") (RichTextPayload (parseInlineStyles y));
               mkBlock (str "bulleted_list_item") (RichTextPayload (parseInlineStyles z))]).
  { intros markdown x y z H. rewrite parseMarkdown_sourceLines.
    assert (Hx : trim (str "- " ++ x) = str "- " ++ x) by source_line markdown H.
    assert (Hy : trim (str "- " ++ y) = str "- " ++ y) by source_line markdown H.
    assert (Hz : trim (str "- " ++ z) = str "- " ++ z) by source_line markdown H.
    rewrite H. unfold parseLines. simpl forOf.
    rewrite (processLine_bullet _ x Hx). simpl bind.
    rewrite (processLine_bullet _ y Hy). simpl bind.
    rewrite (processLine_bullet _ z Hz).
    cbn [listItem isInList listType currentList blocks negb orb ListType_eqb bind app].
    rewrite (finish_list (mkParse [] [x; y; z] true (Some bulletList)) bulletList
               eq_refl eq_refl (Hthree x y z)). reflexivity. }
  split; [apply Hdoc; reflexivity|]. split; [exact Hdoc|].
  intros markdown x y z next rest H Hnext. rewrite parseMarkdown_sourceLines.
  assert (Hx : trim (str "- " ++ x) = str "- " ++ x) by source_line markdown H.
  assert (Hy : trim (str "- " ++ y) = str "- " ++ y) by source_line markdown H.
  assert (Hz : trim (str "- " ++ z) = str "- " ++ z) by source_line markdown H.
  assert (Hn : trim next = next /\ truthy next = true) by source_line markdown H.
  destruct Hn as [Hn Hnt].
  destruct (processLine_not_list next) as [k [Hk Hp]];
    [rewrite Hn; exact Hnt | rewrite Hn; exact Hnext |].
  rewrite H. unfold parseLines. simpl forOf.
  rewrite (processLine_bullet _ x Hx). simpl bind.
  rewrite (processLine_bullet _ y Hy). simpl bind.
  rewrite (processLine_bullet _ z Hz).
  cbn [listItem isInList listType currentList blocks negb orb ListType_eqb bind app].
  rewrite !Hp.
  rewrite (closeList_list (mkParse [] [x; y; z] true (Some bulletList)) bulletList
             eq_refl eq_refl (Hthree x y z)). simpl bind.
  apply (ahead_finish [bulletItem x; bulletItem y; bulletItem z]). apply ahead_forOf.
  destruct Hk as [->|[b ->]]; unfold ahead; simpl; repeat split; auto; discriminate.
Qed.

(** ** The patterns of the image rule and of the bookmark rule *)

Lemma run_Open (r : regex) (s : jsstring) pos cs :
  run (Open :: r) s pos cs = run r s pos (openGroup cs).
Proof. reflexivity. Qed.

Lemma run_Close (r : regex) (s : jsstring) pos cs :
  run (Close :: r) s pos cs = run r s pos (closeGroup cs).
Proof. reflexivity. Qed.

(** The lazy [.*?] closed by [)]: it stops at the nearest [)]. *)
Lemma run_lazy_close (s : jsstring) (pos : nat) (cl : list jsstring) (acc : jsstring) :
  run [LazyStar Dot; Close; One (Lit 41)] s pos (mkCaptures cl (Some acc)) =
  match upToClose s with
  | Some u => Some (mkCaptures (cl ++ [rev acc ++ u]) None, (pos + List.length u + 1)%nat)
  | None => None
  end.
Proof.
  revert pos acc. induction s as [|c s IH]; intros pos acc.
  - reflexivity.
  - rewrite run_LazyStar_cons, run_Close, run_One_cons. simpl upToClose.
    unfold accepts. destruct (N.eqb c 41) eqn:E41.
    + simpl. rewrite app_nil_r. do 2 f_equal. lia.
    + destruct (isLineTerminator c) eqn:ELT; simpl negb; cbv iota; [reflexivity|].
      change (consume c (mkCaptures cl (Some acc))) with (mkCaptures cl (Some (c :: acc))).
      rewrite IH. destruct (upToClose s) as [u|]; simpl; [|reflexivity].
      rewrite <- app_assoc. simpl. do 2 f_equal. lia.
Qed.

Lemma run_reParens (s : jsstring) (pos : nat) :
  run reParens s pos noCaptures =
  match s with
  | c :: s' =>
      if N.eqb c 40 then
        match upToClose s' with
        | Some u => Some (mkCaptures [u] None, (pos + List.length u + 2)%nat)
        | None => None
        end
      else None
  | [] => None
  end.
Proof.
  destruct s as [|c s']; [reflexivity|].
  unfold reParens. rewrite run_One_cons. unfold accepts.
  destruct (N.eqb c 40); [|reflexivity].
  rewrite run_Open. change (openGroup (consume c noCaptures)) with (mkCaptures [] (Some [])).
  rewrite run_lazy_close. destruct (upToClose s'); [|reflexivity].
  simpl. do 2 f_equal. lia.
Qed.

Lemma search_reParens (s : jsstring) (pos : nat) :
  option_map groups (search reParens s pos) =
  option_map (fun u => [u]) (firstParenthesised s).
Proof.
  revert pos. induction s as [|c s IH]; intros pos.
  - reflexivity.
  - cbn [search firstParenthesised]. rewrite run_reParens.
    destruct (N.eqb c 40); [|apply IH].
    destruct (upToClose s); [reflexivity | apply IH].
Qed.

(** What [line.match(/\((.*?)\)/)] answers. *)
Lemma match_reParens (s : jsstring) :
  match firstParenthesised s with
  | Some u => exists whole, match_ s reParens = Some [whole; u]
  | None => match_ s reParens = None
  end.
Proof.
  pose proof (search_reParens s 0) as H. unfold match_, exec.
  destruct (search reParens s 0) as [m|]; destruct (firstParenthesised s) as [u|];
    simpl in H; try discriminate.
  - injection H as H. rewrite H. eexists. reflexivity.
  - reflexivity.
Qed.

(** *** Which rule takes a line *)

Lemma search_Start_later (r : regex) (s : jsstring) (pos : nat) :
  search (Start :: r) s (S pos) = None.
Proof.
  revert pos. induction s as [|c s IH]; intros pos; simpl; [reflexivity | apply IH].
Qed.

(** A line that does not begin with a digit is no numbered item. *)
Lemma test_reNumbered_first (c : N) (s : jsstring) :
  accepts Digit c = false -> test reNumbered (c :: s) = false.
Proof.
  intros H. unfold test, exec, reNumbered. cbn [search].
  replace (run [Start; Plus Digit; One (Lit 46); One Space] (c :: s) 0 noCaptures)
    with (@None (captures * nat)).
  - rewrite search_Start_later. reflexivity.
  - cbn [run]. rewrite H. reflexivity.
Qed.

Lemma isPrefix_cons (c : N) (p s : jsstring) :
  isPrefix (c :: p) s = true -> exists r, s = c :: r /\ isPrefix p r = true.
Proof.
  destruct s as [|d s]; simpl; [discriminate|].
  intros H. apply andb_true_iff in H as [H1 H2]. apply N.eqb_eq in H1. subst d.
  exists s. split; [reflexivity | exact H2].
Qed.

(** The image rule is reached by every line that passes its test. *)
Lemma processLine_image (st : ParseState) (line : jsstring) :
  isImageLine (trim line) = true ->
  processLine st line =
  (st' <- closeList st ;;
   match match_ (trim line) reParens with
   | None => Normal st'
   | Some m => Normal (push st' (createImage (nth 1 m [])))
   end).
Proof.
  intros H. unfold processLine. rewrite H.
  unfold isImageLine in H. apply andb_true_iff in H as [H _].
  apply andb_true_iff in H as [H _]. unfold startsWith in H.
  apply isPrefix_cons in H as [r [-> _]].
  rewrite test_reNumbered_first by reflexivity. reflexivity.
Qed.

(** The bookmark rule is reached by every line that passes its test. *)
Lemma processLine_link (st : ParseState) (line : jsstring) :
  isLinkLine (trim line) = true ->
  processLine st line =
  (st' <- closeList st ;;
   match match_ (trim line) reLink with
   | None => Normal st'
   | Some m => Normal (push st' (createBookmark (nth 2 m []) (Some (nth 1 m []))))
   end).
Proof.
  intros H. unfold processLine. rewrite H.
  unfold isLinkLine in H. apply andb_true_iff in H as [H _].
  apply andb_true_iff in H as [H _]. unfold startsWith in H.
  apply isPrefix_cons in H as [r [-> _]].
  rewrite test_reNumbered_first by reflexivity. reflexivity.
Qed.

(** *** Lines without line terminator *)

Lemma upToClose_plain (s : jsstring) :
  noLineTerminator s = true ->
  upToClose s = option_map fst (cutAt [41%N] s).
Proof.
  induction s as [|c s IH]; [reflexivity|].
  intros H. simpl in H. apply andb_true_iff in H as [Hc Hs].
  apply negb_true_iff in Hc. cbn [upToClose cutAt isPrefix].
  rewrite (N.eqb_sym 41 c). destruct (N.eqb c 41); [reflexivity|].
  rewrite Hc, (IH Hs). simpl. destruct (cutAt [41%N] s) as [[b a]|]; reflexivity.
Qed.

Lemma cutAt_none_in (c : N) (s : jsstring) :
  cutAt [c] s = None -> ~ In c s.
Proof.
  induction s as [|d s IH]; simpl; [tauto|].
  destruct (N.eqb c d) eqn:E; simpl; [discriminate|].
  destruct (cutAt [c] s) as [[b a]|]; [discriminate|].
  intros _ [H|H]; [subst d; rewrite N.eqb_refl in E; discriminate | exact (IH eq_refl H)].
Qed.

(** On a line without line terminator the first parenthesis pair is the
    first [(] and the next [)]. *)
Lemma firstParenthesised_plain (s : jsstring) :
  noLineTerminator s = true -> firstParenthesised s = firstPair s.
Proof.
  unfold firstPair. induction s as [|c s IH]; [reflexivity|].
  intros H. pose proof H as Hcs. simpl in H. apply andb_true_iff in H as [Hc Hs].
  cbn [firstParenthesised cutAt isPrefix]. rewrite (N.eqb_sym 40 c).
  destruct (N.eqb c 40); simpl.
  - rewrite upToClose_plain by exact Hs.
    destruct (cutAt [41%N] s) as [[u a]|] eqn:E; [reflexivity|].
    rewrite (IH Hs). destruct (cutAt [40%N] s) as [[b a]|] eqn:E2; [|reflexivity].
    destruct (cutAt [41%N] a) as [[u a']|] eqn:E3; [|reflexivity].
    exfalso. apply cutAt_none_in in E. apply E.
    apply cutAt_split in E2, E3. subst. rewrite !in_app_iff. simpl. tauto.
  - rewrite (IH Hs). destruct (cutAt [40%N] s) as [[b a]|]; reflexivity.
Qed.

Lemma noLineTerminator_app (a b : jsstring) :
  noLineTerminator (a ++ b) = noLineTerminator a && noLineTerminator b.
Proof. apply forallb_app. Qed.

Lemma cutAt_some_in (c : N) (s : jsstring) :
  In c s -> exists b a, cutAt [c] s = Some (b, a).
Proof.
  intros H. destruct (cutAt [c] s) as [[b a]|] eqn:E; [exists b, a; reflexivity|].
  exfalso. exact (cutAt_none_in c s E H).
Qed.

(** A text that ends with [c]. *)
Lemma endsWith_char (s : jsstring) (c : N) :
  endsWith s [c] = true -> exists s0, s = s0 ++ [c].
Proof.
  unfold endsWith. intros H. apply andb_true_iff in H as [Hl H].
  apply Z.leb_le in Hl. apply eqb_eq in H.
  change (length [c]) with 1 in *.
  exists (firstn (Z.to_nat (length s - 1)) s).
  rewrite <- H. unfold slice, relIndex.
  destruct (length s - 1 <? 0) eqn:E1; [apply Z.ltb_lt in E1; lia|].
  destruct (length s <? 0) eqn:E2; [apply Z.ltb_lt in E2; lia|].
  replace (Z.min (length s - 1) (length s)) with (length s - 1) by lia.
  replace (Z.min (length s) (length s)) with (length s) by lia.
  rewrite (firstn_all2 (n := Z.to_nat (length s - (length s - 1)))).
  - symmetry. apply firstn_skipn.
  - rewrite List.length_skipn. unfold length in *. lia.
Qed.

(** The part of a text behind a character other than its last one ends
    as the text does. *)
Lemma tail_ends (a b s0 : jsstring) (d c : N) :
  a ++ d :: b = s0 ++ [c] -> d <> c -> exists b0, b = b0 ++ [c].
Proof.
  revert a d. induction b as [|e b IH] using rev_ind; intros a d H Hd.
  - apply (f_equal (@rev N)) in H. rewrite !rev_app_distr in H. simpl in H.
    injection H as H _. congruence.
  - rewrite app_comm_cons, app_assoc in H. apply app_inj_tail in H as [_ ->].
    exists b. reflexivity.
Qed.

Lemma includes_split (l m : jsstring) :
  m <> [] -> includes l m = true -> exists a b, l = a ++ m ++ b.
Proof.
  intros Hm H. unfold includes in H. apply negb_true_iff, Z.eqb_neq in H.
  apply indexOf_found in H as [_ [_ [_ H]]]; [|exact Hm].
  apply isPrefix_spec in H as [b Hb].
  exists (firstn (Z.to_nat (indexOf l m 0)) l), b.
  rewrite <- Hb. symmetry. apply firstn_skipn.
Qed.

(** The lazy [.*?] of the link pattern, followed by the rest of the
    pattern: with the first ["]("] of the input closed by a [)], it stops
    there. *)
Lemma run_lazy_link (s : jsstring) :
  forall pos cl acc text s2 url,
    cutAt (str "](") s = Some (text, s2) ->
    noLineTerminator text = true ->
    upToClose s2 = Some url ->
    run [LazyStar Dot; Close; One (Lit 93); One (Lit 40);
         Open; LazyStar Dot; Close; One (Lit 41)] s pos (mkCaptures cl (Some acc))
    = Some (mkCaptures (cl ++ [rev acc ++ text; url]) None,
            (pos + List.length text + List.length url + 3)%nat).
Proof.
  change (str "](") with [93%N; 40%N].
  induction s as [|c s IH]; intros pos cl acc text s2 url Hcut Htext Hurl.
  - discriminate Hcut.
  - rewrite run_LazyStar_cons, run_Close, run_One_cons.
    cbn [cutAt] in Hcut. destruct (isPrefix [93%N; 40%N] (c :: s)) eqn:Ep.
    + injection Hcut as <- <-.
      apply isPrefix_cons in Ep as [r [Hr Ep]]. injection Hr as -> ->.
      apply isPrefix_cons in Ep as [r' [-> _]]. simpl skipn in Hurl.
      cbn [accepts N.eqb Pos.eqb]. rewrite run_One_cons. cbn [accepts N.eqb Pos.eqb].
      rewrite run_Open.
      change (openGroup (consume 40%N (consume 93%N (closeGroup (mkCaptures cl (Some acc))))))
        with (mkCaptures (cl ++ [rev acc]) (Some [])).
      rewrite run_lazy_close, Hurl. simpl. rewrite app_nil_r, <- app_assoc. simpl.
      do 2 f_equal. lia.
    + destruct (cutAt [93%N; 40%N] s) as [[t a]|] eqn:Ec; [|discriminate].
      injection Hcut as <- <-. simpl in Htext. apply andb_true_iff in Htext as [Hc Ht].
      assert (Hk : (if accepts (Lit 93) c
                    then run [One (Lit 40); Open; LazyStar Dot; Close; One (Lit 41)] s (S pos)
                           (consume c (closeGroup (mkCaptures cl (Some acc))))
                    else None) = None).
      { unfold accepts. destruct (N.eqb c 93) eqn:E93; [|reflexivity].
        apply N.eqb_eq in E93. subst c. destruct s as [|d s]; [reflexivity|].
        rewrite run_One_cons. unfold accepts. destruct (N.eqb d 40) eqn:E40; [|reflexivity].
        apply N.eqb_eq in E40. subst d. discriminate Ep. }
      rewrite Hk. cbn [accepts]. rewrite Hc.
      change (consume c (mkCaptures cl (Some acc))) with (mkCaptures cl (Some (c :: acc))).
      etransitivity; [exact (IH (S pos) cl (c :: acc) t a url eq_refl Ht Hurl)|].
      simpl. rewrite <- app_assoc. simpl. do 2 f_equal. lia.
Qed.

(** What [line.match(/\[(.*?)\]\((.*?)\)/)] answers on a line that opens
    with [[]: the text up to the first ["]("], and the text from there up
    to the next [)]. *)
Lemma match_reLink (rest text s2 url : jsstring) :
  cutAt (str "](") rest = Some (text, s2) ->
  noLineTerminator text = true ->
  upToClose s2 = Some url ->
  exists whole, match_ (91%N :: rest) reLink = Some [whole; text; url].
Proof.
  intros Hcut Htext Hurl. unfold match_, exec. cbn [search].
  assert (Hrun : run reLink (91%N :: rest) 0 noCaptures
                 = Some (mkCaptures [text; url] None,
                         (1 + List.length text + List.length url + 3)%nat))
    by exact (run_lazy_link rest 1 [] [] text s2 url Hcut Htext Hurl).
  rewrite Hrun. eexists. reflexivity.
Qed.

(** On a line without line terminator, the test of the image rule
    leaves a parenthesis pair to find. *)
Lemma imageTest_matches (line : jsstring) :
  noLineTerminator line = true -> isImageLine line = true ->
  exists url, firstParenthesised line = Some url.
Proof.
  intros Hlt H. unfold isImageLine in H.
  change (str ")") with [41%N] in H. change (str "](") with [93%N; 40%N] in H.
  apply andb_true_iff in H as [H Hend]. apply andb_true_iff in H as [_ Hinc].
  apply includes_split in Hinc as [a [b Hl]]; [|discriminate].
  apply endsWith_char in Hend as [s0 Hs0].
  rewrite firstParenthesised_plain by exact Hlt. unfold firstPair.
  destruct (cutAt_some_in 40 line) as [pre [after Hcut]].
  { rewrite Hl. rewrite !in_app_iff. simpl. tauto. }
  rewrite Hcut. pose proof (cutAt_split _ _ _ _ Hcut) as Hsplit. simpl in Hsplit.
  destruct (tail_ends pre after s0 40 41) as [b0 Hb0];
    [rewrite <- Hs0; exact (eq_sym Hsplit) | discriminate |].
  destruct (cutAt_some_in 41 after) as [u [a' ->]].
  { rewrite Hb0, in_app_iff. simpl. tauto. }
  exists u. reflexivity.
Qed.

(** On a line without line terminator, the test of the bookmark rule
    leaves the pattern its two captures. *)
Lemma linkTest_matches (line : jsstring) :
  noLineTerminator line = true -> isLinkLine line = true ->
  exists rest text s2 url after,
    line = 91%N :: rest /\
    cutAt (str "](") rest = Some (text, s2) /\
    cutAt (str ")") s2 = Some (url, after) /\
    exists whole, match_ line reLink = Some [whole; text; url].
Proof.
  intros Hlt H. unfold isLinkLine in H.
  change (str ")") with [41%N] in *. change (str "](") with [93%N; 40%N] in *.
  change (str "[") with [91%N] in H.
  apply andb_true_iff in H as [H Hend]. apply andb_true_iff in H as [Hstart Hinc].
  unfold startsWith in Hstart. apply isPrefix_cons in Hstart as [rest [-> _]].
  apply endsWith_char in Hend as [s0 Hs0].
  assert (Hc : exists text s2, cutAt [93%N; 40%N] rest = Some (text, s2)).
  { unfold includes in Hinc. apply negb_true_iff, Z.eqb_neq in Hinc.
    rewrite indexOf_suffix in Hinc by (pose proof (length_nonneg (91%N :: rest)); lia).
    simpl in Hinc.
    pose proof (cutAt_indexOfFrom [93%N; 40%N] rest (0 + 1) ltac:(lia)) as Hx.
    destruct (cutAt [93%N; 40%N] rest) as [[t a]|]; [exists t, a; reflexivity | contradiction]. }
  destruct Hc as [text [s2 Hcut]].
  pose proof (cutAt_split _ _ _ _ Hcut) as Hsplit. simpl in Hlt.
  assert (Hs2 : exists b0, s2 = b0 ++ [41%N]).
  { apply (tail_ends (91%N :: text ++ [93%N]) s2 s0 40 41); [|discriminate].
    rewrite <- Hs0, Hsplit. simpl. rewrite <- app_assoc. reflexivity. }
  destruct Hs2 as [b0 Hb0].
  rewrite Hsplit, !noLineTerminator_app in Hlt.
  apply andb_true_iff in Hlt as [Ht Hlt]. apply andb_true_iff in Hlt as [_ Hlt].
  destruct (cutAt_some_in 41 s2) as [url [after Hurl]].
  { rewrite Hb0, in_app_iff. simpl. tauto. }
  exists rest, text, s2, url, after. repeat split; try assumption.
  apply match_reLink with (s2 := s2); [assumption | assumption |].
  rewrite upToClose_plain by exact Hlt. rewrite Hurl. reflexivity.
Qed.

(** ** Image lines and bookmark lines *)

(** A document of one line. *)
Lemma parseMarkdown_one_line (markdown line : jsstring) (st : ParseState) :
  sourceLines markdown = [line] ->
  processLine (mkParse [] [] false None) line = Normal st ->
  isInList st = false ->
  parseMarkdown markdown = Normal (blocks st).
Proof.
  intros Hl Hp Hs. rewrite parseMarkdown_sourceLines, Hl. unfold parseLines.
  simpl forOf. rewrite Hp. simpl bind. unfold finish. rewrite Hs. reflexivity.
Qed.

Lemma sourceLines_one_trimmed (markdown line : jsstring) :
  sourceLines markdown = [line] -> trim line = line.
Proof.
  intros H. apply (sourceLines_trimmed markdown). rewrite H. simpl. auto.
Qed.

(** C5, as the code has it. A line that starts with ["!["], contains
    ["]("] and ends with [")"] gives one image block whose url is the
    text inside the first parenthesis pair that holds no line
    terminator, found by the non-greedy pattern, and gives no block when
    the line has no such pair; so does a document of this one line.  On
    a line without carriage return, line
    separator or paragraph separator this is the first [(] of the whole
    line and the next [)], and the pair is always found.
    ["![alt](http://x/y.png)"] gives one image with url
    ["http://x/y.png"]. *)
Theorem image_line :
  (forall st st' line,
     isImageLine (trim line) = true ->
     closeList st = Normal st' ->
     processLine st line =
     Normal (match firstParenthesised (trim line) with
             | Some url => push st' (mkBlock (str "image") (ExternalPayload url))
             | None => st'
             end))
  /\
  (forall markdown line,
     sourceLines markdown = [line] ->
     isImageLine line = true ->
     parseMarkdown markdown =
     Normal (match firstParenthesised line with
             | Some url => [mkBlock (str "image") (ExternalPayload url)]
             | None => []
             end))
  /\
  (forall line,
     noLineTerminator line = true ->
     firstParenthesised line = firstPair line /\
     (isImageLine line = true -> exists url, firstPair line = Some url))
  /\
  parseMarkdown (str "![alt](http://x/y.png)")
  = Normal [mkBlock (str "image") (ExternalPayload (str "http://x/y.png"))].
Proof.
  assert (Hstep : forall st st' line,
            isImageLine (trim line) = true ->
            closeList st = Normal st' ->
            processLine st line =
            Normal (match firstParenthesised (trim line) with
                    | Some url => push st' (mkBlock (str "image") (ExternalPayload url))
                    | None => st'
                    end)).
  { intros st st' line H Hc. rewrite processLine_image by exact H. rewrite Hc. simpl bind.
    pose proof (match_reParens (trim line)) as Hm.
    destruct (firstParenthesised (trim line)) as [u|].
    - destruct Hm as [whole ->]. reflexivity.
    - rewrite Hm. reflexivity. }
  split; [exact Hstep|]. split; [|split; [|reflexivity]].
  - intros markdown line Hl H. pose proof (sourceLines_one_trimmed _ _ Hl) as Ht.
    rewrite (parseMarkdown_one_line markdown line _ Hl
               (Hstep (mkParse [] [] false None) (mkParse [] [] false None) line
                  ltac:(rewrite Ht; exact H) eq_refl)).
    + rewrite Ht. destruct (firstParenthesised line); reflexivity.
    + destruct (firstParenthesised (trim line)); reflexivity.
  - intros line Hlt. split; [apply firstParenthesised_plain; exact Hlt|].
    intros H. rewrite <- firstParenthesised_plain by exact Hlt.
    apply imageTest_matches; assumption.
Qed.

(** C10, as the code has it. On a line without carriage return, line
    separator or paragraph separator, the test of the image rule makes
    the image pattern match, the test of the bookmark rule makes the
    link pattern match, and the line gives exactly one block, in any
    state of the loop and as a document of its own. *)
Theorem guarded_match_succeeds (st st' : ParseState) (line : jsstring) :
  noLineTerminator (trim line) = true ->
  isImageLine (trim line) || isLinkLine (trim line) = true ->
  closeList st = Normal st' ->
  (isImageLine (trim line) = true -> exists m, match_ (trim line) reParens = Some m) /\
  (isLinkLine (trim line) = true -> exists m, match_ (trim line) reLink = Some m) /\
  (exists block, processLine st line = Normal (push st' block)) /\
  (forall markdown, sourceLines markdown = [trim line] ->
     exists block, parseMarkdown markdown = Normal [block]).
Proof.
  intros Hlt Hg Hc.
  assert (Hi : isImageLine (trim line) = true ->
               exists m, match_ (trim line) reParens = Some m).
  { intros H. destruct (imageTest_matches _ Hlt H) as [url Hu].
    pose proof (match_reParens (trim line)) as Hm. rewrite Hu in Hm.
    destruct Hm as [whole Hm]. eexists. exact Hm. }
  assert (Hl : isLinkLine (trim line) = true ->
               exists m, match_ (trim line) reLink = Some m).
  { intros H. destruct (linkTest_matches _ Hlt H)
      as [rest [text [s2 [url [after [_ [_ [_ [whole Hm]]]]]]]]].
    eexists. exact Hm. }
  split; [exact Hi|]. split; [exact Hl|].
  assert (Hstep : forall s s', closeList s = Normal s' ->
            exists block, processLine s line = Normal (push s' block)).
  { intros s s' Hs. destruct (isImageLine (trim line)) eqn:Ei.
    - destruct (Hi eq_refl) as [m Hm].
      rewrite processLine_image by exact Ei. rewrite Hs. simpl bind. rewrite Hm.
      eexists. reflexivity.
    - simpl in Hg. destruct (Hl Hg) as [m Hm].
      rewrite processLine_link by exact Hg. rewrite Hs. simpl bind. rewrite Hm.
      eexists. reflexivity. }
  split; [apply Hstep; exact Hc|].
  intros markdown Hmd.
  destruct (Hstep (mkParse [] [] false None) (mkParse [] [] false None) eq_refl)
    as [block Hb].
  exists block. rewrite <- processLine_trim in Hb.
  rewrite (parseMarkdown_one_line markdown (trim line) _ Hmd Hb); reflexivity.
Qed.


(** ** When the converter returns, and what *)

Lemma accepted_0 : accepted 0 = true.
Proof. apply accepted_le. apply N.le_0_l. Qed.

Lemma accepted_less (n m : nat) : accepted n = true -> (m <= n)%nat -> accepted m = true.
Proof.
  unfold accepted. intros H Hm. apply N.leb_le in H. apply N.leb_le. lia.
Qed.

Lemma blockConverters_length (key : ListType) (items : list jsstring) :
  List.length (blockConverters key items) = List.length items.
Proof. destruct key; apply length_map. Qed.

Lemma blockConverters_app (key : ListType) (a b : list jsstring) :
  blockConverters key (a ++ b) = blockConverters key a ++ blockConverters key b.
Proof. destruct key; simpl; unfold createBulletList, createNumberedList; apply map_app. Qed.

(** The state of a list that was just opened or joined. *)
Lemma settled_open (bs : list NotionBlock) (items : list jsstring) (key : ListType) :
  settled (mkParse bs items true (Some key)).
Proof. split; simpl; discriminate. Qed.

Lemma closeList_emitted (st : ParseState) :
  settled st ->
  if accepted (held st)
  then exists st', closeList st = Normal st' /\
                   isInList st' = false /\ currentList st' = [] /\ blocks st' = emitted st
  else closeList st = Throw rangeError.
Proof.
  intros [H1 H2]. unfold closeList, emitted, pending, held, pushAll.
  destruct (isInList st) eqn:E.
  - destruct (listType st) as [k|] eqn:Ek; [|exfalso; exact (H1 eq_refl eq_refl)].
    simpl convertList. simpl bind. rewrite blockConverters_length.
    unfold accepted. destruct (N.leb _ _); [|reflexivity].
    simpl. eexists. repeat split.
  - rewrite (H2 eq_refl). change (accepted (List.length (@nil jsstring))) with (accepted 0).
    rewrite accepted_0. exists st. rewrite app_nil_r. repeat split; auto.
Qed.

Lemma listItem_emitted (key : ListType) (item : jsstring) (st : ParseState) :
  settled st ->
  if match openList st with Some k => ListType_eqb k key | None => false end
  then exists st', listItem key item st = Normal st' /\ settled st' /\
                   openList st' = Some key /\ held st' = S (held st) /\
                   emitted st' = emitted st ++ blockConverters key [item]
  else if accepted (held st)
  then exists st', listItem key item st = Normal st' /\ settled st' /\
                   openList st' = Some key /\ held st' = 1%nat /\
                   emitted st' = emitted st ++ blockConverters key [item]
  else listItem key item st = Throw rangeError.
Proof.
  intros [H1 H2]. unfold listItem, emitted, pending, openList, held, pushAll.
  destruct (isInList st) eqn:E.
  - destruct (listType st) as [k|] eqn:Ek; [|exfalso; exact (H1 eq_refl eq_refl)].
    simpl. destruct (ListType_eqb k key) eqn:Ekk; simpl.
    + assert (k = key) by (destruct k, key; simpl in Ekk; congruence). subst k.
      eexists. split; [reflexivity|]. split.
      * split; simpl; [rewrite Ek; discriminate | rewrite E; discriminate].
      * simpl. rewrite E, Ek, blockConverters_app, app_assoc, List.length_app. simpl.
        repeat split. lia.
    + rewrite blockConverters_length. unfold accepted.
      destruct (N.leb _ _); [|reflexivity]. simpl.
      eexists. split; [reflexivity|]. split; [apply settled_open|]. simpl. repeat split.
  - simpl. rewrite (H2 eq_refl). change (accepted (List.length (@nil jsstring))) with (accepted 0).
    rewrite accepted_0. eexists. split; [reflexivity|]. split; [apply settled_open|].
    simpl. rewrite app_nil_r. repeat split.
Qed.

(** A line that opens with a number sign is no item of a list. *)
Lemma listKindOf_hash (line p : jsstring) :
  startsWith line (35%N :: p) = true -> listKindOf line = None.
Proof.
  intros H. unfold startsWith in H. apply isPrefix_cons in H as [r [-> _]].
  unfold listKindOf. rewrite test_reNumbered_first by reflexivity. reflexivity.
Qed.

(** One line adds its own blocks to what the state stands for, or
    finds the open list too long for the engine. *)
Lemma processLine_emitted (st : ParseState) (line : jsstring) (rest : list jsstring) :
  settled st -> truthy (trim line) = true ->
  match processLine st line with
  | Normal st' =>
      settled st' /\
      emitted st' = emitted st ++ lineBlocks (trim line) /\
      listsFit (openList st) (held st) (trim line :: rest)
      = listsFit (openList st') (held st') rest
  | Throw e =>
      e = rangeError /\ listsFit (openList st) (held st) (trim line :: rest) = false
  end.
Proof.
  intros Hs Ht.
  assert (Hpush : forall b,
            listKindOf (trim line) = None ->
            match (s <- closeList st ;; Normal (push s b)) with
            | Normal st' =>
                settled st' /\ emitted st' = emitted st ++ [b] /\
                listsFit (openList st) (held st) (trim line :: rest)
                = listsFit (openList st') (held st') rest
            | Throw e =>
                e = rangeError /\ listsFit (openList st) (held st) (trim line :: rest) = false
            end).
  { intros b Hk. pose proof (closeList_emitted st Hs) as Hc. cbn [listsFit]. rewrite Hk.
    destruct (accepted (held st)).
    - destruct Hc as [s [-> [Hi [Hc Hb]]]]. simpl bind. split; [|split].
      + split; simpl; [rewrite Hi; discriminate | intros _; exact Hc].
      + unfold emitted at 1, pending. simpl. rewrite Hi, Hb, app_nil_r. reflexivity.
      + unfold openList, held. simpl. rewrite Hi, Hc. reflexivity.
    - rewrite Hc. simpl. split; reflexivity. }
  assert (Hskip : listKindOf (trim line) = None ->
            match (s <- closeList st ;; Normal s) with
            | Normal st' =>
                settled st' /\ emitted st' = emitted st ++ [] /\
                listsFit (openList st) (held st) (trim line :: rest)
                = listsFit (openList st') (held st') rest
            | Throw e =>
                e = rangeError /\ listsFit (openList st) (held st) (trim line :: rest) = false
            end).
  { intros Hk. pose proof (closeList_emitted st Hs) as Hc. cbn [listsFit]. rewrite Hk.
    destruct (accepted (held st)).
    - destruct Hc as [s [-> [Hi [Hc Hb]]]]. simpl bind. split; [|split].
      + split; [rewrite Hi; discriminate | intros _; exact Hc].
      + unfold emitted at 1, pending. rewrite Hi, Hb, !app_nil_r. reflexivity.
      + unfold openList, held. rewrite Hi, Hc. reflexivity.
    - rewrite Hc. simpl. split; reflexivity. }
  assert (Hitem : forall key item,
            listKindOf (trim line) = Some key ->
            match listItem key item st with
            | Normal st' =>
                settled st' /\ emitted st' = emitted st ++ blockConverters key [item] /\
                listsFit (openList st) (held st) (trim line :: rest)
                = listsFit (openList st') (held st') rest
            | Throw e =>
                e = rangeError /\ listsFit (openList st) (held st) (trim line :: rest) = false
            end).
  { intros key item Hk. pose proof (listItem_emitted key item st Hs) as Hl.
    cbn [listsFit]. rewrite Hk.
    destruct (match openList st with Some k => ListType_eqb k key | None => false end).
    - destruct Hl as [s [-> [H1 [H2 [H3 H4]]]]]. rewrite H2, H3. auto.
    - destruct (accepted (held st)).
      + destruct Hl as [s [-> [H1 [H2 [H3 H4]]]]]. rewrite H2, H3. auto.
      + rewrite Hl. split; reflexivity. }
  unfold processLine, lineBlocks. rewrite Ht. cbn [negb].
  destruct (startsWith (trim line) (str "# ")) eqn:E1;
    [apply Hpush; exact (listKindOf_hash _ _ E1)|].
  destruct (startsWith (trim line) (str "## ")) eqn:E2;
    [apply Hpush; exact (listKindOf_hash _ _ E2)|].
  destruct (startsWith (trim line) (str "### ")) eqn:E3;
    [apply Hpush; exact (listKindOf_hash _ _ E3)|].
  destruct (startsWith (trim line) (str "* ") || startsWith (trim line) (str "- ")) eqn:E4;
    [apply (Hitem bulletList); unfold listKindOf; rewrite E4; reflexivity|].
  destruct (test reNumbered (trim line)) eqn:E5;
    [apply (Hitem numberList); unfold listKindOf; rewrite E4, E5; reflexivity|].
  assert (Hk : listKindOf (trim line) = None)
    by (unfold listKindOf; rewrite E4, E5; reflexivity).
  destruct (startsWith (trim line) (str "`")); [apply Hpush; exact Hk|].
  destruct (startsWith (trim line) (str "> ")); [apply Hpush; exact Hk|].
  destruct (isImageLine (trim line)).
  { destruct (match_ (trim line) reParens) as [m|]; [apply Hpush | apply Hskip]; exact Hk. }
  destruct (isLinkLine (trim line)).
  { destruct (match_ (trim line) reLink) as [m|]; [apply Hpush | apply Hskip]; exact Hk. }
  apply Hpush; exact Hk.
Qed.

Lemma finish_emitted (st : ParseState) :
  settled st ->
  finish st = if accepted (held st) then Normal (emitted st) else Throw rangeError.
Proof.
  intros [H1 H2]. unfold finish, emitted, pending, held, pushAll.
  destruct (isInList st) eqn:E; simpl.
  - destruct (listType st) as [k|] eqn:Ek; [|exfalso; exact (H1 eq_refl eq_refl)].
    destruct (0 <? Z.of_nat (List.length (currentList st))) eqn:El.
    + simpl. rewrite blockConverters_length. reflexivity.
    + apply Z.ltb_ge in El. destruct (currentList st); [|simpl in El; lia].
      change (accepted (List.length (@nil jsstring))) with (accepted 0).
      rewrite accepted_0. destruct k; simpl; rewrite app_nil_r; reflexivity.
  - rewrite (H2 eq_refl). change (accepted (List.length (@nil jsstring))) with (accepted 0).
    rewrite accepted_0, app_nil_r. reflexivity.
Qed.

Lemma forOf_emitted (lines : list jsstring) (st : ParseState) :
  settled st -> Forall (fun l => trim l = l /\ truthy l = true) lines ->
  (s <- forOf processLine lines st ;; finish s) =
  if listsFit (openList st) (held st) lines
  then Normal (emitted st ++ flat_map lineBlocks lines)
  else Throw rangeError.
Proof.
  revert st. induction lines as [|l lines IH]; intros st Hs H.
  - simpl forOf. simpl bind. rewrite finish_emitted by exact Hs. simpl.
    rewrite app_nil_r. reflexivity.
  - inversion H as [|? ? [Ht Hn] Hrest]; subst.
    pose proof (processLine_emitted st l lines Hs) as Hp. rewrite Ht in Hp.
    specialize (Hp Hn). simpl forOf.
    destruct (processLine st l) as [st1|e].
    + destruct Hp as [Hs1 [He1 Hf]]. simpl bind. rewrite (IH st1 Hs1 Hrest), Hf, He1.
      simpl flat_map. rewrite app_assoc. reflexivity.
    + destruct Hp as [-> ->]. reflexivity.
Qed.

(** The blocks of a document are those of its non-empty trimmed lines,
    when every list fits the engine; else the conversion throws. *)
Lemma parseMarkdown_assembly (markdown : jsstring) :
  parseMarkdown markdown =
  if listsFit None 0 (sourceLines markdown)
  then Normal (flat_map lineBlocks (sourceLines markdown))
  else Throw rangeError.
Proof.
  rewrite parseMarkdown_sourceLines. unfold parseLines.
  rewrite (forOf_emitted (sourceLines markdown) (mkParse [] [] false None)).
  - reflexivity.
  - split; [discriminate | reflexivity].
  - apply Forall_forall. intros l Hl. exact (sourceLines_trimmed markdown l Hl).
Qed.

Lemma parseMarkdown_returned (markdown : jsstring) (blocks : list NotionBlock) :
  parseMarkdown markdown = Normal blocks ->
  listsFit None 0 (sourceLines markdown) = true /\
  blocks = flat_map lineBlocks (sourceLines markdown).
Proof.
  rewrite parseMarkdown_assembly. destruct (listsFit None 0 (sourceLines markdown)).
  - intros H. injection H as <-. split; reflexivity.
  - discriminate.
Qed.

Lemma parseMarkdown_thrown (markdown : jsstring) (e : Thrown) :
  parseMarkdown markdown = Throw e ->
  listsFit None 0 (sourceLines markdown) = false /\ e = rangeError.
Proof.
  rewrite parseMarkdown_assembly. destruct (listsFit None 0 (sourceLines markdown)).
  - discriminate.
  - intros H. injection H as <-. split; reflexivity.
Qed.

(** Lists and their lengths. *)
Lemma listsFit_accepted (lines : list jsstring) (open : option ListType) (n : nat) :
  listsFit open n lines = true -> accepted n = true.
Proof.
  revert open n. induction lines as [|l lines IH]; intros open n; simpl; [auto|].
  destruct (listKindOf l) as [key|].
  - destruct (match open with Some k => ListType_eqb k key | None => false end).
    + intros H. apply IH in H. apply (accepted_less (S n)); [exact H | lia].
    + intros H. apply andb_true_iff in H as [H _]. exact H.
  - intros H. apply andb_true_iff in H as [H _]. exact H.
Qed.

Lemma listsFit_less (lines : list jsstring) (open : option ListType) (n m : nat) :
  listsFit open n lines = true -> (m <= n)%nat -> listsFit open m lines = true.
Proof.
  revert open n m. induction lines as [|l lines IH]; intros open n m; simpl.
  - apply accepted_less.
  - destruct (listKindOf l) as [key|].
    + destruct (match open with Some k => ListType_eqb k key | None => false end).
      * intros H Hm. apply (IH _ (S n)); [exact H | lia].
      * intros H Hm. apply andb_true_iff in H as [H1 H2].
        rewrite (accepted_less n m H1 Hm), H2. reflexivity.
    + intros H Hm. apply andb_true_iff in H as [H1 H2].
      rewrite (accepted_less n m H1 Hm), H2. reflexivity.
Qed.

Lemma listsFit_afresh (lines : list jsstring) (open : option ListType) (n : nat) :
  listsFit open n lines = true -> listsFit None 0 lines = true.
Proof.
  destruct lines as [|l lines]; simpl; [intros _; apply accepted_0|].
  rewrite accepted_0. simpl. destruct (listKindOf l) as [key|].
  - destruct (match open with Some k => ListType_eqb k key | None => false end).
    + intros H. apply (listsFit_less _ _ (S n)); [exact H | lia].
    + intros H. apply andb_true_iff in H as [_ H]. exact H.
  - intros H. apply andb_true_iff in H as [_ H]. exact H.
Qed.

(** The lists of two texts fit when the lists of the joined text do. *)
Lemma listsFit_app (a b : list jsstring) (open : option ListType) (n : nat) :
  listsFit open n (a ++ b) = true ->
  listsFit open n a = true /\ listsFit None 0 b = true.
Proof.
  revert open n. induction a as [|l a IH]; intros open n; simpl.
  - intros H. split; [exact (listsFit_accepted _ _ _ H) | exact (listsFit_afresh _ _ _ H)].
  - destruct (listKindOf l) as [key|].
    + destruct (match open with Some k => ListType_eqb k key | None => false end).
      * apply IH.
      * intros H. apply andb_true_iff in H as [H1 H2]. rewrite H1. apply IH. exact H2.
    + intros H. apply andb_true_iff in H as [H1 H2]. rewrite H1. apply IH. exact H2.
Qed.

(** A document with no more lines than the engine accepts arguments. *)
Lemma listsFit_short (lines : list jsstring) (open : option ListType) (n : nat) :
  accepted (n + List.length lines) = true -> listsFit open n lines = true.
Proof.
  revert open n. induction lines as [|l lines IH]; intros open n H; simpl in *.
  - rewrite Nat.add_0_r in H. exact H.
  - assert (Hn : accepted n = true) by (apply (accepted_less _ _ H); lia).
    assert (H1 : listsFit (Some bulletList) 1 lines = true /\
                 listsFit (Some numberList) 1 lines = true /\
                 listsFit None 0 lines = true).
    { repeat split; apply IH; apply (accepted_less _ _ H); simpl; lia. }
    destruct H1 as [Hb [Hnum H0]].
    destruct (listKindOf l) as [key|].
    + destruct (match open with Some k => ListType_eqb k key | None => false end).
      * apply IH. apply (accepted_less _ _ H). lia.
      * rewrite Hn. destruct key; assumption.
    + rewrite Hn. exact H0.
Qed.

(** A line of no list at the end ends the last list as the end of the
    document does. *)
Lemma listsFit_snoc (lines : list jsstring) (line : jsstring)
    (open : option ListType) (n : nat) :
  listKindOf line = None -> listsFit open n (lines ++ [line]) = listsFit open n lines.
Proof.
  intros Hk. revert open n. induction lines as [|l lines IH]; intros open n; simpl.
  - rewrite Hk, accepted_0. apply andb_true_r.
  - destruct (listKindOf l) as [key|]; rewrite ?IH; reflexivity.
Qed.

(** The document of [n] items. *)
Lemma sourceLines_manyBullets (n : nat) :
  sourceLines (manyBullets n) = repeat (str "- a") n.
Proof.
  induction n as [|n IH]; [reflexivity|].
  change (manyBullets (S n)) with (str "- a" ++ 10%N :: manyBullets n).
  rewrite sourceLines_app_nl, IH. reflexivity.
Qed.

Lemma listsFit_bullets (n m : nat) :
  listsFit (Some bulletList) m (repeat (str "- a") n) = accepted (m + n).
Proof.
  revert m. induction n as [|n IH]; intros m; simpl.
  - rewrite Nat.add_0_r. reflexivity.
  - change (listKindOf (str "- a")) with (Some bulletList). simpl.
    rewrite IH. f_equal. lia.
Qed.

Lemma parseMarkdown_manyBullets (n : nat) :
  parseMarkdown (manyBullets n) =
  if accepted n
  then Normal (repeat (mkBlock (str "bulleted_list_item")
                         (RichTextPayload (parseInlineStyles (str "a")))) n)
  else Throw rangeError.
Proof.
  rewrite parseMarkdown_assembly, sourceLines_manyBullets.
  assert (Hfit : listsFit None 0 (repeat (str "- a") n) = accepted n).
  { destruct n as [|n]; [reflexivity|]. simpl.
    change (listKindOf (str "- a")) with (Some bulletList). cbv iota.
    rewrite accepted_0, listsFit_bullets. reflexivity. }
  rewrite Hfit. destruct (accepted n); [|reflexivity]. f_equal.
  clear Hfit. induction n as [|n IH]; [reflexivity|]. simpl. f_equal. exact IH.
Qed.

(** ** The request adapter *)

(** C7, as the code has it. The gates of [main], in their order: a
    non-empty method other than POST, in any case, gives 405 with the
    header [Allow: POST]; else a non-empty content type that does not
    include [application/json] gives 415; else a missing or empty [md]
    gives 400; all three with an error and no blocks.  Else the
    conversion runs inside [try]: its blocks are returned with 200 as
    [children], and what it throws is returned with 500 and a message
    that embeds the message of the error.  Both happen: a document of
    [n] items of one list is answered with 200 and its [n] blocks when
    the engine accepts [n] arguments, and with 500 and the message of
    the [RangeError] when it does not. *)
Theorem main_gates (args : MainArgs) :
  let method := orElse (__ow_method args) [] in
  let contentType := contentTypeOf args in
  let markdown := orElse (md args) [] in
  (method <> [] /\ toLowerCase method <> str "post" ->
     statusCode (main args) = 405 /\
     getProperty (headers (main args)) (str "Allow") = Some (str "POST") /\
     exists message, body (main args) = ErrorBody message)
  /\
  (method = [] \/ toLowerCase method = str "post" ->
     (contentType <> [] /\ includes contentType (str "application/json") = false ->
        statusCode (main args) = 415 /\
        exists message, body (main args) = ErrorBody message)
     /\
     (contentType = [] \/ includes contentType (str "application/json") = true ->
        (markdown = [] ->
           statusCode (main args) = 400 /\
           exists message, body (main args) = ErrorBody message)
        /\
        (markdown <> [] ->
           main args = respond (parseMarkdown markdown) /\
           (forall blocks,
              parseMarkdown markdown = Normal blocks ->
              main args = mkResponse (ChildrenBody blocks) 200
                            [(str "Content-Type", str "application/json")]) /\
           (forall error,
              parseMarkdown markdown = Throw error ->
              main args
              = mkResponse
                  (ErrorBody (str "Internal Server Error: Maximum call stack size exceeded"))
                  500 [(str "Content-Type", str "application/json")]))))
  /\
  (forall n,
     main (mkArgs (Some (manyBullets (S n))) None None)
     = if accepted (S n)
       then mkResponse
              (ChildrenBody
                 (repeat (mkBlock (str "bulleted_list_item")
                            (RichTextPayload (parseInlineStyles (str "a")))) (S n)))
              200 [(str "Content-Type", str "application/json")]
       else mkResponse
              (ErrorBody (str "Internal Server Error: Maximum call stack size exceeded"))
              500 [(str "Content-Type", str "application/json")])
  /\
  (forall blocks,
     respond (Normal blocks)
     = mkResponse (ChildrenBody blocks) 200 [(str "Content-Type", str "application/json")])
  /\
  (forall message,
     respond (Throw (ErrorObject message))
     = mkResponse (ErrorBody (str "Internal Server Error: " ++ message)) 500
                  [(str "Content-Type", str "application/json")]).
Proof.
  intros method contentType markdown.
  assert (Hm : match __ow_method args with
               | Some m => truthy m && negb (eqb (toLowerCase m) (str "post"))
               | None => false
               end = true <-> (method <> [] /\ toLowerCase method <> str "post")).
  { unfold method. destruct (__ow_method args) as [m|]; simpl.
    - rewrite andb_true_iff, negb_true_iff. split.
      + intros [H1 H2]. split.
        * intros ->. discriminate.
        * intros E. apply eqb_eq in E. congruence.
      + intros [H1 H2]. split.
        * destruct m; [congruence | reflexivity].
        * destruct (eqb (toLowerCase m) (str "post")) eqn:E; [|reflexivity].
          apply eqb_eq in E. contradiction.
    - split; [discriminate | intros [H _]; congruence]. }
  assert (Hct : match match __ow_headers args with
                      | Some h => getProperty h (str "content-type")
                      | None => None
                      end with
                | Some v => if truthy v then v else []
                | None => []
                end = contentType).
  { unfold contentType, contentTypeOf. destruct (__ow_headers args) as [h|]; [|reflexivity].
    destruct (getProperty h (str "content-type")) as [[|c v]|]; reflexivity. }
  assert (Ht : forall s : jsstring, truthy s = true <-> s <> []).
  { intros [|c s]; simpl; split; congruence. }
  split; [|split; [|split; [|split; reflexivity]]].
  - intros H. apply Hm in H. unfold main. rewrite H. simpl. repeat split. eexists. reflexivity.
  - intros H.
    assert (Hgate : match __ow_method args with
                    | Some m => truthy m && negb (eqb (toLowerCase m) (str "post"))
                    | None => false
                    end = false).
    { apply not_true_is_false. intros E.
      apply Hm in E. destruct E as [E1 E2]. destruct H; contradiction. }
    unfold main. rewrite Hgate, Hct. split.
    + intros [H1 H2]. apply Ht in H1. rewrite H1, H2. simpl. split; [reflexivity|].
      eexists. reflexivity.
    + intros Hc.
      assert (Hgate2 : truthy contentType
                       && negb (includes contentType (str "application/json")) = false).
      { destruct Hc as [->| ->]; [reflexivity | apply andb_false_r]. }
      rewrite Hgate2. unfold markdown. split.
      * intros Hmd. destruct (md args) as [[|c v]|]; simpl in Hmd; try discriminate;
          (split; [reflexivity | eexists; reflexivity]).
      * intros Hmd. destruct (md args) as [[|c v]|]; simpl in Hmd; try congruence.
        split; [reflexivity|]. simpl truthy. cbv iota. split.
        -- intros bs Hbs. simpl orElse in Hbs. rewrite Hbs. reflexivity.
        -- intros error He. simpl orElse in He.
           destruct (parseMarkdown_thrown _ _ He) as [_ ->]. rewrite He. reflexivity.
  - intros n. unfold main. cbn [__ow_method __ow_headers md].
    change (truthy (manyBullets (S n))) with true. cbv iota.
    replace (truthy [] && negb (includes [] (str "application/json"))) with false
      by reflexivity.
    rewrite parseMarkdown_manyBullets. destruct (accepted (S n)); reflexivity.
Qed.

(** * More of the converter *)

(** ** The tokenizer, run by run *)

Lemma tokens_eq (pending s : jsstring) :
  tokens pending s =
  match s with
  | [] => plainRun pending
  | c :: s' =>
      match styledSpan s with
      | Some (style, inner, rest) => plainRun pending ++ styledRun style inner :: tokens [] rest
      | None => tokens (pending ++ [c]) s'
      end
  end.
Proof.
  funelim (tokens pending s).
  - reflexivity.
  - rewrite Hm. reflexivity.
  - match goal with E : styledSpan _ = None |- _ => rewrite E end. reflexivity.
Qed.

Lemma flushText_plainRun (st : ScanState) :
  flushText st = segments st ++ plainRun (currentText st).
Proof.
  unfold flushText, plainRun. destruct (truthy (currentText st)); [reflexivity|].
  rewrite app_nil_r. reflexivity.
Qed.

(** One turn of the loop, with the style of the span it finds. *)
Lemma scanStep_span (text : jsstring) (st : ScanState) :
  0 <= i st < length text ->
  match styledSpan (skipn (Z.to_nat (i st)) text) with
  | Some (style, inner, rest) =>
      0 <= i (scanStep text st) /\
      skipn (Z.to_nat (i (scanStep text st))) text = rest /\
      currentText (scanStep text st) = [] /\
      segments (scanStep text st) = flushText st ++ [styledRun style inner]
  | None =>
      exists c s',
        skipn (Z.to_nat (i st)) text = c :: s' /\
        scanStep text st = mkScan (i st + 1) (currentText st ++ [c]) (segments st)
  end.
Proof.
  intros [Hi Hlt].
  pose proof (scanStep_view text st (conj Hi Hlt)) as Hv.
  rewrite styledSpan_matchedSpan in Hv.
  unfold scanStep, styledSpan, orTry, spanOf in *.
  rewrite !opens2_delimited, !opens1_delimited by (assumption || reflexivity).
  change [95%N] with (str "_") in *. change [96%N] with (str "`") in *.
  destruct (delimited (str "**") _) as [[inner rest]|] eqn:E1; simpl.
  { apply styled_delimited; [assumption | discriminate | assumption]. }
  destruct (delimited (str "_") _) as [[inner rest]|] eqn:E2; simpl.
  { apply styled_delimited; [assumption | discriminate | assumption]. }
  destruct (delimited (str "__") _) as [[inner rest]|] eqn:E3; simpl.
  { apply styled_delimited; [assumption | discriminate | assumption]. }
  destruct (delimited (str "~~") _) as [[inner rest]|] eqn:E4; simpl.
  { apply styled_delimited; [assumption | discriminate | assumption]. }
  destruct (delimited (str "`") _) as [[inner rest]|] eqn:E5; simpl.
  { apply styled_delimited; [assumption | discriminate | assumption]. }
  simpl in Hv. destruct Hv as [c [s' [Es Hv]]]. exists c, s'. split; [exact Es|].
  unfold scanStep in Hv.
  rewrite !opens2_delimited, !opens1_delimited in Hv by (assumption || reflexivity).
  change [95%N] with (str "_") in Hv. change [96%N] with (str "`") in Hv.
  rewrite E1, E2, E3, E4, E5 in Hv. exact Hv.
Qed.

(** The loop over the cursor gives the runs of the text. *)
Lemma parseInlineStyles_tokens (text : jsstring) :
  parseInlineStyles text = tokens [] text.
Proof.
  unfold parseInlineStyles.
  set (P := fun st : ScanState =>
    0 <= i st /\
    segments st ++ tokens (currentText st) (skipn (Z.to_nat (i st)) text) = tokens [] text).
  destruct (scanLoop_invariant text P) with (st := mkScan 0 [] []) as [[Hi HP] Hend].
  - intros st [Hi HP] Hlt. pose proof (scanStep_span text st (conj Hi Hlt)) as Hv.
    rewrite (tokens_eq _ (skipn (Z.to_nat (i st)) text)) in HP.
    destruct (styledSpan (skipn (Z.to_nat (i st)) text)) as [[[style inner] rest]|].
    + destruct Hv as [H0 [Hr [Hc Hs]]].
      destruct (skipn (Z.to_nat (i st)) text) as [|c s'] eqn:Es.
      { exfalso. apply (f_equal (@List.length N)) in Es. rewrite List.length_skipn in Es.
        unfold length in Hlt. simpl in Es. lia. }
      unfold P. split; [exact H0|]. rewrite Hr, Hc, Hs, flushText_plainRun.
      rewrite <- HP, <- !app_assoc. reflexivity.
    + destruct Hv as [c [s' [Es ->]]]. rewrite Es in HP. unfold P. simpl. split; [lia|].
      replace (Z.to_nat (i st + 1)) with (1 + Z.to_nat (i st))%nat by lia.
      rewrite <- skipn_skipn, Es. simpl. exact HP.
  - unfold P. split; [simpl; lia | reflexivity].
  - rewrite flushText_plainRun, <- HP.
    rewrite skipn_all2 by (unfold length in Hend; lia).
    rewrite tokens_eq. reflexivity.
Qed.

Lemma styledSpan_marker (s inner rest : jsstring) (style : Style) :
  styledSpan s = Some (style, inner, rest) ->
  exists marker, In (marker, style) styles /\ delimited marker s = Some (inner, rest).
Proof.
  unfold styledSpan, orTry, spanOf, styles. intros H.
  destruct (delimited (str "**") s) as [[a b]|] eqn:E1;
    [exists (str "**"); injection H as <- <- <-; split; [simpl; tauto | assumption]|].
  destruct (delimited (str "_") s) as [[a b]|] eqn:E2;
    [exists (str "_"); injection H as <- <- <-; split; [simpl; tauto | assumption]|].
  destruct (delimited (str "__") s) as [[a b]|] eqn:E3;
    [exists (str "__"); injection H as <- <- <-; split; [simpl; tauto | assumption]|].
  destruct (delimited (str "~~") s) as [[a b]|] eqn:E4;
    [exists (str "~~"); injection H as <- <- <-; split; [simpl; tauto | assumption]|].
  destruct (delimited (str "`") s) as [[a b]|] eqn:E5; [|discriminate].
  exists (str "`"); injection H as <- <- <-; split; [simpl; tauto | assumption].
Qed.

Lemma styledRun_not_plain (marker inner : jsstring) (style : Style) :
  In (marker, style) styles -> isPlain (styledRun style inner) = false.
Proof.
  unfold styles. simpl. intros H.
  repeat (destruct H as [H|H]; [injection H as _ <-; reflexivity|]). contradiction.
Qed.

(** The closing marker is the nearest one. *)
Lemma cutAt_nearest (m s before after : jsstring) :
  m <> [] -> cutAt m s = Some (before, after) ->
  forall x y, before <> x ++ m ++ y.
Proof.
  intros Hm. revert before after. induction s as [|c s IH]; intros before after; simpl.
  - destruct (isPrefix m []) eqn:E; [|discriminate].
    destruct m; [congruence | discriminate].
  - destruct (isPrefix m (c :: s)) eqn:E.
    + intros H. injection H as <- <-. intros x y Hx.
      destruct x; destruct m; try discriminate. congruence.
    + destruct (cutAt m s) as [[b a]|] eqn:Ec; [|discriminate].
      intros H. injection H as <- <-. intros [|d x] y Hx.
      * simpl in Hx. apply cutAt_split in Ec.
        assert (Hp : isPrefix m (c :: s) = true).
        { apply isPrefix_spec. exists (y ++ m ++ a).
          rewrite Ec. change (c :: b ++ m ++ a) with ((c :: b) ++ m ++ a).
          rewrite Hx, <- app_assoc. reflexivity. }
        congruence.
      * simpl in Hx. injection Hx as _ Hx. exact (IH b a eq_refl x y Hx).
Qed.

Lemma tokens_plain_prefix (before s pending : jsstring) :
  (forall k, (k < List.length before)%nat -> matchedSpan (skipn k (before ++ s)) = None) ->
  tokens pending (before ++ s) = tokens (pending ++ before) s.
Proof.
  revert pending. induction before as [|c b IH]; intros pending H.
  - rewrite app_nil_r. reflexivity.
  - simpl app. rewrite tokens_eq.
    pose proof (H 0%nat ltac:(simpl; lia)) as H0. simpl in H0.
    rewrite styledSpan_matchedSpan in H0.
    destruct (styledSpan (c :: b ++ s)) as [[[f a] r]|]; [discriminate|].
    rewrite IH.
    + rewrite <- app_assoc. reflexivity.
    + intros k Hk. apply (H (S k)). simpl. lia.
Qed.

Lemma plainRun_app_styled (pending x : jsstring) (r : RichText) (runs : list RichText) :
  isPlain r = false -> plainRun pending ++ r :: runs <> plainRun x.
Proof.
  intros Hr H. unfold plainRun in H.
  destruct (truthy pending); destruct (truthy x); simpl in H; try discriminate.
  injection H as H _. rewrite H in Hr. discriminate.
Qed.

Lemma tokens_plain_only (s pending x : jsstring) :
  tokens pending s = plainRun x -> forall k, matchedSpan (skipn k s) = None.
Proof.
  revert pending. induction s as [|c s IH]; intros pending H k.
  - rewrite skipn_nil. reflexivity.
  - rewrite tokens_eq in H.
    destruct (styledSpan (c :: s)) as [[[f a] r]|] eqn:E.
    + exfalso. destruct (styledSpan_marker _ _ _ _ E) as [m [Hm _]].
      exact (plainRun_app_styled pending x _ _ (styledRun_not_plain m a f Hm) H).
    + destruct k as [|k]; [|exact (IH _ H k)].
      simpl. rewrite styledSpan_matchedSpan, E. reflexivity.
Qed.

Lemma no_marker_no_span (text : jsstring) :
  forallb (fun c => negb (isMarker c)) text = true ->
  forall k, matchedSpan (skipn k text) = None.
Proof.
  intros H k.
  assert (Hk : forallb (fun c => negb (isMarker c)) (skipn k text) = true).
  { rewrite forallb_forall in *. intros c Hc. apply H.
    rewrite <- (firstn_skipn k text). apply in_or_app. right. exact Hc. }
  destruct (skipn k text) as [|c s]; [reflexivity|].
  simpl in Hk. apply andb_true_iff in Hk as [Hc _]. apply negb_true_iff in Hc.
  unfold isMarker in Hc. repeat (apply orb_false_iff in Hc as [Hc ?]).
  unfold matchedSpan, orTry, delimited. cbn [str map list_ascii_of_string isPrefix].
  change (N_of_ascii "*") with 42%N. change (N_of_ascii "_") with 95%N.
  change (N_of_ascii "~") with 126%N. change (N_of_ascii "`") with 96%N.
  rewrite (N.eqb_sym 42 c), (N.eqb_sym 95 c), (N.eqb_sym 126 c), (N.eqb_sym 96 c).
  repeat match goal with E : N.eqb c _ = false |- _ => rewrite E; clear E end.
  reflexivity.
Qed.

Lemma tokens_shape (n : nat) :
  forall s pending, (List.length s <= n)%nat ->
    Forall (fun r => isPlain r = true -> content r <> []) (tokens pending s) /\
    plainApart (tokens pending s).
Proof.
  assert (Hplain : forall pending,
            Forall (fun r => isPlain r = true -> content r <> []) (plainRun pending) /\
            plainApart (plainRun pending)).
  { intros [|c p]; simpl; [split; [constructor | exact I]|].
    split; [|split; exact I]. constructor; [|constructor]. intros _. discriminate. }
  induction n as [|n IH]; intros s pending Hn.
  - destruct s; [|simpl in Hn; lia]. rewrite tokens_eq. apply Hplain.
  - rewrite tokens_eq. destruct s as [|c s]; [apply Hplain|].
    destruct (styledSpan (c :: s)) as [[[f a] r]|] eqn:E.
    + pose proof (styledSpan_shorter _ _ _ _ E) as Hr.
      destruct (styledSpan_marker _ _ _ _ E) as [m [Hm _]].
      pose proof (styledRun_not_plain m a f Hm) as Hs.
      assert (Hle : (List.length r <= n)%nat) by (simpl in Hr, Hn; lia).
      destruct (IH r [] Hle) as [H1 H2].
      assert (Hcons : plainApart (styledRun f a :: tokens [] r)).
      { simpl. split; [|exact H2]. destruct (tokens [] r); [exact I|].
        rewrite Hs. reflexivity. }
      destruct pending as [|d p]; simpl app.
      * split; [|exact Hcons]. constructor; [|exact H1]. intros Hp. congruence.
      * split.
        -- constructor; [intros _; discriminate|]. constructor; [|exact H1].
           intros Hp. congruence.
        -- split; [|exact Hcons]. rewrite Hs. apply andb_false_r.
    + apply IH. simpl in Hn. lia.
Qed.

Lemma styledSpan_flags (s inner rest : jsstring) (style : Style) :
  styledSpan s = Some (style, inner, rest) ->
  exists marker flags,
    In (marker, flags) markerAnnotations /\
    delimited marker s = Some (inner, rest) /\
    forall text, styledRun style text = mkRichText text flags.
Proof.
  unfold styledSpan, orTry, spanOf, markerAnnotations. intros H.
  destruct (delimited (str "**") s) as [[a b]|] eqn:E1.
  { injection H as <- <- <-. do 2 eexists.
    split; [left; reflexivity|]. split; [exact E1 | reflexivity]. }
  destruct (delimited (str "_") s) as [[a b]|] eqn:E2.
  { injection H as <- <- <-. do 2 eexists.
    split; [right; left; reflexivity|]. split; [exact E2 | reflexivity]. }
  destruct (delimited (str "__") s) as [[a b]|] eqn:E3.
  { pose proof (delimited_underline_italic s) as Hu.
    rewrite E2, E3 in Hu. discriminate Hu. reflexivity. }
  destruct (delimited (str "~~") s) as [[a b]|] eqn:E4.
  { injection H as <- <- <-. do 2 eexists.
    split; [right; right; left; reflexivity|]. split; [exact E4 | reflexivity]. }
  destruct (delimited (str "`") s) as [[a b]|] eqn:E5; [|discriminate].
  injection H as <- <- <-. do 2 eexists.
  split; [right; right; right; left; reflexivity|]. split; [exact E5 | reflexivity].
Qed.

(** X1. The first span of a text: when no span opens in the characters
    of [before] and a span opens at [s], the runs of [before ++ s] are
    the plain run of [before] (none when it is empty), the run of the
    span, and the runs of what follows the closing marker, tokenized
    afresh.  The run of the span has the one flag of its marker set:
    bold for [**], italic for [_], strikethrough for [~~], code for the
    backquote; the plain run has none; the colour of both is
    ["default"].  The text of the span is taken as it is: it lies
    between the opening marker and the nearest closing one, so it holds
    no occurrence of the marker, and whatever other markers it holds
    stay in it. *)
Theorem parseInlineStyles_first_span (before s inner rest : jsstring) :
  (forall k, (k < List.length before)%nat -> matchedSpan (skipn k (before ++ s)) = None) ->
  matchedSpan s = Some (inner, rest) ->
  exists marker flags,
    In (marker, flags) markerAnnotations /\
    s = marker ++ inner ++ marker ++ rest /\
    (forall x y, inner <> x ++ marker ++ y) /\
    parseInlineStyles (before ++ s)
    = (if truthy before then [mkRichText before plainAnnotations] else [])
      ++ mkRichText inner flags :: parseInlineStyles rest.
Proof.
  intros Hb Hm. rewrite styledSpan_matchedSpan in Hm.
  destruct (styledSpan s) as [[[style a] r]|] eqn:Hs; [|discriminate].
  injection Hm as -> ->.
  destruct (styledSpan_flags _ _ _ _ Hs) as [m [flags [Hin [Hd Hrun]]]].
  exists m, flags. split; [exact Hin|]. split; [apply delimited_split; exact Hd|]. split.
  - pose proof Hd as Hc. unfold delimited in Hc. destruct (isPrefix m s); [|discriminate].
    apply (cutAt_nearest m (skipn (List.length m) s) inner rest); [|exact Hc].
    unfold markerAnnotations in Hin. simpl in Hin.
    repeat (destruct Hin as [Hin|Hin]; [injection Hin as <- _; discriminate|]). contradiction.
  - rewrite !parseInlineStyles_tokens, tokens_plain_prefix by exact Hb.
    rewrite tokens_eq. destruct s as [|c s']; [discriminate Hs|]. rewrite Hs.
    simpl app. rewrite Hrun. destruct before; reflexivity.
Qed.

(** The theorem on a bold span behind two characters; the underscore
    inside the span stays. *)
Lemma parseInlineStyles_first_span_witness :
  exists marker flags,
    In (marker, flags) markerAnnotations /\
    str "**b_c** d" = marker ++ str "b_c" ++ marker ++ str " d" /\
    (forall x y, str "b_c" <> x ++ marker ++ y) /\
    parseInlineStyles (str "a " ++ str "**b_c** d")
    = (if truthy (str "a ") then [mkRichText (str "a ") plainAnnotations] else [])
      ++ mkRichText (str "b_c") flags :: parseInlineStyles (str " d").
Proof.
  apply (parseInlineStyles_first_span (str "a ") (str "**b_c** d") (str "b_c") (str " d")).
  - intros [|[|k]] Hk; [reflexivity | reflexivity | simpl in Hk; lia].
  - reflexivity.
Defined.

(** X2. The tokenizer gives back the whole text as one plain run (and
    no run for the empty text) exactly when no span opens at any
    position of the text; a text with none of the characters [*], [_],
    [~] and backquote is of this kind. *)
Theorem parseInlineStyles_no_span (text : jsstring) :
  (parseInlineStyles text = plainRun text <->
   forall k, matchedSpan (skipn k text) = None) /\
  (forallb (fun c => negb (isMarker c)) text = true ->
   parseInlineStyles text = plainRun text).
Proof.
  assert (H : (forall k, matchedSpan (skipn k text) = None) ->
              parseInlineStyles text = plainRun text).
  { intros Hk. rewrite parseInlineStyles_tokens.
    rewrite <- (app_nil_r text) at 1. rewrite tokens_plain_prefix.
    - rewrite tokens_eq. reflexivity.
    - intros k _. rewrite app_nil_r. apply Hk. }
  split; [split; [|exact H] | intros Hm; apply H, no_marker_no_span; exact Hm].
  rewrite parseInlineStyles_tokens. apply tokens_plain_only.
Qed.

(** X3. In what the tokenizer returns, a plain run is never empty and
    no two plain runs follow each other: pending plain text is flushed
    only before a span and at the end. *)
Theorem parseInlineStyles_plain_runs (text : jsstring) :
  Forall (fun r => isPlain r = true -> content r <> []) (parseInlineStyles text) /\
  plainApart (parseInlineStyles text).
Proof.
  rewrite parseInlineStyles_tokens. apply (tokens_shape (List.length text)). lia.
Qed.

(** ** The converter, line by line *)

Lemma lineBlocks_length (line : jsstring) : (List.length (lineBlocks line) <= 1)%nat.
Proof.
  unfold lineBlocks.
  repeat match goal with
  | |- context [if ?c then _ else _] => destruct c
  | |- context [match ?o with Some _ => _ | None => _ end] => destruct o
  end; simpl; lia.
Qed.

(** X4. The converter works line by line.  It returns exactly when
    every list of the document has as many items as the engine accepts
    arguments at most, and then the blocks are those of the non-empty
    trimmed lines, in order, each line giving at most one block; so the
    list that is open while the lines are read has no other effect on
    the result.  Else it throws the [RangeError] of the spread call.  A
    document with no more non-empty lines than the engine accepts
    arguments is one that returns. *)
Theorem parseMarkdown_line_by_line (markdown : jsstring) :
  parseMarkdown markdown
  = (if listsFit None 0 (sourceLines markdown)
     then Normal (flat_map lineBlocks (sourceLines markdown))
     else Throw (ErrorObject (str "Maximum call stack size exceeded"))) /\
  (forall line, (List.length (lineBlocks line) <= 1)%nat) /\
  (accepted (List.length (sourceLines markdown)) = true ->
   listsFit None 0 (sourceLines markdown) = true).
Proof.
  split; [apply parseMarkdown_assembly|]. split; [apply lineBlocks_length|].
  intros H. apply listsFit_short. exact H.
Qed.

Lemma manyBullets_app (n m : nat) :
  sourceLines (manyBullets n ++ nl ++ manyBullets m) = sourceLines (manyBullets (n + m)).
Proof.
  unfold nl. simpl app. rewrite sourceLines_app_nl, !sourceLines_manyBullets.
  symmetry. apply repeat_app.
Qed.

(** X5. When the conversion of two texts joined by a line feed returns,
    the conversion of each text returns, and the blocks of the joined
    text are the blocks of the first followed by the blocks of the
    second: no line is classified with regard to the lines around it.
    The other way round fails: two lists that the engine accepts can
    join into one that it does not accept. *)
Theorem parseMarkdown_concat (a b : jsstring) (blocks : list NotionBlock) :
  parseMarkdown (a ++ nl ++ b) = Normal blocks ->
  (exists first second,
     parseMarkdown a = Normal first /\ parseMarkdown b = Normal second /\
     blocks = first ++ second) /\
  (forall n m,
     accepted n = true -> accepted m = true -> accepted (n + m) = false ->
     (exists first, parseMarkdown (manyBullets n) = Normal first) /\
     (exists second, parseMarkdown (manyBullets m) = Normal second) /\
     parseMarkdown (manyBullets n ++ nl ++ manyBullets m)
     = Throw (ErrorObject (str "Maximum call stack size exceeded"))).
Proof.
  intros H. split.
  - apply parseMarkdown_returned in H as [Hfit ->]. unfold nl in *. simpl app in *.
    rewrite sourceLines_app_nl in *. apply listsFit_app in Hfit as [Ha Hb].
    exists (flat_map lineBlocks (sourceLines a)), (flat_map lineBlocks (sourceLines b)).
    rewrite !parseMarkdown_assembly, Ha, Hb, flat_map_app. repeat split.
  - intros n m Hn Hm Hnm. rewrite !parseMarkdown_manyBullets, Hn, Hm.
    split; [eexists; reflexivity|]. split; [eexists; reflexivity|].
    rewrite parseMarkdown_sourceLines, manyBullets_app, <- parseMarkdown_sourceLines.
    rewrite parseMarkdown_manyBullets, Hnm. reflexivity.
Qed.

Lemma sourceLines_withCRLF (pre s : jsstring) :
  sourceLines (pre ++ withCRLF s) = sourceLines (pre ++ s).
Proof.
  revert pre. induction s as [|c s IH]; intros pre; [reflexivity|].
  simpl. destruct (N.eqb c 10) eqn:E.
  - apply N.eqb_eq in E. subst c.
    change (pre ++ 13%N :: 10%N :: withCRLF s) with (pre ++ [13%N] ++ 10%N :: withCRLF s).
    rewrite app_assoc, !sourceLines_app_nl.
    rewrite (sourceLines_snoc_blank pre 13) by reflexivity.
    f_equal. apply (IH []).
  - change (pre ++ c :: withCRLF s) with (pre ++ [c] ++ withCRLF s).
    change (pre ++ c :: s) with (pre ++ [c] ++ s).
    rewrite !app_assoc. apply IH.
Qed.

(** X6. White space the converter does not see: Windows line ends in
    place of line feeds, white space around the document, white space at
    the beginning or at the end of a line (so indentation), and blank
    lines. *)
Theorem parseMarkdown_white_space (markdown : jsstring) :
  parseMarkdown (withCRLF markdown) = parseMarkdown markdown /\
  (forall before after,
     blank before = true -> blank after = true ->
     parseMarkdown (before ++ markdown ++ after) = parseMarkdown markdown) /\
  (forall a b w,
     blank w = true ->
     parseMarkdown (a ++ nl ++ w ++ b) = parseMarkdown (a ++ nl ++ b) /\
     parseMarkdown (a ++ w ++ nl ++ b) = parseMarkdown (a ++ nl ++ b)).
Proof.
  split; [|split].
  - rewrite !parseMarkdown_sourceLines. f_equal. apply (sourceLines_withCRLF []).
  - intros before after Hb Ha. rewrite !parseMarkdown_sourceLines. f_equal.
    rewrite sourceLines_blank_l by exact Hb. apply sourceLines_blank_r. exact Ha.
  - intros a b w Hw. rewrite !parseMarkdown_sourceLines. unfold nl. simpl app. split; f_equal.
    + rewrite !sourceLines_app_nl. f_equal. apply sourceLines_blank_l. exact Hw.
    + rewrite app_assoc, !sourceLines_app_nl. f_equal. apply sourceLines_blank_r. exact Hw.
Qed.

(** X7. A document of white space only has no block; as a request body
    it is not refused as missing (it is a non-empty string) but answered
    with status 200 and no children. *)
Theorem parseMarkdown_blank (markdown : jsstring) :
  blank markdown = true ->
  parseMarkdown markdown = Normal [] /\
  (markdown <> [] ->
   main (mkArgs (Some markdown) None None)
   = mkResponse (ChildrenBody []) 200 [(str "Content-Type", str "application/json")]).
Proof.
  intros H.
  assert (Hp : parseMarkdown markdown = Normal []).
  { rewrite parseMarkdown_sourceLines, sourceLines_blank by exact H. reflexivity. }
  split; [exact Hp|]. intros Hne. unfold main. simpl.
  destruct markdown as [|c m]; [congruence|]. simpl truthy. cbv iota.
  rewrite Hp. reflexivity.
Qed.

Lemma lineBlocks_one (line : jsstring) :
  noLineTerminator line = true -> List.length (lineBlocks line) = 1%nat.
Proof.
  intros Hlt. unfold lineBlocks.
  destruct (startsWith line (str "# ")); [reflexivity|].
  destruct (startsWith line (str "## ")); [reflexivity|].
  destruct (startsWith line (str "### ")); [reflexivity|].
  destruct (startsWith line (str "* ") || startsWith line (str "- ")); [reflexivity|].
  destruct (test reNumbered line); [reflexivity|].
  destruct (startsWith line (str "`")); [reflexivity|].
  destruct (startsWith line (str "> ")); [reflexivity|].
  destruct (isImageLine line) eqn:Ei.
  { destruct (imageTest_matches line Hlt Ei) as [url Hu].
    pose proof (match_reParens line) as Hm. rewrite Hu in Hm.
    destruct Hm as [whole ->]. reflexivity. }
  destruct (isLinkLine line) eqn:El; [|reflexivity].
  destruct (linkTest_matches line Hlt El)
    as [rest [text [s2 [url [after [_ [_ [_ [whole ->]]]]]]]]].
  reflexivity.
Qed.

(** X8. What the conversion of a document returns has at most as many
    blocks as the document has non-empty lines, and exactly as many when
    no line holds a carriage return or a line or paragraph separator:
    then the pattern of an image or link line always matches. *)
Theorem parseMarkdown_block_count (markdown : jsstring) (blocks : list NotionBlock) :
  parseMarkdown markdown = Normal blocks ->
  (List.length blocks <= List.length (sourceLines markdown))%nat /\
  (forallb noLineTerminator (sourceLines markdown) = true ->
   List.length blocks = List.length (sourceLines markdown)).
Proof.
  intros Hr. apply parseMarkdown_returned in Hr as [_ ->]. split.
  - induction (sourceLines markdown) as [|l ls IH]; simpl; [lia|].
    rewrite List.length_app. pose proof (lineBlocks_length l). lia.
  - induction (sourceLines markdown) as [|l ls IH]; simpl; [reflexivity|].
    intros H. apply andb_true_iff in H as [Hl Hls].
    rewrite List.length_app, (lineBlocks_one l Hl), (IH Hls). reflexivity.
Qed.

(** X9. Every block that the conversion of a document returns has one
    of ten type tags; no block is a video or a divider: [createVideo]
    and [createDivider] are never called. *)
Theorem parseMarkdown_types (markdown : jsstring) (blocks : list NotionBlock) :
  parseMarkdown markdown = Normal blocks ->
  Forall (fun b => In (type b) writtenTypes) blocks /\
  Forall (fun b => type b <> str "video" /\ type b <> str "divider") blocks.
Proof.
  intros Hr. apply parseMarkdown_returned in Hr as [_ ->].
  assert (H : forall line, Forall (fun b => In (type b) writtenTypes) (lineBlocks line)).
  { intros line. unfold lineBlocks.
    repeat match goal with
    | |- context [if ?c then _ else _] => destruct c
    | |- context [match ?o with Some _ => _ | None => _ end] => destruct o
    end;
    first [ apply Forall_nil
          | apply Forall_cons; [cbv [writtenTypes In]; simpl type; auto 12 | apply Forall_nil] ]. }
  assert (Hall : Forall (fun b => In (type b) writtenTypes)
                        (flat_map lineBlocks (sourceLines markdown))).
  { induction (sourceLines markdown) as [|l ls IH]; simpl; [constructor|].
    apply Forall_app. split; [apply H | exact IH]. }
  split; [exact Hall|].
  eapply Forall_impl; [|exact Hall]. intros b Hb. simpl in Hb.
  split; intros E; rewrite E in Hb; simpl in Hb;
    repeat (destruct Hb as [Hb|Hb]; [discriminate Hb|]); exact Hb.
Qed.

(** ** Numbered lines *)

Lemma dropWhile_prefix (f : N -> bool) (s : jsstring) :
  exists p, forallb f p = true /\ s = p ++ dropWhile f s /\
            match dropWhile f s with c :: _ => f c = false | [] => True end.
Proof.
  induction s as [|c s [p [Hp [Hs Hd]]]]; simpl.
  - exists []. repeat split.
  - destruct (f c) eqn:E.
    + exists (c :: p). simpl. rewrite E, Hp. repeat split; [f_equal; exact Hs | exact Hd].
    + exists []. repeat split. exact E.
Qed.

Lemma dropWhile_app_stop (f : N -> bool) (p : jsstring) (c : N) (s : jsstring) :
  forallb f p = true -> f c = false -> dropWhile f (p ++ c :: s) = c :: s.
Proof.
  induction p as [|d p IH]; simpl; intros Hp Hc.
  - rewrite Hc. reflexivity.
  - apply andb_true_iff in Hp as [Hd Hp]. rewrite Hd. apply IH; assumption.
Qed.

Lemma numberedText_spec (line rest : jsstring) :
  numberedText line = Some rest <->
  exists digits w,
    digits <> [] /\ forallb isDigit digits = true /\ isWhiteSpace w = true /\
    line = digits ++ 46%N :: w :: rest.
Proof.
  split.
  - unfold numberedText. destruct line as [|c s]; [discriminate|].
    destruct (isDigit c) eqn:Ec; [|discriminate].
    destruct (dropWhile_prefix isDigit (c :: s)) as [p [Hp [Hs _]]].
    destruct (dropWhile isDigit (c :: s)) as [|d [|w r]]; try discriminate.
    destruct (N.eqb d 46) eqn:Ed; [|discriminate].
    destruct (isWhiteSpace w) eqn:Ew; [|discriminate].
    simpl. intros H. injection H as <-. apply N.eqb_eq in Ed. subst d.
    exists p, w. repeat split; try assumption.
    intros ->. simpl in Hs. injection Hs as -> _. discriminate Ec.
  - intros [digits [w [Hne [Hd [Hw ->]]]]]. unfold numberedText.
    rewrite dropWhile_app_stop by (exact Hd || reflexivity).
    destruct digits as [|c ds]; [congruence|]. simpl in Hd |- *.
    apply andb_true_iff in Hd as [Hc _]. rewrite Hc, Hw. reflexivity.
Qed.

(** The greedy [\d*] followed by [\.\s]: giving digits back never helps. *)
Lemma run_digits (s : jsstring) (pos : nat) :
  run [Star Digit; One (Lit 46); One Space] s pos noCaptures =
  match dropWhile isDigit s with
  | d :: w :: rest =>
      if N.eqb d 46 && isWhiteSpace w
      then Some (noCaptures, (pos + List.length s - List.length rest)%nat)
      else None
  | _ => None
  end.
Proof.
  revert pos. induction s as [|c s IH]; intros pos.
  - reflexivity.
  - rewrite run_Star_cons. change (accepts Digit c) with (isDigit c).
    change (consume c noCaptures) with noCaptures.
    cbn [dropWhile]. destruct (isDigit c) eqn:Ec.
    + rewrite IH.
      assert (Hback : run [One (Lit 46); One Space] (c :: s) pos noCaptures = None).
      { rewrite run_One_cons. unfold accepts.
        replace (N.eqb c 46) with false; [reflexivity|].
        symmetry. apply N.eqb_neq. unfold isDigit in Ec.
        apply andb_true_iff in Ec as [Ec _]. apply N.leb_le in Ec. lia. }
      destruct (dropWhile isDigit s) as [|d [|w rest]]; try exact Hback.
      destruct (N.eqb d 46 && isWhiteSpace w); [|exact Hback].
      f_equal. f_equal. simpl List.length. lia.
    + rewrite run_One_cons. unfold accepts at 1.
      destruct (N.eqb c 46); simpl; [|destruct s; reflexivity].
      destruct s as [|w rest]; [reflexivity|].
      destruct (isWhiteSpace w); [|reflexivity].
      simpl. f_equal. f_equal. lia.
Qed.

Lemma exec_reNumbered (line : jsstring) :
  exec reNumbered line =
  match numberedText line with
  | Some rest => Some (mkFound 0 (List.length line - List.length rest) [])
  | None => None
  end.
Proof.
  unfold exec, reNumbered, numberedText. destruct line as [|c s]; [reflexivity|].
  cbn [search].
  assert (Hrun : run [Start; Plus Digit; One (Lit 46); One Space] (c :: s) 0 noCaptures
                 = if isDigit c
                   then run [Star Digit; One (Lit 46); One Space] s 1 noCaptures
                   else None) by reflexivity.
  rewrite Hrun, search_Start_later. cbn [dropWhile].
  destruct (isDigit c); [|reflexivity].
  rewrite run_digits.
  destruct (dropWhile isDigit s) as [|d [|w rest]]; try reflexivity.
  destruct (N.eqb d 46 && isWhiteSpace w); reflexivity.
Qed.

Lemma test_reNumbered (line : jsstring) :
  test reNumbered line = isSome (numberedText line).
Proof.
  unfold test. rewrite exec_reNumbered. destruct (numberedText line); reflexivity.
Qed.

Lemma replace_reNumbered (line : jsstring) :
  replace line reNumbered [] = orElse (numberedText line) line.
Proof.
  unfold replace. rewrite exec_reNumbered.
  destruct (numberedText line) as [rest|] eqn:E; [|reflexivity].
  apply numberedText_spec in E as [digits [w [_ [_ [_ ->]]]]]. simpl.
  change (digits ++ 46%N :: w :: rest) with (digits ++ [46%N; w] ++ rest).
  rewrite app_assoc.
  replace (List.length ((digits ++ [46%N; w]) ++ rest) - List.length rest)%nat
    with (List.length (digits ++ [46%N; w]) + 0)%nat
    by (rewrite (List.length_app (digits ++ [46%N; w])); lia).
  rewrite skipn_app, skipn_all2 by lia.
  replace (List.length (digits ++ [46%N; w]) + 0 - List.length (digits ++ [46%N; w]))%nat
    with 0%nat by lia.
  reflexivity.
Qed.

Lemma processLine_numbered (st : ParseState) (line rest : jsstring) :
  numberedText (trim line) = Some rest ->
  processLine st line = listItem numberList rest st.
Proof.
  intros H. unfold processLine.
  rewrite test_reNumbered, replace_reNumbered, H.
  unfold numberedText in H. destruct (trim line) as [|c s]; [discriminate|].
  destruct (isDigit c) eqn:Ec; [|discriminate].
  unfold isDigit in Ec. apply andb_true_iff in Ec as [E1 E2].
  apply N.leb_le in E1. apply N.leb_le in E2.
  unfold startsWith. cbn [str map list_ascii_of_string isPrefix truthy negb].
  change (N_of_ascii "#") with 35%N. change (N_of_ascii "*") with 42%N.
  change (N_of_ascii "-") with 45%N.
  replace (N.eqb 35 c) with false by (symmetry; apply N.eqb_neq; lia).
  replace (N.eqb 42 c) with false by (symmetry; apply N.eqb_neq; lia).
  replace (N.eqb 45 c) with false by (symmetry; apply N.eqb_neq; lia).
  reflexivity.
Qed.

(** X10. The rule of numbered lists.  The pattern [^\d+\.\s] matches a
    line exactly when the line opens with one or more digits, a full
    stop and one character of white space; the replacement leaves what
    follows them, and leaves any other line as it is.  Such a line,
    trimmed, is an item of a numbered list with this text: the number
    itself is dropped. *)
Theorem numbered_rule :
  (forall line rest,
     numberedText line = Some rest <->
     exists digits w,
       digits <> [] /\ forallb isDigit digits = true /\ isWhiteSpace w = true /\
       line = digits ++ 46%N :: w :: rest) /\
  (forall line,
     test reNumbered line = isSome (numberedText line) /\
     replace line reNumbered [] = orElse (numberedText line) line) /\
  (forall st line rest,
     numberedText (trim line) = Some rest ->
     processLine st line = listItem numberList rest st).
Proof.
  split; [exact numberedText_spec|]. split.
  - intros line. split; [apply test_reNumbered | apply replace_reNumbered].
  - exact processLine_numbered.
Qed.

(** ** Code lines *)

Lemma slice_inside (s : jsstring) : slice s 1 (-1) = removelast (tl s).
Proof.
  destruct s as [|c t]; [reflexivity|]. destruct t as [|d t]; [reflexivity|].
  unfold slice, relIndex, length. simpl tl.
  replace (1 <? 0) with false by reflexivity. replace (-1 <? 0) with true by reflexivity.
  set (n := List.length (d :: t)).
  replace (Z.of_nat (List.length (c :: d :: t))) with (Z.of_nat n + 1)
    by (unfold n; simpl List.length; lia).
  assert (Hn : (1 <= n)%nat) by (unfold n; simpl; lia).
  replace (Z.to_nat (Z.min 1 (Z.of_nat n + 1))) with 1%nat by lia.
  replace (Z.to_nat (Z.max (Z.of_nat n + 1 + -1) 0 - Z.min 1 (Z.of_nat n + 1)))
    with (Nat.pred n) by lia.
  simpl skipn. unfold n. symmetry. apply removelast_firstn_len.
Qed.

Lemma processLine_code (st : ParseState) (line : jsstring) :
  startsWith (trim line) (str "`") = true ->
  processLine st line =
  (st' <- closeList st ;;
   Normal (push st' (createCodeBlock (removelast (tl (trim line))) None))).
Proof.
  intros H. unfold processLine. rewrite slice_inside.
  unfold startsWith in H. change (str "`") with [96%N] in H.
  apply isPrefix_cons in H as [r [Hl _]]. rewrite Hl.
  assert (Hn : test reNumbered (96%N :: r) = false)
    by (apply test_reNumbered_first; reflexivity).
  rewrite Hn. reflexivity.
Qed.

(** X11. The rule of code lines.  Every line that, trimmed, opens with a
    backquote is a code block of its own, closed or not: its one run is
    the line without its first and its last character, not tokenized,
    and its language is ["javascript"].  So a fence of three backquotes
    is a code block that holds one backquote, and the lines between two
    fences are converted like any other lines. *)
Theorem code_rule (st : ParseState) (line : jsstring) :
  startsWith (trim line) (str "`") = true ->
  processLine st line =
  (st' <- closeList st ;;
   Normal (push st'
     (createBlock (str "code")
        (CodePayload [createRichText (removelast (tl (trim line))) noAnnotations]
                     (str "javascript"))))) /\
  forall body,
    parseMarkdown (str "```" ++ nl ++ body ++ nl ++ str "```") =
    (inside <- parseMarkdown body ;;
     Normal (createCodeBlock (str "`") None :: inside ++ [createCodeBlock (str "`") None])).
Proof.
  intros H. split; [exact (processLine_code st line H)|].
  intros body. rewrite !parseMarkdown_assembly. unfold nl.
  change (str "```" ++ [10%N] ++ body ++ [10%N] ++ str "```")
    with (str "```" ++ 10%N :: (body ++ 10%N :: str "```")).
  rewrite !sourceLines_app_nl, !flat_map_app.
  change (sourceLines (str "```")) with [str "```"].
  assert (Hfit : listsFit None 0 ([str "```"] ++ sourceLines body ++ [str "```"])
                 = listsFit None 0 (sourceLines body)).
  { change ([str "```"] ++ sourceLines body ++ [str "```"])
      with (str "```" :: (sourceLines body ++ [str "```"])).
    cbn [listsFit]. change (listKindOf (str "```")) with (@None ListType). cbv iota.
    rewrite accepted_0, listsFit_snoc by reflexivity. reflexivity. }
  rewrite Hfit. destruct (listsFit None 0 (sourceLines body)); reflexivity.
Qed.

(** ** Headings *)

Lemma trim_length (s : jsstring) : (List.length (trim s) <= List.length s)%nat.
Proof.
  destruct (trim_split s) as [w1 [w2 [_ [_ E]]]].
  rewrite E at 2. rewrite !List.length_app. lia.
Qed.


Lemma trimmed_last (s : jsstring) (c : N) :
  trim (s ++ [c]) = s ++ [c] -> isWhiteSpace c = false.
Proof.
  intros H. destruct (isWhiteSpace c) eqn:E; [|reflexivity]. exfalso.
  rewrite trim_blank_r in H by (simpl; rewrite E; reflexivity).
  pose proof (trim_length s) as Hl. rewrite H, List.length_app in Hl. simpl in Hl. lia.
Qed.


(** ** What the blocks hold *)

Lemma tokens_nonempty (s pending : jsstring) :
  s <> [] \/ pending <> [] -> tokens pending s <> [].
Proof.
  revert pending. induction s as [|c s IH]; intros pending H; rewrite tokens_eq.
  - destruct H as [H|H]; [congruence|]. destruct pending; [congruence | discriminate].
  - destruct (styledSpan (c :: s)) as [[[f a] r]|].
    + intros E. apply app_eq_nil in E as [_ E]. discriminate E.
    + apply IH. right. intros E. apply app_eq_nil in E as [_ E]. discriminate E.
Qed.

Lemma parseInlineStyles_nonempty (text : jsstring) :
  text <> [] -> parseInlineStyles text <> [].
Proof.
  intros H. rewrite parseInlineStyles_tokens. apply tokens_nonempty. left. exact H.
Qed.

(** Behind a marker that ends with a space, a trimmed line has text. *)
Lemma after_marker (q line : jsstring) :
  startsWith line (q ++ [32%N]) = true -> trim line = line ->
  parseInlineStyles (sliceFrom line (length (q ++ [32%N]))) <> [].
Proof.
  intros Hs Ht. unfold startsWith in Hs. apply isPrefix_spec in Hs as [r ->].
  rewrite sliceFrom_app. apply parseInlineStyles_nonempty. intros ->.
  rewrite app_nil_r in Ht. apply trimmed_last in Ht. discriminate Ht.
Qed.

Lemma lineBlocks_wellFilled (line : jsstring) :
  trim line = line -> truthy line = true -> Forall wellFilled (lineBlocks line).
Proof.
  intros Ht Hne. unfold lineBlocks.
  destruct (startsWith line (str "# ")) eqn:E1.
  { constructor; [|constructor]. exact (after_marker (str "#") line E1 Ht). }
  destruct (startsWith line (str "## ")) eqn:E2.
  { constructor; [|constructor]. exact (after_marker (str "##") line E2 Ht). }
  destruct (startsWith line (str "### ")) eqn:E3.
  { constructor; [|constructor]. exact (after_marker (str "###") line E3 Ht). }
  destruct (startsWith line (str "* ") || startsWith line (str "- ")) eqn:E4.
  { constructor; [|constructor]. apply orb_true_iff in E4 as [E4|E4].
    - exact (after_marker (str "*") line E4 Ht).
    - exact (after_marker (str "-") line E4 Ht). }
  destruct (test reNumbered line) eqn:E5.
  { constructor; [|constructor]. unfold richBlock, wellFilled. simpl.
    rewrite test_reNumbered in E5. rewrite replace_reNumbered.
    destruct (numberedText line) as [rest|] eqn:En; [|discriminate]. simpl.
    apply parseInlineStyles_nonempty. intros ->.
    apply numberedText_spec in En as [digits [w [_ [_ [Hw Hl]]]]].
    rewrite Hl in Ht.
    change (digits ++ [46%N; w]) with (digits ++ [46%N] ++ [w]) in Ht.
    rewrite app_assoc in Ht. apply trimmed_last in Ht. congruence. }
  destruct (startsWith line (str "`")).
  { constructor; [|constructor]. split; reflexivity. }
  destruct (startsWith line (str "> ")) eqn:E7.
  { constructor; [|constructor]. exact (after_marker (str ">") line E7 Ht). }
  destruct (isImageLine line).
  { destruct (match_ line reParens); repeat constructor. }
  destruct (isLinkLine line).
  { destruct (match_ line reLink); repeat constructor. }
  constructor; [|constructor]. apply parseInlineStyles_nonempty.
  destruct line; [discriminate|discriminate].
Qed.

(** X13. No block that the conversion of a document returns has an
    empty rich text: behind the marker of a heading, list item or quote
    a trimmed line always has text; and every code block has exactly one
    run and the language ["javascript"]. *)
Theorem parseMarkdown_well_filled (markdown : jsstring) (blocks : list NotionBlock) :
  parseMarkdown markdown = Normal blocks -> Forall wellFilled blocks.
Proof.
  intros Hr. apply parseMarkdown_returned in Hr as [_ ->].
  assert (H : forall line, In line (sourceLines markdown) ->
                           trim line = line /\ truthy line = true)
    by (intros line; apply sourceLines_trimmed).
  induction (sourceLines markdown) as [|l ls IH]; simpl; [constructor|].
  apply Forall_app. split.
  - destruct (H l (or_introl eq_refl)) as [H1 H2]. apply lineBlocks_wellFilled; assumption.
  - apply IH. intros line Hl. apply H. right. exact Hl.
Qed.

(** The rich text of a block of a line comes from the tokenizer. *)
Lemma lineBlocks_rich_text (line : jsstring) (b : NotionBlock) :
  In b (lineBlocks line) ->
  match payload b with
  | RichTextPayload rich_text => exists text, rich_text = parseInlineStyles text
  | _ => True
  end.
Proof.
  unfold lineBlocks.
  repeat match goal with
  | |- context [if ?c then _ else _] => destruct c
  | |- context [match ?o with Some _ => _ | None => _ end] => destruct o
  end;
  simpl; intros H; try contradiction; destruct H as [<-|[]]; simpl;
    try exact I; eexists; reflexivity.
Qed.

(** X14. No block that the conversion of a document returns is the
    spacer of [createSpace], a paragraph of one empty plain run:
    [createSpace] is never called, and no line gives such a paragraph,
    since a plain run is never empty. *)
Theorem parseMarkdown_no_space (markdown : jsstring) (blocks : list NotionBlock) :
  parseMarkdown markdown = Normal blocks ->
  Forall (fun b => forall count, ~ In b (createSpace count)) blocks.
Proof.
  intros Hr. apply parseMarkdown_returned in Hr as [_ ->].
  apply Forall_forall. intros b Hb count Hs. apply repeat_spec in Hs. subst b.
  apply in_flat_map in Hb as [line [_ Hb]].
  apply lineBlocks_rich_text in Hb. simpl in Hb. destruct Hb as [text Ht].
  destruct (tokens_shape (List.length text) text [] (le_n _)) as [Hne _].
  rewrite <- parseInlineStyles_tokens, <- Ht in Hne.
  inversion Hne as [|r rs Hr _]; subst. apply Hr; reflexivity.
Qed.

(** ** The two versions of the adapter *)

(** X15. What every answer of [main] has: the status is 200, 400, 405,
    415 or 500; it is 200 exactly when the body holds children; the
    header [Content-Type] is [application/json]; and the header [Allow]
    is [POST] exactly on status 405.  The status is 500 only for a
    document with a list of more items than the engine accepts
    arguments, and the message is then that of the [RangeError]; a
    document of so many items of one list is answered with 500. *)
Theorem main_status (args : MainArgs) :
  In (statusCode (main args)) [200; 400; 405; 415; 500] /\
  (statusCode (main args) = 200 <-> exists blocks, body (main args) = ChildrenBody blocks) /\
  getProperty (headers (main args)) (str "Content-Type") = Some (str "application/json") /\
  (getProperty (headers (main args)) (str "Allow") = Some (str "POST")
   <-> statusCode (main args) = 405) /\
  (statusCode (main args) = 500 ->
   body (main args)
   = ErrorBody (str "Internal Server Error: Maximum call stack size exceeded") /\
   exists markdown,
     md args = Some markdown /\ listsFit None 0 (sourceLines markdown) = false) /\
  (forall n,
     accepted n = false ->
     statusCode (main (mkArgs (Some (manyBullets n)) None None)) = 500).
Proof.
  assert (Hlong : forall n,
            accepted n = false ->
            statusCode (main (mkArgs (Some (manyBullets n)) None None)) = 500).
  { intros [|n] Hn; [rewrite accepted_0 in Hn; discriminate|].
    unfold main. cbn [__ow_method __ow_headers md].
    change (truthy (manyBullets (S n))) with true. cbv iota.
    replace (truthy [] && negb (includes [] (str "application/json"))) with false
      by reflexivity.
    rewrite parseMarkdown_manyBullets, Hn. reflexivity. }
  split; [|split; [|split; [|split; [|split; [|exact Hlong]]]]]; clear Hlong;
    unfold main;
    destruct (match __ow_method args with
              | Some method => truthy method && negb (eqb (toLowerCase method) (str "post"))
              | None => false
              end);
    try (simpl; first [tauto | discriminate
                       | split; [discriminate | intros [b Hb]; discriminate Hb]
                       | split; reflexivity ]);
    cbv zeta;
    destruct (truthy _ && negb (includes _ (str "application/json")));
    try (simpl; first [tauto | discriminate
                       | split; [discriminate | intros [b Hb]; discriminate Hb]
                       | split; discriminate ]);
    destruct (md args) as [markdown|];
    try (simpl; first [tauto | discriminate
                       | split; [discriminate | intros [b Hb]; discriminate Hb]
                       | split; discriminate ]);
    destruct (truthy markdown);
    try (simpl; first [tauto | discriminate
                       | split; [discriminate | intros [b Hb]; discriminate Hb]
                       | split; discriminate ]);
    destruct (parseMarkdown markdown) as [bs|e] eqn:Ep;
    try (simpl; first [tauto | discriminate | reflexivity
                       | split; [discriminate | intros [b Hb]; discriminate Hb]
                       | split; discriminate
                       | split; [intros _; exists bs; reflexivity | reflexivity] ]).
  intros _. destruct (parseMarkdown_thrown _ _ Ep) as [Hfit ->]. simpl.
  split; [reflexivity|]. exists markdown. split; [reflexivity | exact Hfit].
Qed.

(** X16. The first version of [main] has no [try].  Where it returns
    blocks, the present [main], asked with no method and no headers,
    returns the same blocks with status 200; where it returns its error,
    the present one answers 400; where it throws, a list of the document
    has more items than the engine accepts arguments, what leaves it is
    the [RangeError], and the present one answers 500.  It does throw on
    a document of so many items of one list. *)
Theorem legacy_main_agrees (input : option jsstring) :
  match legacyMain input with
  | Normal r =>
      match legacyBody r with
      | Some blocks =>
          legacyError r = None /\
          main (mkArgs input None None) = mkResponse (ChildrenBody blocks) 200 jsonHeaders
      | None =>
          legacyError r = Some (str "no markdown provided!") /\
          statusCode (main (mkArgs input None None)) = 400
      end
  | Throw e =>
      e = ErrorObject (str "Maximum call stack size exceeded") /\
      (exists markdown,
         input = Some markdown /\ listsFit None 0 (sourceLines markdown) = false) /\
      statusCode (main (mkArgs input None None)) = 500
  end /\
  (forall n,
     accepted n = false ->
     legacyMain (Some (manyBullets n))
     = Throw (ErrorObject (str "Maximum call stack size exceeded"))).
Proof.
  split.
  - unfold legacyMain, main. cbn [__ow_method __ow_headers md].
    replace (truthy [] && negb (includes [] (str "application/json"))) with false
      by reflexivity.
    destruct input as [markdown|]; [|split; reflexivity].
    destruct (truthy markdown); [|split; reflexivity].
    destruct (parseMarkdown markdown) as [bs|e] eqn:Ep; simpl.
    + split; reflexivity.
    + destruct (parseMarkdown_thrown _ _ Ep) as [Hfit ->].
      split; [reflexivity|]. split; [|reflexivity].
      exists markdown. split; [reflexivity | exact Hfit].
  - intros [|n] Hn; [rewrite accepted_0 in Hn; discriminate|].
    unfold legacyMain. change (truthy (manyBullets (S n))) with true. cbv iota.
    rewrite parseMarkdown_manyBullets, Hn. reflexivity.
Qed.

End Engine.

(** * On an engine

    The theorems above hold whatever number of arguments the engine
    accepts.  Here they are applied on an engine that accepts 100000
    arguments; and the inputs on which the specification fails are such
    on every engine. *)

(** The theorem on a document with an empty line and a padded line. *)
Lemma parseMarkdown_plain_lines_witness :
  parseMarkdown 100000 (str "Hello" ++ nl ++ nl ++ str "  wide world  " ++ nl)
  = Normal [mkBlock (str "paragraph") (RichTextPayload (parseInlineStyles (str "Hello")));
            mkBlock (str "paragraph")
              (RichTextPayload (parseInlineStyles (str "wide world")))].
Proof.
  apply (parseMarkdown_plain_lines 100000
           (str "Hello" ++ nl ++ nl ++ str "  wide world  " ++ nl)).
  reflexivity.
Defined.

(** The theorem on a document with an indented item and an empty
    line. *)
Lemma three_bullets_witness :
  parseMarkdown 100000 (str "- a" ++ nl ++ str "  - **b**" ++ nl ++ nl ++ str "- c" ++ nl)
  = Normal [mkBlock (str "bulleted_list_item")
              (RichTextPayload (parseInlineStyles (str "a")));
            mkBlock (str "bulleted_list_item")
              (RichTextPayload (parseInlineStyles (str "**b**")));
            mkBlock (str "bulleted_list_item")
              (RichTextPayload (parseInlineStyles (str "c")))].
Proof.
  assert (H : (3 <= 100000)%N) by lia.
  apply (proj1 (proj2 (three_bullets 100000 H))
           (str "- a" ++ nl ++ str "  - **b**" ++ nl ++ nl ++ str "- c" ++ nl)
           (str "a") (str "**b**") (str "c")).
  reflexivity.
Defined.

(** C5, as stated, fails on a line with a carriage return between
    parentheses.  On the first line the first parenthesis pair holds the
    carriage return, and the url of the image block is the text of the
    second pair; on the second line there is text between the
    parentheses, and the line gives no block. *)
Lemma image_url_misses_first_pair :
  (isImageLine (str "![(" ++ cr ++ str ")](u)") = true /\
   firstPair (str "![(" ++ cr ++ str ")](u)") = Some cr /\
   forall maxArguments,
     parseMarkdown maxArguments (str "![(" ++ cr ++ str ")](u)")
     = Normal [mkBlock (str "image") (ExternalPayload (str "u"))])
  /\
  (isImageLine (str "![a](b" ++ cr ++ str "c)") = true /\
   firstPair (str "![a](b" ++ cr ++ str "c)") = Some (str "b" ++ cr ++ str "c") /\
   forall maxArguments,
     parseMarkdown maxArguments (str "![a](b" ++ cr ++ str "c)") = Normal []).
Proof. repeat split; intros; reflexivity. Qed.

(** The theorem on a padded image line that closes an open list; the
    first parenthesis pair stands in the alternative text. *)
Lemma image_line_witness :
  processLine 100000 (mkParse [] [str "item"] true (Some bulletList)) (str "  ![a(b)](c) ")
  = Normal (mkParse [mkBlock (str "bulleted_list_item")
                       (RichTextPayload (parseInlineStyles (str "item")));
                     mkBlock (str "image") (ExternalPayload (str "b"))]
                    [] false (Some bulletList)).
Proof.
  apply (proj1 (image_line 100000) (mkParse [] [str "item"] true (Some bulletList))
           (mkParse [bulletItem (str "item")] [] false (Some bulletList))
           (str "  ![a(b)](c) ")); reflexivity.
Defined.

(** C10, as stated, fails: a carriage return between the parentheses
    keeps [.] from reaching the [)]; the test of the image rule holds,
    the match is [null] and the line gives no block. *)
Lemma guarded_match_can_fail :
  isImageLine (str "![a](b" ++ cr ++ str "c)") = true /\
  match_ (str "![a](b" ++ cr ++ str "c)") reParens = None /\
  forall maxArguments,
    parseMarkdown maxArguments (str "![a](b" ++ cr ++ str "c)") = Normal [].
Proof. repeat split; intros; reflexivity. Qed.

(** The theorem on an image line. *)
Lemma guarded_match_succeeds_witness :
  (isImageLine (str "![alt](u)") = true ->
     exists m, match_ (str "![alt](u)") reParens = Some m) /\
  (isLinkLine (str "![alt](u)") = true ->
     exists m, match_ (str "![alt](u)") reLink = Some m) /\
  (exists block,
     processLine 100000 (mkParse [] [] false None) (str "![alt](u)")
     = Normal (push (mkParse [] [] false None) block)) /\
  (forall markdown, sourceLines markdown = [str "![alt](u)"] ->
     exists block, parseMarkdown 100000 markdown = Normal [block]).
Proof.
  apply (guarded_match_succeeds 100000 (mkParse [] [] false None) (mkParse [] [] false None)
           (str "![alt](u)")); reflexivity.
Defined.



(** C7, as stated, fails on an empty method and on an empty content
    type: the first is supplied and is not POST, the second is present
    and does not include [application/json], and the request is served
    all the same. *)
Lemma main_serves_empty_method_and_type :
  (forall maxArguments,
     statusCode (main maxArguments (mkArgs (Some (str "# Hi")) (Some (str "")) None)) = 200) /\
  (forall maxArguments,
     statusCode (main maxArguments
                   (mkArgs (Some (str "# Hi")) None
                           (Some [(str "content-type", str "")]))) = 200).
Proof. split; intros; reflexivity. Qed.

(** The theorem on a GET request, which is refused, and on a request
    whose method is POST in mixed case, which is served. *)
Lemma main_gates_witness :
  statusCode (main 100000 (mkArgs (Some (str "# Hi")) (Some (str "GET")) None)) = 405 /\
  main 100000 (mkArgs (Some (str "# Hi")) (Some (str "PoSt")) None)
  = mkResponse
      (ChildrenBody [mkBlock (str "heading_1")
                       (RichTextPayload (parseInlineStyles (str "Hi")))])
      200 [(str "Content-Type", str "application/json")].
Proof.
  split.
  - pose proof (main_gates 100000 (mkArgs (Some (str "# Hi")) (Some (str "GET")) None)) as H.
    cbv zeta in H. destruct H as [H _]. apply H. split; discriminate.
  - pose proof (main_gates 100000 (mkArgs (Some (str "# Hi")) (Some (str "PoSt")) None)) as H.
    cbv zeta in H. destruct H as [_ [H _]].
    destruct (H (or_intror eq_refl)) as [_ H1].
    destruct (H1 (or_introl eq_refl)) as [_ H2].
    assert (Hmd : orElse (md (mkArgs (Some (str "# Hi")) (Some (str "PoSt")) None)) [] <> [])
      by discriminate.
    destruct (H2 Hmd) as [_ [H3 _]]. apply H3. reflexivity.
Defined.

(** The theorem on a heading and an item. *)
Lemma parseMarkdown_concat_witness :
  exists first second,
    parseMarkdown 100000 (str "# a") = Normal first /\
    parseMarkdown 100000 (str "- b") = Normal second /\
    [createHeading1 (str "a"); bulletItem (str "b")] = first ++ second.
Proof.
  apply (proj1 (parseMarkdown_concat 100000 (str "# a") (str "- b")
                  [createHeading1 (str "a"); bulletItem (str "b")] eq_refl)).
Defined.

(** The theorem on a document of white space. *)
Lemma parseMarkdown_blank_witness :
  parseMarkdown 100000 (str "  " ++ nl ++ cr ++ nl) = Normal [] /\
  (str "  " ++ nl ++ cr ++ nl <> [] ->
   main 100000 (mkArgs (Some (str "  " ++ nl ++ cr ++ nl)) None None)
   = mkResponse (ChildrenBody []) 200 [(str "Content-Type", str "application/json")]).
Proof. apply (parseMarkdown_blank 100000 (str "  " ++ nl ++ cr ++ nl)). reflexivity. Defined.

(** The theorems on a heading, a blank line and two items. *)
Lemma parseMarkdown_block_count_witness :
  (List.length [createHeading1 (str "a"); bulletItem (str "b"); bulletItem (str "c")]
   <= List.length (sourceLines (str "# a" ++ nl ++ nl ++ str "- b" ++ nl ++ str "- c")))%nat /\
  (forallb noLineTerminator
     (sourceLines (str "# a" ++ nl ++ nl ++ str "- b" ++ nl ++ str "- c")) = true ->
   List.length [createHeading1 (str "a"); bulletItem (str "b"); bulletItem (str "c")]
   = List.length (sourceLines (str "# a" ++ nl ++ nl ++ str "- b" ++ nl ++ str "- c"))).
Proof.
  apply (parseMarkdown_block_count 100000
           (str "# a" ++ nl ++ nl ++ str "- b" ++ nl ++ str "- c")
           [createHeading1 (str "a"); bulletItem (str "b"); bulletItem (str "c")]).
  reflexivity.
Defined.

Lemma parseMarkdown_types_witness :
  Forall (fun b => In (type b) writtenTypes)
         [createHeading1 (str "a"); bulletItem (str "b"); bulletItem (str "c")] /\
  Forall (fun b => type b <> str "video" /\ type b <> str "divider")
         [createHeading1 (str "a"); bulletItem (str "b"); bulletItem (str "c")].
Proof.
  apply (parseMarkdown_types 100000
           (str "# a" ++ nl ++ nl ++ str "- b" ++ nl ++ str "- c")
           [createHeading1 (str "a"); bulletItem (str "b"); bulletItem (str "c")]).
  reflexivity.
Defined.

Lemma parseMarkdown_well_filled_witness :
  Forall wellFilled [createHeading1 (str "a"); bulletItem (str "b"); bulletItem (str "c")].
Proof.
  apply (parseMarkdown_well_filled 100000
           (str "# a" ++ nl ++ nl ++ str "- b" ++ nl ++ str "- c")
           [createHeading1 (str "a"); bulletItem (str "b"); bulletItem (str "c")]).
  reflexivity.
Defined.

Lemma parseMarkdown_no_space_witness :
  Forall (fun b => forall count, ~ In b (createSpace count))
         [createHeading1 (str "a"); bulletItem (str "b"); bulletItem (str "c")].
Proof.
  apply (parseMarkdown_no_space 100000
           (str "# a" ++ nl ++ nl ++ str "- b" ++ nl ++ str "- c")
           [createHeading1 (str "a"); bulletItem (str "b"); bulletItem (str "c")]).
  reflexivity.
Defined.

(** The theorem on a line of inline code spans. *)
Lemma code_rule_witness :
  processLine 100000 (mkParse [] [] false None) (str "`a` and `b`") =
  (st' <- closeList 100000 (mkParse [] [] false None) ;;
   Normal (push st'
     (createBlock (str "code")
        (CodePayload [createRichText (removelast (tl (trim (str "`a` and `b`")))) noAnnotations]
                     (str "javascript"))))) /\
  forall body,
    parseMarkdown 100000 (str "```" ++ nl ++ body ++ nl ++ str "```") =
    (inside <- parseMarkdown 100000 body ;;
     Normal (createCodeBlock (str "`") None :: inside ++ [createCodeBlock (str "`") None])).
Proof.
  apply (code_rule 100000 (mkParse [] [] false None) (str "`a` and `b`")). reflexivity.
Defined.

